(** * Event-study engine ([src/src/eventstudy.py]) — a shallow embedding

    The class [EventStudy] is built on pandas frames.  The embedding keeps a
    frame as the code sees it: a row index of timestamps, and named columns
    holding one cell per row.  The cell type plays the role of the dtype:
    [option value] for float columns (NaN is [None]), [bool] for boolean
    masks, [option bool] for the object columns [True]/NaN that
    [replace(False, np.nan)] produces.

    Float payloads are modelled as exact rationals ([Qc]): rounding is not
    modelled and nothing below depends on it. *)

From Stdlib Require Import String ZArith List Bool Lia Arith QArith Qcanon Sorted.
Import ListNotations.

Local Open Scope Z_scope.

(** ** Exceptions and results *)

(** Python exceptions; a [ValueError] carries its message, which tells the
    engine's own alignment error from those of pandas and numpy. *)
Inductive exn : Type :=
| ValueError (msg : string)
| ZeroDivisionError
| AttributeError.

Definition is_ValueError (e : exn) : bool :=
  match e with ValueError _ => true | _ => false end.

(** [Diverge] is only produced by the fuel-bounded [while] loop of
    [bootstrap_wo_events]. *)
Inductive result (A : Type) : Type :=
| Ok (a : A)
| Raise (e : exn)
| Diverge.

Arguments Ok {A} a.
Arguments Raise {A} e.
Arguments Diverge {A}.

Definition rbind {A B} (r : result A) (k : A -> result B) : result B :=
  match r with
  | Ok a => k a
  | Raise e => Raise e
  | Diverge => Diverge
  end.

Declare Scope result_scope.
Delimit Scope result_scope with result.
Notation "x <- c ;; k" := (rbind c (fun x => k))
  (at level 61, c at next level, right associativity) : result_scope.

(** ** Frames *)

Definition timestamp := Z.
Definition label := string.
Definition value := Qc.

Record Frame (C : Type) : Type := mkFrame {
  index : list timestamp;
  columns : list (label * list C)
}.

Arguments mkFrame {C} index columns.
Arguments index {C} f.
Arguments columns {C} f.

(** A float frame, [pandas.DataFrame] of dtype float64. *)
Definition DataFrame := Frame (option value).

Definition names {C} (f : Frame C) : list label := map fst (columns f).

(** [len(df)] *)
Definition len {C} (f : Frame C) : nat := length (index f).

(** [df.shape[1]] *)
Definition ncols {C} (f : Frame C) : nat := length (columns f).

(** Column and row-label lookup (first match, as pandas does on a unique
    axis). *)
Fixpoint get_column {C} (c : label) (cols : list (label * list C))
  : option (list C) :=
  match cols with
  | [] => None
  | (c', col) :: tl => if String.eqb c c' then Some col else get_column c tl
  end.

Fixpoint get_loc (t : timestamp) (idx : list timestamp) : option nat :=
  match idx with
  | [] => None
  | t' :: tl => if Z.eqb t t' then Some O
                else option_map S (get_loc t tl)
  end.

(** The cell of a frame at column [c] and row label [t]; [d] when either
    label is absent. *)
Definition cell_at {C} (d : C) (f : Frame C) (c : label) (t : timestamp) : C :=
  match get_column c (columns f), get_loc t (index f) with
  | Some col, Some i => nth i col d
  | _, _ => d
  end.

(** On a float-like frame an absent cell is NaN. *)
Definition at_label {A} (f : Frame (option A)) (c : label) (t : timestamp)
  : option A := cell_at None f c t.

(** The shape invariant of a frame: every column has one cell per row. *)
Definition well_shaped {C} (f : Frame C) : Prop :=
  Forall (fun c => length (snd c) = length (index f)) (columns f).

(** Two frames have the same shape and labels. *)
Definition same_shape {C D} (f : Frame C) (g : Frame D) : Prop :=
  index f = index g /\ names f = names g /\
  well_shaped f /\ well_shaped g.

(** A frame transformed column by column. *)
Definition map_columns {C D} (F : list C -> list D) (f : Frame C) : Frame D :=
  mkFrame (index f) (map (fun c => (fst c, F (snd c))) (columns f)).

(** Cell-wise operations. *)
Definition map_cells {C D} (h : C -> D) (f : Frame C) : Frame D :=
  map_columns (map h) f.

Definition zip_with {C D E} (h : C -> D -> E) (l1 : list C) (l2 : list D)
  : list E :=
  map (fun p => h (fst p) (snd p)) (combine l1 l2).

(** Cell-wise binary operation on two frames that carry the same labels in
    the same order (pandas aligns on labels; every use below combines frames
    derived from one frame). *)
Definition zip_cells {C D E} (h : C -> D -> E) (f : Frame C) (g : Frame D)
  : Frame E :=
  mkFrame (index f)
    (map (fun cd => (fst (fst cd), zip_with h (snd (fst cd)) (snd (snd cd))))
         (combine (columns f) (columns g))).

Definition is_some {A} (o : option A) : bool :=
  match o with Some _ => true | None => false end.

(** [df.notnull()], [df.isnull()] *)
Definition notnull {A} (f : Frame (option A)) : Frame bool :=
  map_cells is_some f.
Definition isnull {A} (f : Frame (option A)) : Frame bool :=
  map_cells (fun o => negb (is_some o)) f.

(** [df.replace(False, np.nan)] on a boolean frame *)
Definition replace_False_nan (f : Frame bool) : Frame (option bool) :=
  map_cells (fun b : bool => if b then Some true else None) f.

(** [df.fillna(False).astype(bool)] *)
Definition unnan (o : option bool) : bool :=
  match o with Some b => b | None => false end.
Definition fillna_False (f : Frame (option bool)) : Frame bool :=
  map_cells unnan f.

(** [a & b] *)
Definition frame_and (f g : Frame bool) : Frame bool := zip_cells andb f g.

(** [~a] *)
Definition frame_not (f : Frame bool) : Frame bool := map_cells negb f.

(** [df.mask(cond, other)]: [other] where [cond] holds. *)
Definition mask_with {C} (f : Frame C) (cond : Frame bool) (other : C)
  : Frame C :=
  zip_cells (fun x (b : bool) => if b then other else x) f cond.

(** [df.where(cond)] on a float-like frame: NaN where [cond] fails. *)
Definition where_ {A} (f : Frame (option A)) (cond : Frame bool)
  : Frame (option A) :=
  zip_cells (fun x (b : bool) => if b then x else None) f cond.

(** [df.reindex_like(other)]: the cells of [df] at the labels of [other],
    NaN where [df] has no such row or column. *)
Definition reindex_like {A D} (f : Frame (option A)) (other : Frame D)
  : Frame (option A) :=
  mkFrame (index other)
    (map (fun c => (fst c, map (fun t => at_label f (fst c) t) (index other)))
         (columns other)).

(** ** Neighbour fills with a limit

    [pad] is pandas' [pad_inplace]: a forward scan carrying the last valid
    value and the number of consecutive fills made since. *)
Fixpoint pad {A} (lim : nat) (last : option A) (cnt : nat)
  (l : list (option A)) : list (option A) :=
  match l with
  | [] => []
  | Some v :: tl => Some v :: pad lim (Some v) 0 tl
  | None :: tl =>
      if (cnt <? lim)%nat then last :: pad lim last (S cnt) tl
      else None :: pad lim last cnt tl
  end.

Definition ffill_column {A} (lim : nat) (l : list (option A)) :=
  pad lim None 0 l.

(** [backfill_inplace] is the same scan from the last row. *)
Definition bfill_column {A} (lim : nat) (l : list (option A)) :=
  rev (pad lim None 0 (rev l)).

Definition limit_msg : string := "Limit must be greater than 0".

(** The contract of [limit] in pandas' fills: it ``must be greater than 0``;
    a smaller one is rejected with a [ValueError]. *)
Definition validate_limit (limit : Z) : result nat :=
  if limit <? 1 then Raise (ValueError limit_msg)
  else Ok (Z.to_nat limit).

Local Open Scope result_scope.

(** [df.ffill(limit=limit)], [df.bfill(limit=limit)] *)
Definition ffill {A} (limit : Z) (f : Frame (option A))
  : result (Frame (option A)) :=
  lim <- validate_limit limit ;;
  Ok (map_columns (ffill_column lim) f).

Definition bfill {A} (limit : Z) (f : Frame (option A))
  : result (Frame (option A)) :=
  lim <- validate_limit limit ;;
  Ok (map_columns (bfill_column lim) f).

(** ** The engine *)

Record EventStudy : Type := mkEventStudy {
  data : DataFrame;
  events : DataFrame;
  window : Z * Z;
  event_date_index : Z
}.

(** [self.assets] *)
Definition assets (self : EventStudy) : list label := names (data self).

(** The event markers on the calendar of [data]:
    [events.reindex_like(data).notnull().replace(False, np.nan)]. *)
Definition events_reidx (self : EventStudy) : Frame (option bool) :=
  replace_False_nan (notnull (reindex_like (events self) (data self))).

(** [EventStudy.mark_event_windows] *)
Definition mark_event_windows (self : EventStudy) (excl_ambig : bool)
  : result (Frame bool) :=
  let '(w_s, w_e) := window self in
  let w_e := w_e - event_date_index self in
  let ev := events_reidx self in
  b <- bfill (- w_s) ev ;;
  f <- ffill w_e ev ;;
  let mask_confusing :=
    frame_and (frame_and (fillna_False b) (fillna_False f)) (isnull ev) in
  b' <- bfill (- w_s) ev ;;
  bf <- ffill w_e b' ;;
  let res := notnull bf in
  Ok (if excl_ambig then mask_with res mask_confusing false else res).

(** ** A running example: one asset, ten days, one event on day 5 *)

Definition Q2Qc_of_Z (z : Z) : value := Q2Qc (inject_Z z).

Definition days10 : list timestamp := [1; 2; 3; 4; 5; 6; 7; 8; 9; 10].

Definition panel10 : DataFrame :=
  mkFrame days10
    [("X"%string, map (fun d => Some (Q2Qc_of_Z d)) days10)].

Definition event5 : DataFrame :=
  mkFrame [5] [("X"%string, [Some (Q2Qc_of_Z 1)])].

Definition study10 : EventStudy := mkEventStudy panel10 event5 (-2, 2) 0.

(** ** Construction ([EventStudy.__init__]) *)

(** A [pandas.Series]; an unnamed series is given the name pandas uses for
    its column in [to_frame()]. *)
Record Series : Type := mkSeries {
  sname : label;
  sindex : list timestamp;
  svalues : list (option value)
}.

Inductive pandas_obj : Type :=
| PSeries (s : Series)
| PFrame (df : DataFrame).

(** [s.to_frame(name)] *)
Definition to_frame (name : label) (s : Series) : DataFrame :=
  mkFrame (sindex s) [(name, svalues s)].

Definition obj_index (o : pandas_obj) : list timestamp :=
  match o with
  | PSeries s => sindex s
  | PFrame df => index df
  end.

(** [len(obj)] *)
Definition obj_len (o : pandas_obj) : nat := length (obj_index o).

(** Row [i] of a float frame has at least one value. *)
Definition row_has_value (cols : list (label * list (option value)))
  (i : nat) : bool :=
  existsb (fun c => is_some (nth i (snd c) None)) cols.

(** [df.iloc[ps]]: the rows at positions [ps], in that order. *)
Definition take_rows {A} (ps : list nat) (f : Frame (option A))
  : Frame (option A) :=
  mkFrame (map (fun p => nth p (index f) 0) ps)
    (map (fun c => (fst c, map (fun p => nth p (snd c) None) ps))
         (columns f)).

(** The positions that [dropna(how="all")] keeps. *)
Definition rows_with_value (f : DataFrame) : list nat :=
  filter (row_has_value (columns f)) (seq 0 (len f)).

(** [df.dropna(how="all")] *)
Definition dropna_all (f : DataFrame) : DataFrame :=
  take_rows (rows_with_value f) f.

(** [events.dropna(how="all").index]: the timestamps that carry an event
    for some asset. *)
Definition event_timestamps (o : pandas_obj) : list timestamp :=
  match o with
  | PSeries s => index (dropna_all (to_frame (sname s) s))
  | PFrame df => index (dropna_all df)
  end.

Definition mem_ts (t : timestamp) (l : list timestamp) : bool :=
  existsb (Z.eqb t) l.

(** [left.union(right)] of two row indexes without repeated labels, up to
    the order of the result (only its length is used): the labels of
    [left], then the labels of [right] that [left] lacks. *)
Definition index_union (left right : list timestamp) : list timestamp :=
  left ++ nodup Z.eq_dec (filter (fun t => negb (mem_ts t left)) right).

Definition misaligned_msg : string :=
  "Some event dates are not present in `data`. Align `data` and `events` first.".

Definition no_objects_msg : string := "No objects to concatenate".

(** [pd.concat(objs, axis=1, keys=keys)] of copies of one series. *)
Definition broadcast_series (s : Series) (keys : list label)
  : result DataFrame :=
  match keys with
  | [] => Raise (ValueError no_objects_msg)
  | _ => Ok (mkFrame (sindex s) (map (fun k => (k, svalues s)) keys))
  end.

Definition mem_label (c : label) (l : list label) : bool :=
  existsb (String.eqb c) l.

(** [events, data = events.align(data, axis=1, join="inner")]: both frames
    keep their rows and are narrowed to the common columns, in the order of
    [events]. *)
Definition align_inner (events data : DataFrame) : DataFrame * DataFrame :=
  let common := filter (fun c => mem_label c (names data)) (names events) in
  let pick (f : DataFrame) :=
    mkFrame (index f)
      (map (fun c => (c, match get_column c (columns f) with
                         | Some col => col
                         | None => []
                         end)) common) in
  (pick events, pick data).

(** The condition under which the constructor warns about dropped columns;
    the warning does not change what [init] returns. *)
Definition init_warns (data events : pandas_obj) : bool :=
  match data, events with
  | PFrame d, PFrame e => (ncols e <? ncols d)%nat
  | _, _ => false
  end.

(** [EventStudy(data, events, window, event_date_index)] *)
Definition init (data events : pandas_obj) (window : Z * Z)
  (event_date_index : Z) : result EventStudy :=
  if (obj_len data <?
      length (index_union (obj_index data) (event_timestamps events)))%nat
  then Raise (ValueError misaligned_msg)
  else
    frames <-
      match data, events with
      | PSeries d, PSeries e =>
          Ok (to_frame (sname d) d, to_frame (sname d) e)
      | PSeries d, PFrame e => Ok (to_frame (sname d) d, e)
      | PFrame d, PSeries e =>
          e' <- broadcast_series e (names d) ;; Ok (d, e')
      | PFrame d, PFrame e => Ok (d, e)
      end ;;
    let '(ev, dat) := align_inner (snd frames) (fst frames) in
    Ok (mkEventStudy dat ev window event_date_index).

(** ** Pivoting ([EventStudy.pivot]) *)

(** The event-relative table: row index of relative offsets, columns keyed
    by (asset, event timestamp). *)
Record EventPanel : Type := mkEventPanel {
  offsets : list Z;
  pcolumns : list ((label * timestamp) * list (option value))
}.

(** [df.fillna(other)]: a NaN cell takes the cell of [other]. *)
Definition fillna_frame {A} (f other : Frame (option A)) : Frame (option A) :=
  zip_cells (fun x y => match x with Some _ => x | None => y end) f other.

(** [periods + k]; the offsets are floats holding whole numbers, kept as
    integers here. *)
Definition shift_periods (k : Z) (f : Frame (option Z)) : Frame (option Z) :=
  map_cells (option_map (fun p => p + k)) f.

(** [np.abs(self.window)] and its [max] *)
Definition max_abs_window (w : Z * Z) : Z :=
  Z.max (Z.abs (fst w)) (Z.abs (snd w)).

(** The state threaded through the growth loop. *)
Record growth : Type := mkGrowth {
  g_periods : Frame (option Z);
  g_evt_dates : Frame (option timestamp);
  count_bef : Z;
  count_aft : Z
}.

(** One pass of the loop body of [pivot]. *)
Definition grow_step (w_s w_e : Z) (g : growth) : result growth :=
  g1 <-
    (if w_s <=? count_bef g then
       p <- bfill 1 (shift_periods (-1) (g_periods g)) ;;
       d <- bfill 1 (g_evt_dates g) ;;
       Ok (mkGrowth (fillna_frame (g_periods g) p) d
             (count_bef g - 1) (count_aft g))
     else Ok g) ;;
  if count_aft g1 <=? w_e then
    p <- ffill 1 (shift_periods 1 (g_periods g1)) ;;
    d <- ffill 1 (g_evt_dates g1) ;;
    Ok (mkGrowth (fillna_frame (g_periods g1) p) d
          (count_bef g1) (count_aft g1 + 1))
  else Ok g1.

(** [for _p in range(n): ...] *)
Fixpoint grow (n : nat) (w_s w_e : Z) (g : growth) : result growth :=
  match n with
  | O => Ok g
  | S n' => g' <- grow_step w_s w_e g ;; grow n' w_s w_e g'
  end.

(** One row of the long table built before [unstack]: asset, anchor event,
    relative offset, value. *)
Record entry : Type := mkEntry {
  e_asset : label;
  e_evt_dt : timestamp;
  e_period : Z;
  e_val : option value
}.

Fixpoint zip3 {A B C} (l1 : list A) (l2 : list B) (l3 : list C)
  : list (A * B * C) :=
  match l1, l2, l3 with
  | a :: t1, b :: t2, c :: t3 => (a, b, c) :: zip3 t1 t2 t3
  | _, _, _ => []
  end.

(** The rows that survive [stack]: slots where anchor and offset are set
    (the two frames are NaN at the same slots throughout), with the value of
    [data] at the slot. *)
Definition column_entries (c : label) (dts : list (option timestamp))
  (ps : list (option Z)) (vals : list (option value)) : list entry :=
  flat_map (fun x =>
              match x with
              | (Some d, Some p, v) => [mkEntry c d p v]
              | _ => []
              end) (zip3 dts ps vals).

Definition long_table (evt_dates : Frame (option timestamp))
  (periods : Frame (option Z)) (dat : DataFrame) : list entry :=
  flat_map (fun x =>
              match x with
              | (cd, cp, cv) =>
                  column_entries (fst cd) (snd cd) (snd cp) (snd cv)
              end)
    (zip3 (columns evt_dates) (columns periods) (columns dat)).

Definition key := (label * timestamp)%type.

Definition key_eqb (k1 k2 : key) : bool :=
  String.eqb (fst k1) (fst k2) && (snd k1 =? snd k2).

(** Lexicographic order on (asset, event timestamp). *)
Definition key_leb (k1 k2 : key) : bool :=
  match String.compare (fst k1) (fst k2) with
  | Lt => true
  | Eq => snd k1 <=? snd k2
  | Gt => false
  end.

Section Sorting.

Context {A : Type} (leb eqb : A -> A -> bool).

(** Insertion into a sorted list without repetition. *)
Fixpoint insert_uniq (x : A) (l : list A) : list A :=
  match l with
  | [] => [x]
  | y :: tl =>
      if eqb x y then l
      else if leb x y then x :: l
      else y :: insert_uniq x tl
  end.

(** The sorted distinct elements of a list. *)
Definition sort_uniq (l : list A) : list A :=
  fold_right insert_uniq [] l.

Fixpoint has_dup (l : list A) : bool :=
  match l with
  | [] => false
  | x :: tl => existsb (eqb x) tl || has_dup tl
  end.

End Sorting.

Definition entry_key (e : entry) : key := (e_asset e, e_evt_dt e).

Definition same_cell (e1 e2 : entry) : bool :=
  key_eqb (entry_key e1) (entry_key e2) && (e_period e1 =? e_period e2).

(** The cell of the table at offset [p] in column [k]. *)
Definition table_cell (es : list entry) (k : key) (p : Z) : option value :=
  match find (fun e => key_eqb (entry_key e) k && (e_period e =? p)) es with
  | Some e => e_val e
  | None => None
  end.

Definition duplicate_msg : string :=
  "Index contains duplicate entries, cannot reshape".

(** [.squeeze().unstack(level=[0, 1])]: a single row squeezes to a scalar,
    which has no [unstack]; repeated (asset, event, offset) rows cannot be
    reshaped.  The result has sorted rows and columns. *)
Definition unstack (es : list entry) : result EventPanel :=
  match es with
  | [_] => Raise AttributeError
  | _ =>
      if has_dup same_cell es then Raise (ValueError duplicate_msg)
      else
        let rows := sort_uniq Z.leb Z.eqb (map e_period es) in
        let keys := sort_uniq key_leb key_eqb (map entry_key es) in
        Ok (mkEventPanel rows
              (map (fun k => (k, map (table_cell es k) rows)) keys))
  end.

(** [res.loc[w_s:w_e]] on the sorted offset index. *)
Definition loc_rows (w_s w_e : Z) (t : EventPanel) : EventPanel :=
  let keep := map (fun p => (w_s <=? p) && (p <=? w_e)) (offsets t) in
  let sel {A} (l : list A) :=
    map fst (filter (fun x => snd x) (combine l keep)) in
  mkEventPanel (sel (offsets t))
    (map (fun c => (fst c, sel (snd c))) (pcolumns t)).

Definition length_mismatch_msg : string :=
  "Length mismatch: Expected axis has 0 elements".

(** [dates_df]: the calendar repeated under every asset.  A frame built
    from no column has no row, so giving it a non-empty index fails. *)
Definition dates_df (dat : DataFrame) : result (Frame (option timestamp)) :=
  match columns dat, index dat with
  | [], _ :: _ => Raise (ValueError length_mismatch_msg)
  | _, _ =>
      Ok (mkFrame (index dat)
            (map (fun c => (fst c, map Some (index dat))) (columns dat)))
  end.

(** [cond] aligned to the labels of [other]; absent cells count as False. *)
Definition align_cond {D} (cond : Frame bool) (other : Frame D) : Frame bool :=
  mkFrame (index other)
    (map (fun c => (fst c, map (fun t => cell_at false cond (fst c) t)
                             (index other)))
         (columns other)).

(** [EventStudy.pivot] *)
Definition pivot (self : EventStudy) : result EventPanel :=
  let '(w_s, w_e) := window self in
  dates <- dates_df (data self) ;;
  let evt_dates := where_ dates (align_cond (notnull (events self)) dates) in
  let periods :=
    reindex_like
      (map_cells (fun o : option value =>
                    if is_some o then Some (event_date_index self) else None)
         (events self))
      dates in
  let count_bef := -1 in
  let count_aft := if event_date_index self =? 1 then 1 else 0 in
  g <- grow (Z.to_nat (max_abs_window (window self))) w_s w_e
         (mkGrowth periods evt_dates count_bef count_aft) ;;
  evt_w <- mark_event_windows self true ;;
  let evt_dates := where_ (g_evt_dates g) evt_w in
  let periods := where_ (g_periods g) evt_w in
  t <- unstack (long_table evt_dates periods (data self)) ;;
  Ok (loc_rows w_s w_e t).

(** ** Aggregation ([EventStudy.event_weighted_mean]) *)

Definition Qc_of_nat (n : nat) : value := Q2Qc (inject_Z (Z.of_nat n)).

(** The level-0 groups of the columns: the assets, sorted. *)
Definition level0 (df : EventPanel) : list label :=
  sort_uniq String.leb String.eqb (map (fun c => fst (fst c)) (pcolumns df)).

(** The cells of row [i] under asset [a]. *)
Definition group_row (df : EventPanel) (a : label) (i : nat)
  : list (option value) :=
  map (fun c => nth i (snd c) None)
    (filter (fun c => String.eqb (fst (fst c)) a) (pcolumns df)).

(** Sum and count that skip NaN. *)
Fixpoint nansum (l : list (option value)) : value :=
  match l with
  | [] => 0%Qc
  | Some v :: tl => (v + nansum tl)%Qc
  | None :: tl => nansum tl
  end.

Fixpoint count_notnull {A} (l : list (option A)) : nat :=
  match l with
  | [] => O
  | Some _ :: tl => S (count_notnull tl)
  | None :: tl => count_notnull tl
  end.

(** [mean] of a group: NaN when the group has no value. *)
Definition nanmean (l : list (option value)) : option value :=
  match count_notnull l with
  | O => None
  | n => Some (nansum l / Qc_of_nat n)%Qc
  end.

(** [df.count(axis=1, level=0).sum(axis=1)] at row [i] *)
Definition total_count (df : EventPanel) (i : nat) : nat :=
  list_sum (map (fun a => count_notnull (group_row df a i)) (level0 df)).

(** Row [i] of [event_weighted_mean]:
    [mean.mul(count).div(total, axis=0).sum(axis=1)]. *)
Definition weighted_mean_row (df : EventPanel) (i : nat) : value :=
  nansum
    (map (fun a =>
            let mean := nanmean (group_row df a i) in
            let cnt := Qc_of_nat (count_notnull (group_row df a i)) in
            let mul := option_map (fun m => m * cnt)%Qc mean in
            option_map (fun x => x / Qc_of_nat (total_count df i))%Qc mul)
       (level0 df)).

(** [EventStudy.event_weighted_mean]: a series over the offsets. *)
Definition event_weighted_mean (df : EventPanel) : list (Z * value) :=
  map (fun ip => (snd ip, weighted_mean_row df (fst ip)))
    (combine (seq 0 (length (offsets df))) (offsets df)).

(** The formula of the specification, term by term: the sum over assets of
    (mean of the asset's values at the row times the count of its values),
    divided by the total count. *)
Definition spec_weighted_mean (df : EventPanel) (i : nat) : value :=
  (fold_right Qcplus 0%Qc
     (map (fun a =>
             match nanmean (group_row df a i) with
             | Some m => m * Qc_of_nat (count_notnull (group_row df a i))
             | None => 0
             end)%Qc
        (level0 df))
   / Qc_of_nat (total_count df i))%Qc.

(** Two assets: A with two events worth 1.0 at offset 0, B with one event
    worth 4.0. *)
Definition two_assets : EventPanel :=
  mkEventPanel [0]
    [(("A"%string, 3), [Some (Q2Qc_of_Z 1)]);
     (("A"%string, 7), [Some (Q2Qc_of_Z 1)]);
     (("B"%string, 4), [Some (Q2Qc_of_Z 4)])].

(** ** Bootstrapping ([EventStudy.bootstrap_wo_events]) *)

(** The global numpy generator: a tape of raw draws and a cursor.  Every
    outcome of numpy's generator is the run on some tape. *)
Record rng : Type := mkRng { tape : nat -> nat; cursor : nat }.

(** A computation that draws random numbers and may raise. *)
Definition M (A : Type) : Type := rng -> result (A * rng).

Definition mret {A} (a : A) : M A := fun r => Ok (a, r).

Definition mbind {A B} (c : M A) (k : A -> M B) : M B :=
  fun r => match c r with
           | Ok (a, r') => k a r'
           | Raise e => Raise e
           | Diverge => Diverge
           end.

Definition mraise {A} (e : exn) : M A := fun _ => Raise e.

Definition lift {A} (c : result A) : M A :=
  fun r => match c with
           | Ok a => Ok (a, r)
           | Raise e => Raise e
           | Diverge => Diverge
           end.

Declare Scope rand_scope.
Delimit Scope rand_scope with rand.
Notation "x <~ c ;; k" := (mbind c (fun x => k))
  (at level 61, c at next level, right associativity) : rand_scope.
Local Open Scope rand_scope.

(** One uniform draw from [range(n)], [n > 0]. *)
Definition randint (n : nat) : M nat :=
  fun r => Ok ((tape r (cursor r) mod n)%nat, mkRng (tape r) (S (cursor r))).

Fixpoint randints (n : nat) (size : nat) : M (list nat) :=
  match size with
  | O => mret []
  | S size' =>
      x <~ randint n ;; xs <~ randints n size' ;; mret (x :: xs)
  end.

Definition empty_choice_msg : string :=
  "'a' cannot be empty unless no samples are taken".
Definition negative_dim_msg : string :=
  "negative dimensions are not allowed".
Definition larger_sample_msg : string :=
  "Cannot take a larger sample than population when 'replace=False'".

(** [np.random.choice(np.arange(pop), size, replace=True)]; [np.arange] of a
    non-positive number is empty. *)
Definition choice (pop size : Z) : M (list nat) :=
  if (pop <=? 0) && negb (size =? 0) then
    mraise (ValueError empty_choice_msg)
  else if size <? 0 then mraise (ValueError negative_dim_msg)
  else randints (Z.to_nat pop) (Z.to_nat size).

(** [np.random.choice(np.arange(pop))]: a single draw. *)
Definition choice1 (pop : Z) : M nat :=
  if pop <=? 0 then mraise (ValueError empty_choice_msg)
  else randint (Z.to_nat pop).

Fixpoint remove_nth {A} (j : nat) (l : list A) : list A :=
  match j, l with
  | _, [] => []
  | O, _ :: tl => tl
  | S j', x :: tl => x :: remove_nth j' tl
  end.

(** [size] draws from [pool], each removed from the pool once drawn. *)
Fixpoint draw_distinct (size : nat) (pool : list nat) : M (list nat) :=
  match size with
  | O => mret []
  | S size' =>
      j <~ randint (length pool) ;;
      xs <~ draw_distinct size' (remove_nth j pool) ;;
      mret (nth j pool O :: xs)
  end.

(** [np.random.choice(np.arange(pop), size, replace=False)] *)
Definition choice_no_replace (pop size : nat) : M (list nat) :=
  if (pop =? 0)%nat && negb (size =? 0)%nat then
    mraise (ValueError empty_choice_msg)
  else if (pop <? size)%nat then mraise (ValueError larger_sample_msg)
  else draw_distinct size (seq 0 pop).

(** [df.iloc[p:p+block_size]] for [0 <= p] and a positive block size (the
    code raises before slicing otherwise). *)
Definition iloc_block (p : nat) (block_size : Z) (f : DataFrame) : DataFrame :=
  take_rows (filter (fun i => (i <? len f)%nat) (seq p (Z.to_nat block_size)))
    f.

(** [a.append(b, ignore_index=True)] on frames with the same columns: the
    rows of [b] after those of [a], renumbered. *)
Definition append_rows (a b : DataFrame) : DataFrame :=
  let cols :=
    map (fun c => (fst c, snd c ++ match get_column (fst c) (columns b) with
                                   | Some col => col
                                   | None => map (fun _ => None) (index b)
                                   end)) (columns a) in
  mkFrame (map Z.of_nat (seq 0 (len a + len b))) cols.

(** [pd.concat(frames, axis=0, ignore_index=True)] *)
Definition concat_rows (frames : list DataFrame) : result DataFrame :=
  match frames with
  | [] => Raise (ValueError no_objects_msg)
  | f :: tl =>
      Ok (fold_left append_rows tl
            (mkFrame (map Z.of_nat (seq 0 (len f))) (columns f)))
  end.

(** [df.count()]: the number of values in each column. *)
Definition count {A} (f : Frame (option A)) : list (label * nat) :=
  map (fun c => (fst c, count_notnull (snd c))) (columns f).

(** The count of one column; 0 for an absent one. *)
Definition count_of {A} (f : Frame (option A)) (c : label) : nat :=
  match get_column c (columns f) with
  | Some col => count_notnull col
  | None => O
  end.

(** [booted.count().lt(data.count()).any()] *)
Definition short_of (booted dat : DataFrame) : bool :=
  existsb (fun c => (count_of booted c <? count_of dat c)%nat) (names dat).

(** The [while] loop, bounded by [fuel]. *)
Fixpoint top_up (fuel : nat) (dat boot_from : DataFrame) (block_size : Z)
  (booted : DataFrame) : M DataFrame :=
  if short_of booted dat then
    match fuel with
    | O => fun _ => Diverge
    | S fuel' =>
        p <~ choice1 (Z.of_nat (len boot_from) - block_size) ;;
        top_up fuel' dat boot_from block_size
          (append_rows booted (iloc_block p block_size boot_from))
    end
  else mret booted.

(** One synthetic event column per asset:
    [pd.Series(index=np.random.choice(..., v, replace=False), data=1)]. *)
Fixpoint draw_events (n : nat) (n_events : list (label * nat))
  : M (list (label * list nat)) :=
  match n_events with
  | [] => mret []
  | (c, v) :: tl =>
      ps <~ choice_no_replace n v ;;
      rest <~ draw_events n tl ;;
      mret ((c, ps) :: rest)
  end.

Definition mem_nat (x : nat) (l : list nat) : bool := existsb (Nat.eqb x) l.

(** [pd.concat({c: series, ...}, axis=1)]: the rows are the positions drawn
    for some asset (sorted), a cell is 1 where the asset drew the row. *)
Definition concat_events (drawn : list (label * list nat))
  : result DataFrame :=
  match drawn with
  | [] => Raise (ValueError no_objects_msg)
  | _ =>
      let rows := sort_uniq Nat.leb Nat.eqb (flat_map snd drawn) in
      Ok (mkFrame (map Z.of_nat rows)
            (map (fun d =>
                    (fst d, map (fun r => if mem_nat r (snd d)
                                          then Some (Q2Qc_of_Z 1)
                                          else None) rows))
               drawn))
  end.

(** [int(np.ceil(a / b))] for a non-zero [b] *)
Definition ceil_div (a b : Z) : Z := - ((- a) / b).

(** The block size in use: the caller's, else
    [min(10, int(np.sqrt(len(self.data))))]. *)
Definition block_size_of (self : EventStudy) (block_size : option Z) : Z :=
  match block_size with
  | Some b => b
  | None => Z.min 10 (Z.sqrt (Z.of_nat (len (data self))))
  end.

(** The event-free pool:
    [data.where(~mark_event_windows(excl_ambig=False)).dropna(how="all")]. *)
Definition boot_from (self : EventStudy) : result DataFrame :=
  (w <- mark_event_windows self false ;;
   Ok (dropna_all (where_ (data self) (frame_not w))))%result.

(** [EventStudy.bootstrap_wo_events] *)
Definition bootstrap_wo_events (fuel : nat) (self : EventStudy)
  (block_size : option Z) : M EventStudy :=
  let block_size := block_size_of self block_size in
  if block_size =? 0 then mraise ZeroDivisionError
  else
    let n_blocks := ceil_div (Z.of_nat (len (data self))) block_size in
    boot_from <~ lift (boot_from self) ;;
    rnd_choice <~ choice (Z.of_nat (len boot_from) - block_size)
                    (n_blocks * 2) ;;
    booted <~ lift (concat_rows
                      (map (fun p => iloc_block p block_size boot_from)
                         rnd_choice)) ;;
    booted <~ top_up fuel (data self) boot_from block_size booted ;;
    let n_events := count (events self) in
    drawn <~ draw_events (len booted) n_events ;;
    events <~ lift (concat_events drawn) ;;
    lift (init (PFrame booted) (PFrame events)
            (window self) (event_date_index self)).

(** A tape for the examples. *)
Definition tape0 : rng := mkRng (fun n => n * 7 + 3)%nat 0.

(** ** Reading the mask

    [mark_column] is [mark_event_windows] on the event markers of one asset;
    the two are proved to agree below. *)
Definition mark_column (lb lf : nat) (excl_ambig : bool)
  (col : list (option bool)) : list bool :=
  let b := bfill_column lb col in
  let f := ffill_column lf col in
  let mask_confusing :=
    zip_with andb (zip_with andb (map unnan b) (map unnan f))
      (map (fun o => negb (is_some o)) col) in
  let res := map is_some (ffill_column lf (bfill_column lb col)) in
  if excl_ambig
  then zip_with (fun x (c : bool) => if c then false else x) res mask_confusing
  else res.

(** Row [i] is at most [lb] rows before an event of the column (or on it). *)
Definition reached_back (lb : nat) (col : list (option bool)) (i : nat)
  : Prop :=
  exists j, (i <= j <= i + lb)%nat /\ is_some (nth j col None) = true.

(** Row [i] is at most [lf] rows after an event of the column (or on it). *)
Definition reached_fwd (lf : nat) (col : list (option bool)) (i : nat)
  : Prop :=
  exists k, (k <= i <= k + lf)%nat /\ is_some (nth k col None) = true.

(** The event markers of asset [a] on the calendar. *)
Definition event_column (self : EventStudy) (a : label)
  : option (list (option bool)) :=
  get_column a (columns (events_reidx self)).

(** Asset [a] has an event at row [i] of the calendar. *)
Definition event_at (self : EventStudy) (a : label) (i : nat) : bool :=
  match event_column self a with
  | Some col => is_some (nth i col None)
  | None => false
  end.

(** The mask at asset [a], row [i]. *)
Definition mask_at (m : Frame bool) (a : label) (i : nat) : bool :=
  match get_column a (columns m) with
  | Some col => nth i col false
  | None => false
  end.

(** The number of rows the mask marks for asset [a]. *)
Definition marked (m : Frame bool) (a : label) : nat :=
  match get_column a (columns m) with
  | Some col => length (filter (fun b : bool => b) col)
  | None => O
  end.

(** Asset [a] has an event at timestamp [t]. *)
Definition has_event (self : EventStudy) (a : label) (t : timestamp) : bool :=
  is_some (at_label (events self) a t).

(** An alignment failure: an event on day 11 of a ten-day panel. *)
Definition misaligned_event : DataFrame :=
  mkFrame [11] [("X"%string, [Some (Q2Qc_of_Z 1)])].

(** A cell of the event markers: [True] or NaN. *)
Definition marker (o : option bool) : Prop := o = None \/ o = Some true.

(** The two limits handed to the fills. *)
Definition limit_back (self : EventStudy) : Z := - fst (window self).
Definition limit_fwd (self : EventStudy) : Z :=
  snd (window self) - event_date_index self.

(** The ten-day scenario with other windows. *)
Definition study10_start0 : EventStudy :=
  mkEventStudy panel10 event5 (0, 2) 0.
Definition study10_post : EventStudy :=
  mkEventStudy panel10 event5 (-2, 2) 1.

(** Events on days 3 and 6 of the ten-day panel: day 4 and day 5 are within
    two days after the first and within two days before the second. *)
Definition events36 : DataFrame :=
  mkFrame [3; 6] [("X"%string, [Some (Q2Qc_of_Z 1); Some (Q2Qc_of_Z 1)])].
Definition study36 : EventStudy := mkEventStudy panel10 events36 (-2, 2) 0.

(** The same event with another magnitude, over a panel of other values. *)
Definition panel10' : DataFrame :=
  mkFrame days10 [("X"%string, map (fun d => Some (Q2Qc_of_Z (d * d))) days10)].
Definition event5' : DataFrame :=
  mkFrame [5] [("X"%string, [Some (Q2Qc_of_Z 25)])].
Definition study10' : EventStudy := mkEventStudy panel10' event5' (-2, 2) 0.

(** ** Further readings of the engine *)

(** Some asset has a calendar row without an event. *)
Definition has_free_slot (self : EventStudy) : Prop :=
  exists a i, In a (assets self) /\ (i < len (data self))%nat /\
              event_at self a i = false.

(** Row [i] is at most [-start] rows before an event of asset [a]. *)
Definition before_event (self : EventStudy) (a : label) (i : nat) : Prop :=
  exists j, event_at self a j = true /\
            Z.of_nat i <= Z.of_nat j <= Z.of_nat i - fst (window self).

(** Row [i] is at most [end - event_date_index] rows after an event of
    asset [a]. *)
Definition after_event (self : EventStudy) (a : label) (i : nat) : Prop :=
  exists k, event_at self a k = true /\
            Z.of_nat k <= Z.of_nat i
            <= Z.of_nat k + (snd (window self) - event_date_index self).

(** The panel handed to the constructor, as a frame. *)
Definition data_frame (d : pandas_obj) : DataFrame :=
  match d with
  | PSeries s => to_frame (sname s) s
  | PFrame f => f
  end.

(** ** Reading the pivot

    The growth loop of [pivot] acts on each column of the anchor frame and
    of the offset frame; [dates_step] and [periods_step] are one pass of the
    loop on a column, [back] and [fwd] telling which of the two [if]s of the
    body are taken. *)
Definition dates_step (back fwd : bool) (D : list (option timestamp))
  : list (option timestamp) :=
  let D1 := if back then bfill_column 1 D else D in
  if fwd then ffill_column 1 D1 else D1.

Definition fill_from {A} (x y : option A) : option A :=
  match x with Some _ => x | None => y end.

Definition periods_step (back fwd : bool) (P : list (option Z))
  : list (option Z) :=
  let P1 :=
    if back
    then zip_with fill_from P
           (bfill_column 1 (map (option_map (fun p => p + -1)) P))
    else P in
  if fwd
  then zip_with fill_from P1
         (ffill_column 1 (map (option_map (fun p => p + 1)) P1))
  else P1.

(** The anchors and offsets of one asset agree with the calendar: a slot
    has both or neither, and a slot at row [i] anchored at the event of
    timestamp [d] carries the offset [i - j + event_date_index], [j] being a
    row of [d]. *)
Definition anchored (self : EventStudy) (a : label)
  (D : list (option timestamp)) (P : list (option Z)) : Prop :=
  length D = length P /\
  forall i,
    match nth i D None, nth i P None with
    | Some d, Some p =>
        exists j, (j < len (data self))%nat /\
                  nth j (index (data self)) 0 = d /\
                  has_event self a d = true /\
                  p = Z.of_nat i - Z.of_nat j + event_date_index self
    | None, None => True
    | _, _ => False
    end.

(** The anchor and offset columns of an asset when the loop starts. *)
Definition dates0 (self : EventStudy) (a : label) : list (option timestamp) :=
  map (fun t => if has_event self a t then Some t else None)
    (index (data self)).

Definition periods0 (self : EventStudy) (a : label) : list (option Z) :=
  map (fun t => if has_event self a t then Some (event_date_index self)
                else None)
    (index (data self)).

(** A list in which every missing cell takes the cell before it. *)
Fixpoint shift_fill {A} (prev : option A) (l : list (option A))
  : list (option A) :=
  match l with
  | [] => []
  | x :: tl => fill_from x prev :: shift_fill x tl
  end.

(** A frame over the calendar and the assets of the engine, given by the
    column of each asset. *)
Definition tab {C} (self : EventStudy) (X : label -> list C) : Frame C :=
  mkFrame (index (data self))
    (map (fun c => (fst c, X (fst c))) (columns (data self))).

(** [x.where(b)] on one cell. *)
Definition keep_if {A} (x : option A) (b : bool) : option A :=
  if b then x else None.

(** The table of the ten-day scenario. *)
Definition table10 : EventPanel :=
  mkEventPanel [-2; -1; 0; 1; 2]
    [(("X"%string, 5), map (fun v => Some (Q2Qc_of_Z v)) [3; 4; 5; 6; 7])].

(** The cells of row [i] of an event-relative table, over all columns. *)
Definition row_cells (df : EventPanel) (i : nat) : list (option value) :=
  map (fun c => nth i (snd c) None) (pcolumns df).

(** Offsets 0 and 1 of the two-asset table; no event has a value at
    offset 1. *)
Definition two_assets_gap : EventPanel :=
  mkEventPanel [0; 1]
    [(("A"%string, 3), [Some (Q2Qc_of_Z 1); None]);
     (("A"%string, 7), [Some (Q2Qc_of_Z 1); None]);
     (("B"%string, 4), [Some (Q2Qc_of_Z 4); None])].

(** The rows of a frame are numbered from 0, as after
    [ignore_index=True]. *)
Definition range_indexed {C} (f : Frame C) : Prop :=
  index f = map Z.of_nat (seq 0 (len f)).

(** Every value of [f] is a value of the same column of [pool]. *)
Definition drawn_from (pool f : DataFrame) : Prop :=
  forall a col v,
    get_column a (columns f) = Some col -> In (Some v) col ->
    exists pcol, get_column a (columns pool) = Some pcol /\ In (Some v) pcol.

(** A panel whose every row lies in the window of the event of day 5: the
    event-free pool keeps no value of it. *)
Definition panel5 : DataFrame :=
  mkFrame [3; 4; 5; 6; 7]
    [("X"%string, map (fun d => Some (Q2Qc_of_Z d)) [3; 4; 5; 6; 7])].
Definition study5 : EventStudy := mkEventStudy panel5 event5 (-2, 2) 0.

(** The ten-day panel without any event. *)
Definition no_event : DataFrame := mkFrame [] [("X"%string, [])].
Definition study_quiet : EventStudy :=
  mkEventStudy panel10 no_event (-2, 2) 0.

(** * Properties *)

(** ** Pivoting the ten-day scenario *)

Example study10_init :
  init (PFrame panel10) (PFrame event5) (-2, 2) 0 = Ok study10.
Proof. reflexivity. Qed.

Example study10_mask :
  mark_event_windows study10 true =
  Ok (mkFrame days10
        [("X"%string, [false; false; true; true; true; true; true;
                       false; false; false])]).
Proof. reflexivity. Qed.

(** C1.  Ten daily values 1..10 of asset X, one event on day 5, window
    (-2, 2), [event_date_index = 0]: [pivot] returns the table whose rows are
    the offsets -2..2 and whose only column, keyed (X, day 5), holds 3, 4, 5,
    6, 7. *)
Theorem pivot_ten_days :
  pivot study10 =
  Ok (mkEventPanel [-2; -1; 0; 1; 2]
        [(("X"%string, 5),
          map (fun v => Some (Q2Qc_of_Z v)) [3; 4; 5; 6; 7])]).
Proof. vm_compute. reflexivity. Qed.

(** ** The event-weighted mean *)

Lemma nansum_weighted (T : value) (g : label -> option value)
  (cnt : label -> value) (l : list label) :
  nansum (map (fun a => option_map (fun x => x / T)%Qc
                          (option_map (fun m => m * cnt a)%Qc (g a))) l)
  = (fold_right Qcplus 0%Qc
       (map (fun a => match g a with
                      | Some m => m * cnt a
                      | None => 0
                      end)%Qc l) / T)%Qc.
Proof.
  unfold value in *.
  induction l as [|a l IH]; simpl.
  - unfold Qcdiv. ring.
  - destruct (g a) as [m|]; simpl; rewrite IH; unfold Qcdiv; ring.
Qed.

Lemma weighted_mean_row_spec (df : EventPanel) (i : nat) :
  weighted_mean_row df i = spec_weighted_mean df i.
Proof.
  unfold weighted_mean_row, spec_weighted_mean.
  apply (nansum_weighted (Qc_of_nat (total_count df i))
           (fun a => nanmean (group_row df a i))
           (fun a => Qc_of_nat (count_notnull (group_row df a i)))).
Qed.

Lemma nth_error_combine_seq {A} (l : list A) (s i : nat) (x : A) :
  nth_error l i = Some x ->
  nth_error (combine (seq s (length l)) l) i = Some ((s + i)%nat, x).
Proof.
  revert s i. induction l as [|y l IH]; intros s [|i] H; simpl in *;
    try discriminate.
  - inversion H. now rewrite Nat.add_0_r.
  - rewrite (IH (S s) i H). f_equal. f_equal. lia.
Qed.

(** C4.  At every offset with at least one value, [event_weighted_mean] is
    the sum over assets of (the asset's mean at the offset times the number
    of its values there) divided by the total number of values there; on
    asset A with two events worth 1.0 and asset B with one event worth 4.0
    it is 2.0 at offset 0. *)
Theorem event_weighted_mean_formula :
  (forall (df : EventPanel) (i : nat) (t : Z),
      nth_error (offsets df) i = Some t ->
      (0 < total_count df i)%nat ->
      nth_error (event_weighted_mean df) i
      = Some (t, spec_weighted_mean df i))
  /\ event_weighted_mean two_assets = [(0, Q2Qc_of_Z 2)].
Proof.
  split.
  - intros df i t Ht _. unfold event_weighted_mean.
    rewrite nth_error_map.
    rewrite (nth_error_combine_seq (offsets df) 0 i t Ht). simpl.
    now rewrite weighted_mean_row_spec.
  - change (event_weighted_mean two_assets)
      with [(0, weighted_mean_row two_assets 0)].
    do 2 f_equal. apply Qc_is_canon. reflexivity.
Qed.

Lemma event_weighted_mean_formula_witness :
  nth_error (offsets two_assets) 0 = Some 0 /\
  (0 < total_count two_assets 0)%nat /\
  nth_error (event_weighted_mean two_assets) 0
  = Some (0, spec_weighted_mean two_assets 0).
Proof.
  split; [reflexivity|]. split; [vm_compute; lia|].
  apply (proj1 event_weighted_mean_formula two_assets 0%nat 0);
    [reflexivity | vm_compute; lia].
Defined.

(** ** Construction *)

Lemma mem_ts_In (t : timestamp) (l : list timestamp) :
  mem_ts t l = true <-> In t l.
Proof.
  unfold mem_ts. rewrite existsb_exists. split.
  - intros [x [Hx Heq]]. apply Z.eqb_eq in Heq. now subst.
  - intros H. exists t. split; [assumption | apply Z.eqb_refl].
Qed.

Lemma index_union_longer (left right : list timestamp) :
  (length left <? length (index_union left right))%nat = true <->
  exists t, In t right /\ ~ In t left.
Proof.
  unfold index_union. rewrite length_app, Nat.ltb_lt.
  set (new := filter (fun t => negb (mem_ts t left)) right).
  assert (Hnew : forall t, In t new <-> In t right /\ ~ In t left).
  { intros t. unfold new. rewrite filter_In, negb_true_iff.
    pose proof (mem_ts_In t left) as Hm.
    destruct (mem_ts t left); split; intros [H1 H2]; split; auto.
    - discriminate.
    - exfalso. apply H2, Hm. reflexivity.
    - intros Hin. apply Hm in Hin. discriminate. }
  split.
  - intros Hlen. destruct (nodup Z.eq_dec new) as [|t l] eqn:E.
    + simpl in Hlen. lia.
    + exists t. apply Hnew. apply (nodup_In Z.eq_dec). rewrite E. now left.
  - intros [t Ht]. apply Hnew in Ht. apply (nodup_In Z.eq_dec) in Ht.
    destruct (nodup Z.eq_dec new); [contradiction | simpl; lia].
Qed.

(** C6.  On a panel and an event set whose row indexes have no repeated
    timestamp, construction raises the alignment error exactly when some
    event timestamp is absent from the calendar of the panel. *)
Theorem init_alignment_error (data events : pandas_obj) (w : Z * Z)
  (edi : Z) :
  NoDup (obj_index data) ->
  NoDup (obj_index events) ->
  (init data events w edi = Raise (ValueError misaligned_msg) <->
   exists t, In t (event_timestamps events) /\ ~ In t (obj_index data)).
Proof.
  intros _ _. rewrite <- index_union_longer. unfold init, obj_len.
  destruct (length (obj_index data) <?
            length (index_union (obj_index data) (event_timestamps events)))%nat.
  - tauto.
  - split; [|discriminate]. intros H. exfalso.
    destruct data as [d|d], events as [e|e]; cbn [rbind] in H;
      try (destruct (align_inner _ _); discriminate).
    unfold broadcast_series in H.
    destruct (names d); cbn [rbind] in H;
      [discriminate | destruct (align_inner _ _); discriminate].
Qed.

Lemma init_alignment_error_witness :
  init (PFrame panel10) (PFrame misaligned_event) (-2, 2) 0
  = Raise (ValueError misaligned_msg).
Proof.
  apply (init_alignment_error (PFrame panel10) (PFrame misaligned_event)).
  - simpl. repeat constructor; simpl; intuition discriminate.
  - simpl. repeat constructor; simpl; intuition discriminate.
  - exists 11. split; [now left|].
    simpl. intuition discriminate.
Defined.

(** ** Neighbour fills *)

Lemma pad_length {A} (lim : nat) (l : list (option A)) :
  forall last cnt, length (pad lim last cnt l) = length l.
Proof.
  induction l as [|[v|] l IH]; intros last cnt; simpl; auto.
  destruct (cnt <? lim)%nat; simpl; auto.
Qed.

(** A row is filled by [pad] exactly when a value lies at most [lim] rows
    before it, or the value carried into the scan is still within reach. *)
Lemma pad_is_some {A} (lim : nat) (l : list (option A)) :
  forall last cnt i,
    (i < length l)%nat ->
    (is_some (nth i (pad lim last cnt l) None) = true <->
     (exists k, (k <= i <= k + lim)%nat /\ is_some (nth k l None) = true) \/
     (is_some last = true /\ (cnt + i < lim)%nat)).
Proof.
  induction l as [|[v|] l IH]; intros last cnt i Hi; simpl in Hi; [lia| |].
  - destruct i as [|i]; simpl.
    + split; [|reflexivity]. intros _. left. exists O. simpl. split; [lia|auto].
    + rewrite (IH (Some v) O i) by lia. split.
      * intros [[k [Hk Hv]]|[_ Hc]].
        -- left. exists (S k). split; [lia|exact Hv].
        -- left. exists O. split; [lia|reflexivity].
      * intros [[[|k] [Hk Hv]]|[_ Hc]].
        -- right. split; [reflexivity|lia].
        -- left. exists k. split; [lia|exact Hv].
        -- right. split; [reflexivity|lia].
  - simpl. destruct (cnt <? lim)%nat eqn:E.
    + apply Nat.ltb_lt in E. destruct i as [|i]; simpl.
      * split.
        -- intros H. right. split; [exact H|lia].
        -- intros [[[|k] [Hk Hv]]|[H _]]; [discriminate|lia|exact H].
      * rewrite (IH last (S cnt) i) by lia. split.
        -- intros [[k [Hk Hv]]|[H Hc]].
           ++ left. exists (S k). split; [lia|exact Hv].
           ++ right. split; [exact H|lia].
        -- intros [[[|k] [Hk Hv]]|[H Hc]].
           ++ discriminate.
           ++ left. exists k. split; [lia|exact Hv].
           ++ right. split; [exact H|lia].
    + apply Nat.ltb_ge in E. destruct i as [|i]; simpl.
      * split; [discriminate|].
        intros [[[|k] [Hk Hv]]|[_ Hc]]; [discriminate|lia|lia].
      * rewrite (IH last cnt i) by lia. split.
        -- intros [[k [Hk Hv]]|[H Hc]]; [|lia].
           left. exists (S k). split; [lia|exact Hv].
        -- intros [[[|k] [Hk Hv]]|[H Hc]]; [discriminate| |lia].
           left. exists k. split; [lia|exact Hv].
Qed.

Lemma is_some_nth_lt {A} (l : list (option A)) (i : nat) :
  is_some (nth i l None) = true -> (i < length l)%nat.
Proof.
  intros H. destruct (Nat.lt_ge_cases i (length l)) as [Hlt|Hge]; [exact Hlt|].
  rewrite nth_overflow in H by exact Hge. discriminate.
Qed.

Lemma ffill_column_is_some (lf : nat) (col : list (option bool)) (i : nat) :
  (i < length col)%nat ->
  (is_some (nth i (ffill_column lf col) None) = true <->
   reached_fwd lf col i).
Proof.
  intros Hi. unfold ffill_column, reached_fwd.
  rewrite (pad_is_some lf col None O i Hi). split.
  - intros [H|[H _]]; [exact H|discriminate].
  - intros H. now left.
Qed.

Lemma bfill_column_length {A} (lb : nat) (col : list (option A)) :
  length (bfill_column lb col) = length col.
Proof. unfold bfill_column. now rewrite length_rev, pad_length, length_rev. Qed.

Lemma ffill_column_length {A} (lf : nat) (col : list (option A)) :
  length (ffill_column lf col) = length col.
Proof. unfold ffill_column. apply pad_length. Qed.

Lemma bfill_column_is_some (lb : nat) (col : list (option bool)) (i : nat) :
  (i < length col)%nat ->
  (is_some (nth i (bfill_column lb col) None) = true <->
   reached_back lb col i).
Proof.
  intros Hi. unfold bfill_column, reached_back.
  rewrite rev_nth by (rewrite pad_length, length_rev; exact Hi).
  rewrite pad_length, length_rev.
  rewrite (pad_is_some lb (rev col) None O) by (rewrite length_rev; lia).
  split.
  - intros [[k [Hk Hv]]|[H _]]; [|discriminate].
    pose proof (is_some_nth_lt _ _ Hv) as Hlt. rewrite length_rev in Hlt.
    rewrite rev_nth in Hv by exact Hlt.
    exists (length col - S k)%nat. split; [lia|exact Hv].
  - intros [j [Hj Hv]]. left.
    pose proof (is_some_nth_lt _ _ Hv) as Hlt.
    exists (length col - S j)%nat. split; [lia|].
    rewrite rev_nth by lia.
    replace (length col - S (length col - S j))%nat with j by lia. exact Hv.
Qed.

(** ** The mask, column by column *)

Lemma marker_unnan (o : option bool) : marker o -> unnan o = is_some o.
Proof. intros [->| ->]; reflexivity. Qed.

Lemma pad_marker (lim : nat) (l : list (option bool)) :
  forall last cnt,
    marker last -> Forall marker l -> Forall marker (pad lim last cnt l).
Proof.
  induction l as [|o l IH]; intros last cnt Hlast Hl; simpl; [constructor|].
  inversion Hl as [|? ? Ho Hl']; subst.
  destruct o as [v|].
  - constructor; [exact Ho|]. apply IH; assumption.
  - destruct (cnt <? lim)%nat; constructor; auto; now left.
Qed.

Lemma ffill_column_marker (lf : nat) (col : list (option bool)) :
  Forall marker col -> Forall marker (ffill_column lf col).
Proof. intros H. apply pad_marker; [now left|exact H]. Qed.

Lemma bfill_column_marker (lb : nat) (col : list (option bool)) :
  Forall marker col -> Forall marker (bfill_column lb col).
Proof.
  intros H. unfold bfill_column. apply Forall_rev, pad_marker; [now left|].
  apply Forall_rev, H.
Qed.

Lemma marker_nth (col : list (option bool)) (i : nat) :
  Forall marker col -> marker (nth i col None).
Proof.
  intros H. destruct (Nat.lt_ge_cases i (length col)) as [Hlt|Hge].
  - rewrite Forall_forall in H. apply H, nth_In, Hlt.
  - rewrite nth_overflow by exact Hge. now left.
Qed.

Lemma nth_zip_with {C D E} (h : C -> D -> E) (l1 : list C) (l2 : list D)
  (d1 : C) (d2 : D) (d : E) :
  forall i, (i < length l1)%nat -> (i < length l2)%nat ->
            nth i (zip_with h l1 l2) d = h (nth i l1 d1) (nth i l2 d2).
Proof.
  revert l2. induction l1 as [|x l1 IH]; intros [|y l2] i H1 H2;
    simpl in *; try lia.
  destruct i as [|i]; [reflexivity|]. apply IH; lia.
Qed.

Lemma zip_with_length {C D E} (h : C -> D -> E) (l1 : list C) (l2 : list D) :
  length l1 = length l2 -> length (zip_with h l1 l2) = length l1.
Proof.
  intros H. unfold zip_with. rewrite length_map, length_combine. lia.
Qed.

Lemma nth_map_is_some {A} (l : list (option A)) (i : nat) :
  nth i (map is_some l) false = is_some (nth i l None).
Proof. exact (map_nth is_some l None i). Qed.

Lemma nth_map_unnan (l : list (option bool)) (i : nat) :
  nth i (map unnan l) false = unnan (nth i l None).
Proof. exact (map_nth unnan l None i). Qed.

Lemma mark_column_length (lb lf : nat) (excl : bool)
  (col : list (option bool)) :
  length (mark_column lb lf excl col) = length col.
Proof.
  unfold mark_column. destruct excl.
  - rewrite zip_with_length;
      rewrite ?length_map, ?ffill_column_length, ?bfill_column_length; auto.
    repeat (rewrite zip_with_length;
            rewrite ?length_map, ?ffill_column_length, ?bfill_column_length;
            auto).
  - now rewrite length_map, ffill_column_length, bfill_column_length.
Qed.

(** The raw mask: a row is marked when it is reached from an event by the
    backward fill or by the forward fill. *)
Lemma raw_mask_spec (lb lf : nat) (col : list (option bool)) (i : nat) :
  (i < length col)%nat ->
  (is_some (nth i (ffill_column lf (bfill_column lb col)) None) = true <->
   reached_back lb col i \/ reached_fwd lf col i).
Proof.
  intros Hi.
  rewrite ffill_column_is_some by (rewrite bfill_column_length; exact Hi).
  split.
  - intros [k [Hk Hv]].
    pose proof (is_some_nth_lt _ _ Hv) as Hlt.
    rewrite bfill_column_length in Hlt.
    apply bfill_column_is_some in Hv; [|exact Hlt].
    destruct Hv as [j [Hj Hv]].
    destruct (Nat.le_gt_cases i j).
    + left. exists j. split; [lia|exact Hv].
    + right. exists j. split; [lia|exact Hv].
  - intros [Hb|[k [Hk Hv]]].
    + exists i. split; [lia|]. now apply bfill_column_is_some.
    + exists k. split; [lia|].
      apply bfill_column_is_some; [lia|]. exists k. split; [lia|exact Hv].
Qed.

(** The mask of a column of event markers: a row is marked when a fill
    reaches it, unless ambiguity exclusion is on and both fills reach a row
    that is not an event. *)
Lemma mark_column_spec (lb lf : nat) (excl : bool)
  (col : list (option bool)) (i : nat) :
  Forall marker col ->
  (i < length col)%nat ->
  (nth i (mark_column lb lf excl col) false = true <->
   (reached_back lb col i \/ reached_fwd lf col i) /\
   (excl = true ->
    ~ (reached_back lb col i /\ reached_fwd lf col i /\
       nth i col None = None))).
Proof.
  intros Hm Hi. unfold mark_column. destruct excl.
  - rewrite (nth_zip_with _ _ _ false false);
      [| now rewrite length_map, ffill_column_length, bfill_column_length
       | repeat (rewrite zip_with_length;
                 rewrite ?length_map, ?ffill_column_length,
                   ?bfill_column_length; auto) ].
    rewrite (nth_zip_with _ _ _ false true);
      [| rewrite zip_with_length;
         rewrite ?length_map, ?ffill_column_length, ?bfill_column_length;
         auto
       | now rewrite length_map ].
    rewrite (nth_zip_with _ _ _ false false)
      by (rewrite length_map, ?ffill_column_length, ?bfill_column_length;
          exact Hi).
    rewrite nth_map_is_some, !nth_map_unnan.
    change true with (negb (is_some (@None bool))) at 1.
    rewrite (map_nth (fun o => negb (is_some o)) col None i).
    rewrite (marker_unnan _ (marker_nth _ i (bfill_column_marker lb _ Hm))).
    rewrite (marker_unnan _ (marker_nth _ i (ffill_column_marker lf _ Hm))).
    pose proof (raw_mask_spec lb lf col i Hi) as Hraw.
    pose proof (bfill_column_is_some lb col i Hi) as Hb.
    pose proof (ffill_column_is_some lf col i Hi) as Hf.
    destruct (is_some (nth i (bfill_column lb col) None));
      destruct (is_some (nth i (ffill_column lf col) None));
      destruct (nth i col None) as [v|] eqn:Hc; simpl;
      destruct (is_some (nth i (ffill_column lf (bfill_column lb col)) None));
      intuition (try discriminate; try congruence).
  - rewrite nth_map_is_some, (raw_mask_spec lb lf col i Hi).
    intuition discriminate.
Qed.

(** ** The mask of the engine *)

Lemma map_columns_compose {C D E} (F : list D -> list E) (G : list C -> list D)
  (f : Frame C) :
  map_columns F (map_columns G f) = map_columns (fun c => F (G c)) f.
Proof.
  unfold map_columns. simpl. f_equal. rewrite map_map. reflexivity.
Qed.

Lemma combine_map_same {X Y Z} (u : X -> Y) (v : X -> Z) (l : list X) :
  combine (map u l) (map v l) = map (fun x => (u x, v x)) l.
Proof. induction l; simpl; congruence. Qed.

Lemma zip_cells_map_columns {B C D E} (h : C -> D -> E)
  (F : list B -> list C) (G : list B -> list D) (f : Frame B) :
  zip_cells h (map_columns F f) (map_columns G f)
  = map_columns (fun c => zip_with h (F c) (G c)) f.
Proof.
  unfold zip_cells, map_columns. simpl. f_equal.
  rewrite combine_map_same, map_map. reflexivity.
Qed.

Lemma map_columns_id {C} (f : Frame C) : f = map_columns (fun c => c) f.
Proof.
  destruct f as [idx cols]. unfold map_columns. simpl. f_equal.
  induction cols as [|[c col] cols IH]; simpl; congruence.
Qed.

Lemma get_column_map_columns {C D} (F : list C -> list D) (a : label)
  (f : Frame C) :
  get_column a (columns (map_columns F f))
  = option_map F (get_column a (columns f)).
Proof.
  unfold map_columns. simpl.
  induction (columns f) as [|[c col] cols IH]; simpl; [reflexivity|].
  destruct (String.eqb a c); [reflexivity|exact IH].
Qed.

Lemma mark_event_windows_ok (self : EventStudy) (excl : bool) :
  1 <= limit_back self -> 1 <= limit_fwd self ->
  mark_event_windows self excl
  = Ok (map_columns
          (mark_column (Z.to_nat (limit_back self))
             (Z.to_nat (limit_fwd self)) excl)
          (events_reidx self)).
Proof.
  unfold limit_back, limit_fwd, mark_event_windows.
  destruct (window self) as [w_s w_e]. simpl fst. simpl snd. intros Hb Hf.
  unfold bfill, ffill, validate_limit.
  destruct (Z.ltb_spec (- w_s) 1) as [?|_]; [lia|].
  destruct (Z.ltb_spec (w_e - event_date_index self) 1) as [?|_]; [lia|].
  cbn [rbind]. f_equal.
  unfold notnull, fillna_False, isnull, frame_and, mask_with, map_cells.
  rewrite (map_columns_id (events_reidx self)) at 5.
  rewrite !map_columns_compose.
  destruct excl; [|reflexivity].
  rewrite !zip_cells_map_columns. reflexivity.
Qed.

Lemma mark_event_windows_raise (self : EventStudy) (excl : bool) :
  limit_back self < 1 \/ limit_fwd self < 1 ->
  mark_event_windows self excl = Raise (ValueError limit_msg).
Proof.
  unfold limit_back, limit_fwd, mark_event_windows.
  destruct (window self) as [w_s w_e]. simpl fst. simpl snd. intros H.
  unfold bfill, ffill, validate_limit.
  destruct (Z.ltb_spec (- w_s) 1) as [?|?]; [reflexivity|].
  destruct (Z.ltb_spec (w_e - event_date_index self) 1) as [?|?];
    [reflexivity|lia].
Qed.

Lemma mark_event_windows_limits (self : EventStudy) (excl : bool)
  (m : Frame bool) :
  mark_event_windows self excl = Ok m ->
  1 <= limit_back self /\ 1 <= limit_fwd self.
Proof.
  intros H.
  destruct (Z.lt_ge_cases (limit_back self) 1) as [Hb|Hb];
    [rewrite mark_event_windows_raise in H by (now left); discriminate|].
  destruct (Z.lt_ge_cases (limit_fwd self) 1) as [Hf|Hf];
    [rewrite mark_event_windows_raise in H by (now right); discriminate|].
  split; assumption.
Qed.

Lemma event_column_shape (self : EventStudy) (a : label)
  (col : list (option bool)) :
  event_column self a = Some col ->
  Forall marker col /\ length col = len (data self).
Proof.
  unfold event_column, events_reidx, replace_False_nan, notnull, map_cells.
  rewrite map_columns_compose, get_column_map_columns.
  unfold reindex_like. simpl.
  induction (columns (data self)) as [|[c x] cols IH]; simpl; [discriminate|].
  destruct (String.eqb a c); [|exact IH].
  simpl. intros H. inversion H; subst. split.
  - rewrite !Forall_map. apply Forall_forall. intros t _.
    destruct (is_some (at_label (events self) c t)); [now right|now left].
  - now rewrite !length_map.
Qed.

(** The mask at asset [a], row [i], in terms of the events of [a]. *)
Lemma mask_at_spec (self : EventStudy) (excl : bool) (m : Frame bool)
  (a : label) (col : list (option bool)) (i : nat) :
  mark_event_windows self excl = Ok m ->
  event_column self a = Some col ->
  (i < length col)%nat ->
  (mask_at m a i = true <->
   (reached_back (Z.to_nat (limit_back self)) col i \/
    reached_fwd (Z.to_nat (limit_fwd self)) col i) /\
   (excl = true ->
    ~ (reached_back (Z.to_nat (limit_back self)) col i /\
       reached_fwd (Z.to_nat (limit_fwd self)) col i /\
       nth i col None = None))).
Proof.
  intros Hm Hcol Hi.
  destruct (mark_event_windows_limits _ _ _ Hm) as [Hb Hf].
  rewrite (mark_event_windows_ok self excl Hb Hf) in Hm.
  inversion Hm; subst m. unfold mask_at.
  rewrite get_column_map_columns. unfold event_column in Hcol.
  rewrite Hcol. simpl.
  apply mark_column_spec; [|exact Hi].
  apply (event_column_shape self a col Hcol).
Qed.

(** ** Ambiguous slots, events, and the shape of the mask *)

Lemma event_at_column (self : EventStudy) (a : label) (i : nat) :
  event_at self a i = true ->
  exists col, event_column self a = Some col /\
              is_some (nth i col None) = true /\ (i < length col)%nat.
Proof.
  unfold event_at. destruct (event_column self a) as [col|]; [|discriminate].
  intros H. exists col. split; [reflexivity|]. split; [exact H|].
  now apply is_some_nth_lt.
Qed.

(** C2.  A slot that lies within [-start] periods before one event of the
    asset and within [end - event_date_index] periods after another, and is
    not itself an event, is false in the mask computed with ambiguity
    exclusion (and that mask is computed). *)
Theorem ambiguous_slot_excluded (self : EventStudy) (a : label)
  (i j k : nat) :
  event_at self a j = true ->
  event_at self a k = true ->
  event_at self a i = false ->
  (i < j)%nat -> Z.of_nat j - Z.of_nat i <= - fst (window self) ->
  (k < i)%nat ->
  Z.of_nat i - Z.of_nat k <= snd (window self) - event_date_index self ->
  exists m, mark_event_windows self true = Ok m /\ mask_at m a i = false.
Proof.
  intros Hj Hk Hi Hij Hdj Hki Hdk.
  fold (limit_back self) in Hdj. fold (limit_fwd self) in Hdk.
  assert (Hb : 1 <= limit_back self) by lia.
  assert (Hf : 1 <= limit_fwd self) by lia.
  pose proof (mark_event_windows_ok self true Hb Hf) as Hm.
  eexists. split; [exact Hm|].
  destruct (event_at_column _ _ _ Hj) as [col [Hcol [Hvj Hlj]]].
  unfold event_at in Hk, Hi. rewrite Hcol in Hk, Hi.
  apply not_true_is_false. intros Hmask.
  apply (mask_at_spec self true _ a col i Hm Hcol) in Hmask; [|lia].
  destruct Hmask as [_ Hex]. apply Hex; [reflexivity|].
  split; [|split].
  - exists j. split; [lia|exact Hvj].
  - exists k. split; [lia|exact Hk].
  - destruct (nth i col None); [discriminate|reflexivity].
Qed.

Lemma ambiguous_slot_excluded_witness :
  exists m, mark_event_windows study36 true = Ok m /\
            mask_at m "X"%string 3 = false.
Proof.
  apply (ambiguous_slot_excluded study36 "X"%string 3 5 2);
    try reflexivity; simpl; lia.
Defined.

(** C9.  For a window with [start <= 0 <= end - event_date_index] and either
    setting of the ambiguity flag, every mask that [mark_event_windows]
    returns is true at every slot that is an event of the asset; with strict
    inequalities a mask is returned. *)
Theorem events_stay_marked (self : EventStudy) (excl : bool) :
  fst (window self) <= 0 <= snd (window self) - event_date_index self ->
  (forall m a i,
      mark_event_windows self excl = Ok m ->
      event_at self a i = true -> mask_at m a i = true) /\
  (fst (window self) < 0 ->
   0 < snd (window self) - event_date_index self ->
   exists m, mark_event_windows self excl = Ok m).
Proof.
  intros _. split.
  - intros m a i Hm Hev.
    destruct (event_at_column _ _ _ Hev) as [col [Hcol [Hv Hl]]].
    apply (mask_at_spec self excl m a col i Hm Hcol Hl). split.
    + left. exists i. split; [lia|exact Hv].
    + intros _ [_ [_ Hnone]]. rewrite Hnone in Hv. discriminate.
  - intros Hs He. eexists. apply mark_event_windows_ok.
    + unfold limit_back. lia.
    + unfold limit_fwd. lia.
Qed.

Lemma events_stay_marked_witness :
  (forall m a i,
      mark_event_windows study36 true = Ok m ->
      event_at study36 a i = true -> mask_at m a i = true) /\
  (fst (window study36) < 0 ->
   0 < snd (window study36) - event_date_index study36 ->
   exists m, mark_event_windows study36 true = Ok m).
Proof.
  apply (events_stay_marked study36 true). simpl. lia.
Defined.

Lemma events_reidx_shape (self : EventStudy) :
  index (events_reidx self) = index (data self) /\
  names (events_reidx self) = names (data self) /\
  Forall (fun c => length (snd c) = len (data self))
    (columns (events_reidx self)).
Proof.
  unfold events_reidx, replace_False_nan, notnull, map_cells, map_columns,
    reindex_like, names. simpl. split; [reflexivity|]. split.
  - rewrite !map_map. reflexivity.
  - rewrite !Forall_map. apply Forall_forall. intros c _. simpl.
    now rewrite !length_map.
Qed.

(** C8 fails as stated: on the ten-day engine with window (0, 2) the
    backward fill is asked for a limit of 0 and [mark_event_windows] raises
    instead of returning a mask. *)
Lemma start_zero_raises :
  init (PFrame panel10) (PFrame event5) (0, 2) 0 = Ok study10_start0 /\
  mark_event_windows study10_start0 true = Raise (ValueError limit_msg) /\
  ~ (exists m, mark_event_windows study10_start0 true = Ok m).
Proof.
  split; [reflexivity|]. split; [reflexivity|].
  intros [m H]. discriminate.
Qed.

(** C8, amended.  For every window with [start < 0 < end -
    event_date_index] and either flag, [mark_event_windows] returns a
    boolean mask with the index, the columns and the column length of the
    panel. *)
Theorem mark_event_windows_returns_mask (self : EventStudy) (excl : bool) :
  fst (window self) < 0 ->
  0 < snd (window self) - event_date_index self ->
  exists m,
    mark_event_windows self excl = Ok m /\
    index m = index (data self) /\
    names m = names (data self) /\
    Forall (fun c => length (snd c) = len (data self)) (columns m).
Proof.
  intros Hs He. eexists. split.
  - apply mark_event_windows_ok; [unfold limit_back|unfold limit_fwd]; lia.
  - destruct (events_reidx_shape self) as [Hi [Hn Hc]].
    unfold names, map_columns. simpl. split; [exact Hi|]. split.
    + rewrite map_map. exact Hn.
    + rewrite Forall_map. revert Hc. apply Forall_impl. intros c Hlen.
      simpl. now rewrite mark_column_length.
Qed.

Lemma mark_event_windows_returns_mask_witness :
  exists m,
    mark_event_windows study10 true = Ok m /\
    index m = index (data study10) /\
    names m = names (data study10) /\
    Forall (fun c => length (snd c) = len (data study10)) (columns m).
Proof.
  apply (mark_event_windows_returns_mask study10 true); simpl; lia.
Defined.

(** ** The mask depends on positions only *)

(** The event markers are a function of the calendar, the asset names and
    the asset-timestamp pairs that carry an event. *)
Lemma events_reidx_has_event (self : EventStudy) :
  events_reidx self
  = mkFrame (index (data self))
      (map (fun a =>
              (a, map (fun t => if has_event self a t then Some true else None)
                    (index (data self))))
         (assets self)).
Proof.
  unfold events_reidx, replace_False_nan, notnull, map_cells, map_columns,
    reindex_like, assets, names, has_event. simpl. f_equal.
  rewrite !map_map. apply map_ext. intros c. simpl. f_equal.
  rewrite !map_map. reflexivity.
Qed.

(** C10.  Two engines with the same calendar, the same assets, the same
    window and [event_date_index], and events at the same asset-timestamp
    pairs get the same result from [mark_event_windows], whatever the values
    of their panels and the magnitudes of their events. *)
Theorem mask_depends_on_positions_only (e1 e2 : EventStudy) (excl : bool) :
  index (data e1) = index (data e2) ->
  assets e1 = assets e2 ->
  window e1 = window e2 ->
  event_date_index e1 = event_date_index e2 ->
  (forall a t, In a (assets e1) -> In t (index (data e1)) ->
               has_event e1 a t = has_event e2 a t) ->
  mark_event_windows e1 excl = mark_event_windows e2 excl.
Proof.
  intros Hidx Hassets Hw Hedi Hev.
  assert (Hre : events_reidx e1 = events_reidx e2).
  { rewrite !events_reidx_has_event, <- Hidx, <- Hassets. f_equal.
    apply map_ext_in. intros a Ha. f_equal.
    apply map_ext_in. intros t Ht. now rewrite (Hev a t Ha Ht). }
  unfold mark_event_windows. now rewrite Hw, Hedi, Hre.
Qed.

Lemma mask_depends_on_positions_only_witness :
  mark_event_windows study10 true = mark_event_windows study10' true.
Proof.
  apply (mask_depends_on_positions_only study10 study10' true);
    try reflexivity.
  intros a t Ha Ht. simpl in Ha. destruct Ha as [<-|[]].
  simpl in Ht.
  repeat (destruct Ht as [<-|Ht]; [reflexivity|]). destruct Ht.
Defined.

(** ** The window of a single event *)

Lemma count_interval (lo hi : nat) :
  forall n s,
    length (filter (fun i => (lo <=? i)%nat && (i <=? hi)%nat) (seq s n))
    = (Nat.min (S hi) (s + n) - Nat.max lo s)%nat.
Proof.
  induction n as [|n IH]; intros s; cbn [seq filter length].
  - lia.
  - destruct (Nat.leb_spec lo s); destruct (Nat.leb_spec s hi);
      cbn [andb length]; rewrite (IH (S s)); lia.
Qed.

Lemma count_true_nth (f : nat -> bool) :
  forall (l : list bool) (s : nat),
    (forall i, (i < length l)%nat -> nth i l false = f (s + i)%nat) ->
    length (filter (fun b : bool => b) l)
    = length (filter f (seq s (length l))).
Proof.
  induction l as [|b l IH]; intros s H; [reflexivity|].
  pose proof (H O (Nat.lt_0_succ _)) as H0. simpl in H0.
  rewrite Nat.add_0_r in H0.
  assert (IH' : length (filter (fun b : bool => b) l)
                = length (filter f (seq (S s) (length l)))).
  { apply IH. intros i Hi. specialize (H (S i)). simpl in H.
    rewrite H by lia. f_equal. lia. }
  cbn [length seq filter]. rewrite <- H0.
  destruct b; cbn [length]; now rewrite IH'.
Qed.

Lemma bool_eq_iff (b1 b2 : bool) : (b1 = true <-> b2 = true) -> b1 = b2.
Proof. destruct b1, b2; intuition congruence. Qed.

(** The mask of a column with a single event at row [p]: the rows from
    [p - lb] to [p + lf], with or without ambiguity exclusion. *)
Lemma mark_column_single (lb lf : nat) (excl : bool)
  (col : list (option bool)) (p i : nat) :
  Forall marker col ->
  (forall k, is_some (nth k col None) = true <-> k = p) ->
  (i < length col)%nat ->
  nth i (mark_column lb lf excl col) false
  = ((p - lb <=? i)%nat && (i <=? p + lf)%nat).
Proof.
  intros Hm Hone Hi. apply bool_eq_iff.
  rewrite (mark_column_spec lb lf excl col i Hm Hi).
  rewrite andb_true_iff, Nat.leb_le, Nat.leb_le.
  unfold reached_back, reached_fwd. split.
  - intros [[[j [Hj Hv]]|[k [Hk Hv]]] _]; apply Hone in Hv; subst; lia.
  - intros [Hlo Hhi]. split.
    + destruct (Nat.le_gt_cases i p).
      * left. exists p. split; [lia|now apply Hone].
      * right. exists p. split; [lia|now apply Hone].
    + intros _ [[j [Hj Hvj]] [[k [Hk Hvk]] Hnone]].
      apply Hone in Hvj, Hvk. subst j k.
      assert (i = p) by lia. subst i.
      assert (Hp : is_some (nth p col None) = true) by now apply Hone.
      rewrite Hnone in Hp. discriminate.
Qed.

(** C3 fails as stated: with [event_date_index = 1] the single event of the
    ten-day engine, whose window (-2, 2) lies well inside the calendar, gets
    4 marked rows, not [e - s + 1 = 5]; and with window (0, 2) no mask is
    returned at all. *)
Lemma post_event_window_is_shorter :
  (exists m, mark_event_windows study10_post true = Ok m /\
             marked m "X"%string = 4%nat /\
             Z.of_nat (marked m "X"%string)
             <> snd (window study10_post) - fst (window study10_post) + 1) /\
  mark_event_windows study10_start0 true = Raise (ValueError limit_msg).
Proof.
  split; [|reflexivity].
  eexists. split; [reflexivity|]. split; [reflexivity|].
  vm_compute. discriminate.
Qed.

(** C3, amended.  For a window with [start < 0 < end - event_date_index]
    and an asset with a single event, at row [p]: [mark_event_windows]
    returns the same column for the asset with and without ambiguity
    exclusion; it is true exactly at the rows of the calendar from
    [p + start] to [p + end - event_date_index]; these are at most
    [end - event_date_index - start + 1] rows, and exactly that many when
    the window is not cut by either end of the calendar. *)
Theorem single_event_window (self : EventStudy) (a : label)
  (col : list (option bool)) (p : nat) :
  fst (window self) < 0 ->
  0 < snd (window self) - event_date_index self ->
  event_column self a = Some col ->
  (forall k, is_some (nth k col None) = true <-> k = p) ->
  exists m_excl m_raw,
    mark_event_windows self true = Ok m_excl /\
    mark_event_windows self false = Ok m_raw /\
    get_column a (columns m_excl) = get_column a (columns m_raw) /\
    (forall i, (i < length col)%nat ->
               (mask_at m_excl a i = true <->
                Z.of_nat p + fst (window self) <= Z.of_nat i
                <= Z.of_nat p + (snd (window self) - event_date_index self)))
    /\
    Z.of_nat (marked m_excl a)
    <= snd (window self) - event_date_index self - fst (window self) + 1 /\
    (0 <= Z.of_nat p + fst (window self) ->
     Z.of_nat p + (snd (window self) - event_date_index self)
     < Z.of_nat (length col) ->
     Z.of_nat (marked m_excl a)
     = snd (window self) - event_date_index self - fst (window self) + 1).
Proof.
  intros Hs He Hcol Hone.
  assert (Hb : 1 <= limit_back self) by (unfold limit_back; lia).
  assert (Hf : 1 <= limit_fwd self) by (unfold limit_fwd; lia).
  destruct (event_column_shape self a col Hcol) as [Hm _].
  set (lb := Z.to_nat (limit_back self)).
  set (lf := Z.to_nat (limit_fwd self)).
  assert (Hcell : forall excl i,
             (i < length col)%nat ->
             nth i (mark_column lb lf excl col) false
             = ((p - lb <=? i)%nat && (i <=? p + lf)%nat)).
  { intros excl i Hi. now apply mark_column_single. }
  exists (map_columns (mark_column lb lf true) (events_reidx self)),
    (map_columns (mark_column lb lf false) (events_reidx self)).
  split; [now apply mark_event_windows_ok|].
  split; [now apply mark_event_windows_ok|].
  unfold mask_at, marked. rewrite !get_column_map_columns.
  unfold event_column in Hcol. rewrite Hcol. cbn [option_map].
  assert (Hcount :
            length (filter (fun b : bool => b) (mark_column lb lf true col))
            = (Nat.min (S (p + lf)) (length col) - (p - lb))%nat).
  { rewrite (count_true_nth
               (fun i => (p - lb <=? i)%nat && (i <=? p + lf)%nat) _ O).
    - rewrite mark_column_length, count_interval. lia.
    - intros i Hi. rewrite mark_column_length in Hi. now apply Hcell. }
  split; [|split; [|split]].
  - f_equal. apply (nth_ext _ _ false false).
    + now rewrite !mark_column_length.
    + intros i Hi. rewrite mark_column_length in Hi.
      now rewrite !Hcell.
  - intros i Hi. rewrite (Hcell true i Hi).
    rewrite andb_true_iff, Nat.leb_le, Nat.leb_le.
    unfold lb, lf, limit_back, limit_fwd. lia.
  - rewrite Hcount. unfold lb, lf, limit_back, limit_fwd. lia.
  - intros Hlo Hhi. rewrite Hcount.
    unfold lb, lf, limit_back, limit_fwd. lia.
Qed.

Lemma single_event_window_witness :
  exists m_excl m_raw,
    mark_event_windows study10_post true = Ok m_excl /\
    mark_event_windows study10_post false = Ok m_raw /\
    get_column "X"%string (columns m_excl)
    = get_column "X"%string (columns m_raw) /\
    (forall i, (i < 10)%nat ->
               (mask_at m_excl "X"%string i = true <->
                4 + -2 <= Z.of_nat i <= 4 + (2 - 1)))
    /\
    Z.of_nat (marked m_excl "X"%string) <= 2 - 1 - -2 + 1 /\
    (0 <= 4 + -2 -> 4 + (2 - 1) < 10 ->
     Z.of_nat (marked m_excl "X"%string) = 2 - 1 - -2 + 1).
Proof.
  apply (single_event_window study10_post "X"%string
           [None; None; None; None; Some true; None; None; None; None; None]
           4%nat).
  - simpl. lia.
  - simpl. lia.
  - reflexivity.
  - intros k. split.
    + do 10 (destruct k as [|k]; try discriminate; try reflexivity).
      simpl. destruct k; discriminate.
    + intros ->. reflexivity.
Defined.

(** ** Bootstrapping *)

Lemma mbind_ok {A B} (c : M A) (k : A -> M B) (r r' : rng) (b : B) :
  mbind c k r = Ok (b, r') ->
  exists a r1, c r = Ok (a, r1) /\ k a r1 = Ok (b, r').
Proof.
  unfold mbind. destruct (c r) as [[a r1]| |]; try discriminate.
  intros H. now exists a, r1.
Qed.

Lemma lift_ok {A} (c : result A) (r r' : rng) (a : A) :
  lift c r = Ok (a, r') -> c = Ok a /\ r' = r.
Proof.
  unfold lift. destruct c; try discriminate.
  intros H. inversion H. auto.
Qed.

Lemma randints_zero (n : nat) : randints n 0 = mret [].
Proof. reflexivity. Qed.

(** C7.  When the block size in use is at least the length of the
    event-free pool, [bootstrap_wo_events] raises, whatever the fuel of the
    loop and the random draws: a [ValueError], or the division error when
    the block size is 0.  It neither diverges nor returns an engine. *)
Theorem bootstrap_block_too_large (fuel : nat) (self : EventStudy)
  (block_size : option Z) (pool : DataFrame) (r : rng) :
  boot_from self = Ok pool ->
  Z.of_nat (len pool) <= block_size_of self block_size ->
  exists e,
    bootstrap_wo_events fuel self block_size r = Raise e /\
    (block_size_of self block_size <> 0 -> is_ValueError e = true) /\
    (block_size_of self block_size = 0 -> e = ZeroDivisionError).
Proof.
  intros Hpool Hle. unfold bootstrap_wo_events.
  destruct (Z.eqb_spec (block_size_of self block_size) 0) as [H0|H0].
  - exists ZeroDivisionError. split; [reflexivity|]. split; [lia|reflexivity].
  - rewrite Hpool. unfold mbind at 1. unfold lift at 1.
    unfold mbind at 1. unfold choice.
    destruct (Z.leb_spec (Z.of_nat (len pool) - block_size_of self block_size)
                0) as [_|?]; [|lia].
    set (size := ceil_div (Z.of_nat (len (data self)))
                   (block_size_of self block_size) * 2).
    destruct (Z.eqb_spec size 0) as [Hs|Hs]; cbn [negb andb].
    + rewrite Hs. cbn [Z.ltb Z.compare Z.to_nat]. rewrite randints_zero.
      cbn [mret map concat_rows]. 
      exists (ValueError no_objects_msg).
      split; [reflexivity|]. split; [reflexivity|contradiction].
    + exists (ValueError empty_choice_msg).
      split; [reflexivity|]. split; [reflexivity|contradiction].
Qed.

Lemma bootstrap_block_too_large_witness :
  exists e,
    bootstrap_wo_events 5 study10 (Some 5) tape0 = Raise e /\
    (block_size_of study10 (Some 5) <> 0 -> is_ValueError e = true) /\
    (block_size_of study10 (Some 5) = 0 -> e = ZeroDivisionError).
Proof.
  apply (bootstrap_block_too_large 5 study10 (Some 5)
           (dropna_all (where_ (data study10)
                          (frame_not
                             (mkFrame days10
                                [("X"%string,
                                  [false; false; true; true; true; true; true;
                                   false; false; false])]))))).
  - reflexivity.
  - vm_compute. discriminate.
Defined.

(** *** Sorted distinct rows *)

Lemma insert_uniq_nat_In (x y : nat) (l : list nat) :
  In y (insert_uniq Nat.leb Nat.eqb x l) <-> y = x \/ In y l.
Proof.
  induction l as [|z l IH]; simpl; [intuition|].
  destruct (Nat.eqb_spec x z) as [->|Hne]; [simpl; intuition|].
  destruct (x <=? z)%nat; simpl; [intuition|].
  rewrite IH. intuition.
Qed.

Lemma insert_uniq_nat_sorted (x : nat) (l : list nat) :
  StronglySorted lt l -> StronglySorted lt (insert_uniq Nat.leb Nat.eqb x l).
Proof.
  induction l as [|z l IH]; intros Hs; simpl.
  - repeat constructor.
  - destruct (Nat.eqb_spec x z) as [->|Hne]; [exact Hs|].
    inversion Hs as [|? ? Hs' Hall]; subst.
    destruct (Nat.leb_spec x z) as [Hle|Hgt].
    + constructor; [exact Hs|]. constructor; [lia|].
      revert Hall. apply Forall_impl. intros; lia.
    + constructor; [apply IH, Hs'|].
      apply Forall_forall. intros y Hy. apply insert_uniq_nat_In in Hy.
      destruct Hy as [->|Hy]; [lia|].
      rewrite Forall_forall in Hall. now apply Hall.
Qed.

Lemma sort_uniq_nat_In (y : nat) (l : list nat) :
  In y (sort_uniq Nat.leb Nat.eqb l) <-> In y l.
Proof.
  induction l as [|x l IH]; simpl; [tauto|].
  rewrite insert_uniq_nat_In, IH. intuition.
Qed.

Lemma sort_uniq_nat_NoDup (l : list nat) :
  NoDup (sort_uniq Nat.leb Nat.eqb l).
Proof.
  assert (Hs : StronglySorted lt (sort_uniq Nat.leb Nat.eqb l)).
  { induction l as [|x l IH]; simpl; [constructor|].
    now apply insert_uniq_nat_sorted. }
  induction Hs as [|x tl _ IH Hall]; constructor; [|exact IH].
  intros Hin. rewrite Forall_forall in Hall. specialize (Hall x Hin). lia.
Qed.

(** *** Draws without replacement *)

Lemma remove_nth_incl {A} (j : nat) (l : list A) : incl (remove_nth j l) l.
Proof.
  revert j. induction l as [|x l IH]; intros [|j]; simpl;
    try apply incl_refl.
  - apply incl_tl, incl_refl.
  - apply incl_cons; [now left|]. apply incl_tl, IH.
Qed.

Lemma remove_nth_length {A} (j : nat) (l : list A) :
  (j < length l)%nat -> length (remove_nth j l) = (length l - 1)%nat.
Proof.
  revert j. induction l as [|x l IH]; intros [|j] H; simpl in *; try lia.
  rewrite IH by lia. lia.
Qed.

Lemma remove_nth_NoDup {A} (d : A) (j : nat) (l : list A) :
  NoDup l -> (j < length l)%nat ->
  NoDup (remove_nth j l) /\ ~ In (nth j l d) (remove_nth j l).
Proof.
  revert j. induction l as [|x l IH]; intros j Hnd Hj; simpl in Hj; [lia|].
  inversion Hnd as [|? ? Hx Hl]; subst.
  destruct j as [|j]; simpl.
  - split; assumption.
  - destruct (IH j Hl) as [Hnd' Hnot]; [lia|]. split.
    + constructor; [|exact Hnd'].
      intros Hin. apply Hx. now apply (remove_nth_incl j l).
    + intros [Heq|Hin]; [|now apply Hnot].
      apply Hx. rewrite Heq. apply nth_In. lia.
Qed.

Lemma randint_ok (n : nat) (r r' : rng) (x : nat) :
  randint n r = Ok (x, r') -> (0 < n)%nat -> (x < n)%nat.
Proof.
  unfold randint. intros H Hn. inversion H.
  apply Nat.mod_upper_bound. lia.
Qed.

Lemma draw_distinct_ok (size : nat) :
  forall pool r xs r',
    NoDup pool -> (size <= length pool)%nat ->
    draw_distinct size pool r = Ok (xs, r') ->
    NoDup xs /\ length xs = size /\ incl xs pool.
Proof.
  induction size as [|size IH]; intros pool r xs r' Hnd Hlen H; simpl in H.
  - inversion H. split; [constructor|]. split; [reflexivity|].
    intros x [].
  - apply mbind_ok in H. destruct H as [j [r1 [Hj H]]].
    apply mbind_ok in H. destruct H as [ys [r2 [Hys H]]].
    inversion H; subst.
    apply randint_ok in Hj; [|lia].
    destruct (remove_nth_NoDup O j pool Hnd Hj) as [Hnd' Hnot].
    destruct (IH _ _ _ _ Hnd' ltac:(rewrite remove_nth_length; lia) Hys)
      as [Hy1 [Hy2 Hy3]].
    split; [|split].
    + constructor; [|exact Hy1]. intros Hin. now apply Hnot, Hy3.
    + simpl. now rewrite Hy2.
    + apply incl_cons; [now apply nth_In|].
      intros x Hx. now apply (remove_nth_incl j pool), Hy3.
Qed.

Lemma choice_no_replace_ok (pop size : nat) (r r' : rng) (ps : list nat) :
  choice_no_replace pop size r = Ok (ps, r') ->
  NoDup ps /\ length ps = size.
Proof.
  unfold choice_no_replace.
  destruct ((pop =? 0)%nat && negb (size =? 0)%nat); [discriminate|].
  destruct (Nat.ltb_spec pop size) as [Hlt|Hge]; [discriminate|].
  intros H. apply draw_distinct_ok in H.
  - tauto.
  - apply seq_NoDup.
  - now rewrite length_seq.
Qed.

(** The synthetic events: one column per original column, under the same
    name, with as many distinct rows as the column had events. *)
Lemma draw_events_ok (n : nat) (n_events : list (label * nat)) :
  forall r r' drawn,
    draw_events n n_events r = Ok (drawn, r') ->
    Forall2 (fun nv d => fst d = fst nv /\ NoDup (snd d) /\
                         length (snd d) = snd nv) n_events drawn.
Proof.
  induction n_events as [|[c v] tl IH]; intros r r' drawn H; simpl in H.
  - inversion H. constructor.
  - apply mbind_ok in H. destruct H as [ps [r1 [Hps H]]].
    apply mbind_ok in H. destruct H as [rest [r2 [Hrest H]]].
    inversion H; subst. constructor.
    + simpl. split; [reflexivity|]. now apply choice_no_replace_ok in Hps.
    + exact (IH _ _ _ Hrest).
Qed.

(** *** Columns through the resampling *)

Lemma names_take_rows {A} (ps : list nat) (f : Frame (option A)) :
  names (take_rows ps f) = names f.
Proof. unfold names, take_rows. simpl. now rewrite map_map. Qed.

Lemma names_zip_cells {C D E} (h : C -> D -> E) (f : Frame C) (g : Frame D) :
  length (columns f) = length (columns g) ->
  names (zip_cells h f g) = names f.
Proof.
  unfold names, zip_cells. simpl. rewrite map_map. simpl.
  generalize (columns g). induction (columns f) as [|c cols IH];
    intros [|d ds] H; simpl in *; try discriminate; [reflexivity|].
  f_equal. apply IH. lia.
Qed.

Lemma names_append_rows (a b : DataFrame) :
  names (append_rows a b) = names a.
Proof. unfold names, append_rows. simpl. now rewrite map_map. Qed.

Lemma names_fold_append (tl : list DataFrame) :
  forall f, names (fold_left append_rows tl f) = names f.
Proof.
  induction tl as [|g tl IH]; intros f; simpl; [reflexivity|].
  now rewrite IH, names_append_rows.
Qed.

Lemma names_boot_from (self : EventStudy) (pool : DataFrame) :
  boot_from self = Ok pool -> names pool = names (data self).
Proof.
  unfold boot_from.
  destruct (mark_event_windows self false) as [w| |] eqn:Hw;
    try discriminate.
  cbn [rbind]. intros H. inversion H; subst pool.
  unfold dropna_all. rewrite names_take_rows.
  destruct (mark_event_windows_limits _ _ _ Hw) as [Hb Hf].
  rewrite (mark_event_windows_ok self false Hb Hf) in Hw.
  inversion Hw; subst w.
  apply names_zip_cells.
  destruct (events_reidx_shape self) as [_ [Hn _]].
  unfold frame_not, map_cells, map_columns. simpl.
  rewrite !length_map.
  unfold names in Hn. apply (f_equal (@length label)) in Hn.
  now rewrite !length_map in Hn.
Qed.

Lemma names_concat_rows (frames : list DataFrame) (f booted : DataFrame) :
  concat_rows frames = Ok booted ->
  (forall g, In g frames -> names g = names f) ->
  names booted = names f.
Proof.
  destruct frames as [|g tl]; simpl; [discriminate|].
  intros H Hall. inversion H. rewrite names_fold_append.
  unfold names. simpl. apply (Hall g). now left.
Qed.

(** When the loop ends, no column of the resampled panel is short of the
    original, and the columns are those it started with. *)
Lemma top_up_ok (dat pool : DataFrame) (bs : Z) (fuel : nat) :
  forall booted0 r booted r',
    top_up fuel dat pool bs booted0 r = Ok (booted, r') ->
    short_of booted dat = false /\ names booted = names booted0.
Proof.
  induction fuel as [|fuel IH]; intros booted0 r booted r' H; simpl in H.
  - destruct (short_of booted0 dat) eqn:E; [discriminate|].
    inversion H; subst. auto.
  - destruct (short_of booted0 dat) eqn:E.
    + apply mbind_ok in H. destruct H as [p [r1 [_ H]]].
      apply IH in H. destruct H as [H1 H2]. split; [exact H1|].
      now rewrite H2, names_append_rows.
    + inversion H; subst. auto.
Qed.

Lemma mem_label_In (a : label) (l : list label) :
  mem_label a l = true <-> In a l.
Proof.
  unfold mem_label. rewrite existsb_exists. split.
  - intros [x [Hx Heq]]. apply String.eqb_eq in Heq. now subst.
  - intros H. exists a. split; [assumption | apply String.eqb_refl].
Qed.

Lemma short_of_false (booted dat : DataFrame) (a : label) :
  short_of booted dat = false -> In a (names dat) ->
  (count_of dat a <= count_of booted a)%nat.
Proof.
  unfold short_of. intros H Ha.
  destruct (Nat.le_gt_cases (count_of dat a) (count_of booted a)) as [?|Hgt];
    [assumption|].
  assert (existsb (fun c => (count_of booted c <? count_of dat c)%nat)
            (names dat) = true).
  { apply existsb_exists. exists a. split; [exact Ha|].
    now apply Nat.ltb_lt. }
  congruence.
Qed.

Lemma get_column_tabulate {C} (G : label -> list C) (a : label)
  (l : list label) :
  get_column a (map (fun c => (c, G c)) l)
  = if mem_label a l then Some (G a) else None.
Proof.
  induction l as [|c l IH]; simpl; [reflexivity|].
  destruct (String.eqb_spec a c) as [->|Hne]; [reflexivity|exact IH].
Qed.

(** Narrowing to the common columns keeps the count of a common column. *)
Lemma count_of_align_inner (ev dat : DataFrame) (a : label) :
  In a (names ev) -> In a (names dat) ->
  count_of (fst (align_inner ev dat)) a = count_of ev a /\
  count_of (snd (align_inner ev dat)) a = count_of dat a.
Proof.
  intros Hev Hdat. unfold align_inner, count_of. simpl.
  rewrite !get_column_tabulate.
  assert (Hmem : mem_label a
                   (filter (fun c => mem_label c (names dat)) (names ev))
                 = true).
  { apply mem_label_In, filter_In. split; [exact Hev|].
    now apply mem_label_In. }
  rewrite Hmem. split.
  - now destruct (get_column a (columns ev)).
  - now destruct (get_column a (columns dat)).
Qed.

Lemma count_notnull_filter {A} (g : nat -> bool) (v : A) (rows : list nat) :
  count_notnull (map (fun r => if g r then Some v else None) rows)
  = length (filter g rows).
Proof.
  induction rows as [|x rows IH]; simpl; [reflexivity|].
  destruct (g x); simpl; now rewrite IH.
Qed.

Lemma mem_nat_In (x : nat) (l : list nat) : mem_nat x l = true <-> In x l.
Proof.
  unfold mem_nat. rewrite existsb_exists. split.
  - intros [y [Hy Heq]]. apply Nat.eqb_eq in Heq. now subst.
  - intros H. exists x. split; [assumption | apply Nat.eqb_refl].
Qed.

Lemma count_drawn {A} (v : A) (rows ps : list nat) :
  NoDup rows -> NoDup ps -> incl ps rows ->
  count_notnull (map (fun r => if mem_nat r ps then Some v else None) rows)
  = length ps.
Proof.
  intros Hrows Hps Hincl. rewrite count_notnull_filter.
  apply Nat.le_antisymm.
  - apply NoDup_incl_length; [now apply NoDup_filter|].
    intros x Hx. apply filter_In in Hx. now apply mem_nat_In.
  - apply NoDup_incl_length; [exact Hps|].
    intros x Hx. apply filter_In. split; [now apply Hincl|].
    now apply mem_nat_In.
Qed.

Lemma get_column_In {C} (a : label) (cols : list (label * list C))
  (col : list C) :
  get_column a cols = Some col -> In (a, col) cols.
Proof.
  induction cols as [|[c x] cols IH]; simpl; [discriminate|].
  destruct (String.eqb_spec a c) as [->|Hne].
  - intros H. inversion H. now left.
  - intros H. right. now apply IH.
Qed.

(** The synthetic event frame has, under each name, as many events as the
    original column of that name. *)
Lemma count_of_concat_events (evs ev' : DataFrame)
  (drawn : list (label * list nat)) (a : label) :
  Forall2 (fun nv d => fst d = fst nv /\ NoDup (snd d) /\
                       length (snd d) = snd nv) (count evs) drawn ->
  concat_events drawn = Ok ev' ->
  count_of ev' a = count_of evs a /\ names ev' = names evs.
Proof.
  intros HF Hc. unfold concat_events in Hc.
  assert (Hev : ev' =
                mkFrame
                  (map Z.of_nat
                     (sort_uniq Nat.leb Nat.eqb (flat_map snd drawn)))
                  (map (fun d =>
                          (fst d,
                           map (fun r => if mem_nat r (snd d)
                                         then Some (Q2Qc_of_Z 1) else None)
                             (sort_uniq Nat.leb Nat.eqb
                                (flat_map snd drawn)))) drawn)).
  { destruct drawn; [discriminate|]. now inversion Hc. }
  clear Hc. subst ev'.
  set (rows := sort_uniq Nat.leb Nat.eqb (flat_map snd drawn)).
  assert (Hrows : forall d, In d drawn -> incl (snd d) rows).
  { intros d Hd x Hx. apply sort_uniq_nat_In, in_flat_map. now exists d. }
  assert (Hnodup : NoDup rows) by apply sort_uniq_nat_NoDup.
  clearbody rows. unfold count_of, names, count in *. simpl.
  revert HF Hrows. generalize (columns evs). clear evs.
  intros cols HF Hrows. split.
  - revert drawn HF Hrows.
    induction cols as [|[c col] cols IH]; intros drawn HF Hrows;
      inversion HF as [|? d ? drawn' [Hn [Hnd Hl]] HF']; subst; simpl in *;
      [reflexivity|].
    rewrite Hn. destruct (String.eqb a c).
    + rewrite <- Hl. apply count_drawn.
      * exact Hnodup.
      * exact Hnd.
      * apply Hrows. now left.
    + apply IH; [exact HF'|].
      intros d' Hd'. apply Hrows. now right.
  - revert drawn HF Hrows.
    induction cols as [|[c col] cols IH]; intros drawn HF Hrows;
      inversion HF as [|? d ? drawn' [Hn [Hnd Hl]] HF']; subst; simpl in *;
      [reflexivity|].
    rewrite Hn. f_equal. apply IH; [exact HF'|].
    intros d' Hd'. apply Hrows. now right.
Qed.

Lemma init_frames_ok (dat ev : DataFrame) (w : Z * Z) (edi : Z)
  (e' : EventStudy) :
  init (PFrame dat) (PFrame ev) w edi = Ok e' ->
  data e' = snd (align_inner ev dat) /\ events e' = fst (align_inner ev dat).
Proof.
  unfold init.
  destruct (obj_len (PFrame dat) <? _)%nat; [discriminate|].
  cbn [rbind fst snd].
  destruct (align_inner ev dat) as [ev1 dat1]. intros H.
  inversion H. auto.
Qed.

(** The engines built by the constructor carry the same columns in [data]
    and [events]. *)
Lemma init_names (d e : pandas_obj) (w : Z * Z) (edi : Z) (s : EventStudy) :
  init d e w edi = Ok s -> names (events s) = names (data s).
Proof.
  unfold init. destruct (obj_len d <? _)%nat; [discriminate|].
  destruct (match d, e with
            | PSeries d0, PSeries e0 =>
                Ok (to_frame (sname d0) d0, to_frame (sname d0) e0)
            | PSeries d0, PFrame e0 => Ok (to_frame (sname d0) d0, e0)
            | PFrame d0, PSeries e0 =>
                (e' <- broadcast_series e0 (names d0) ;; Ok (d0, e'))%result
            | PFrame d0, PFrame e0 => Ok (d0, e0)
            end) as [frames| |]; cbn [rbind]; try discriminate.
  unfold align_inner. intros H. inversion H. unfold names. simpl.
  now rewrite !map_map.
Qed.

(** C5.  Whenever [bootstrap_wo_events] returns an engine, every asset has
    at least as many values in the new panel as in the original panel, and
    exactly as many events in the new event set as in the original one. *)
Theorem bootstrap_counts (fuel : nat) (self : EventStudy)
  (block_size : option Z) (r r' : rng) (e' : EventStudy) :
  names (events self) = names (data self) ->
  bootstrap_wo_events fuel self block_size r = Ok (e', r') ->
  forall a, In a (assets self) ->
            (count_of (data self) a <= count_of (data e') a)%nat /\
            count_of (events e') a = count_of (events self) a.
Proof.
  intros Hnames H a Ha. unfold bootstrap_wo_events in H.
  destruct (block_size_of self block_size =? 0); [discriminate|].
  apply mbind_ok in H. destruct H as [pool [r1 [Hpool H]]].
  apply lift_ok in Hpool. destruct Hpool as [Hpool _].
  apply mbind_ok in H. destruct H as [rnd_choice [r2 [_ H]]].
  apply mbind_ok in H. destruct H as [booted0 [r3 [Hcat H]]].
  apply lift_ok in Hcat. destruct Hcat as [Hcat _].
  apply mbind_ok in H. destruct H as [booted [r4 [Htop H]]].
  apply mbind_ok in H. destruct H as [drawn [r5 [Hdraw H]]].
  apply mbind_ok in H. destruct H as [ev' [r6 [Hev H]]].
  apply lift_ok in Hev. destruct Hev as [Hev _].
  apply lift_ok in H. destruct H as [Hinit _].
  apply top_up_ok in Htop. destruct Htop as [Hshort Hnb].
  assert (Hbooted : names booted = names (data self)).
  { rewrite Hnb, (names_concat_rows _ pool _ Hcat).
    - now apply names_boot_from.
    - intros g Hg. apply in_map_iff in Hg. destruct Hg as [p [<- _]].
      unfold iloc_block. apply names_take_rows. }
  apply draw_events_ok in Hdraw.
  destruct (count_of_concat_events (events self) ev' drawn a Hdraw Hev)
    as [Hcnt Hn'].
  apply init_frames_ok in Hinit. destruct Hinit as [Hd He].
  unfold assets in Ha.
  destruct (count_of_align_inner ev' booted a) as [Hc1 Hc2].
  - now rewrite Hn', Hnames.
  - now rewrite Hbooted.
  - rewrite Hd, He, Hc1, Hc2. split; [|exact Hcnt].
    now apply short_of_false.
Qed.

Lemma bootstrap_counts_witness :
  exists e' r',
    bootstrap_wo_events 5 study10 (Some 2) tape0 = Ok (e', r') /\
    forall a, In a (assets study10) ->
              (count_of (data study10) a <= count_of (data e') a)%nat /\
              count_of (events e') a = count_of (events study10) a.
Proof.
  destruct (bootstrap_wo_events 5 study10 (Some 2) tape0)
    as [[e' r']| |] eqn:E;
    [| vm_compute in E; discriminate | vm_compute in E; discriminate].
  exists e', r'. split; [reflexivity|].
  apply (bootstrap_counts 5 study10 (Some 2) tape0 r' e');
    [reflexivity | exact E].
Defined.

(** * Further properties of the engine *)

(** ** The window marker *)

Lemma event_column_assets (self : EventStudy) (a : label) :
  In a (assets self) -> exists col, event_column self a = Some col.
Proof.
  intros Ha. unfold event_column. rewrite events_reidx_has_event. simpl.
  rewrite (get_column_tabulate
             (fun c => map (fun t => if has_event self c t
                                     then Some true else None)
                         (index (data self)))).
  apply mem_label_In in Ha. rewrite Ha. eauto.
Qed.

Lemma reached_back_before (self : EventStudy) (a : label)
  (col : list (option bool)) (i : nat) :
  event_column self a = Some col -> 1 <= limit_back self ->
  (reached_back (Z.to_nat (limit_back self)) col i <-> before_event self a i).
Proof.
  intros Hcol Hb. unfold reached_back, before_event, event_at.
  rewrite Hcol. unfold limit_back in *.
  split; intros [j [H1 H2]]; exists j; (split; [assumption || lia|]);
    assumption || lia.
Qed.

Lemma reached_fwd_after (self : EventStudy) (a : label)
  (col : list (option bool)) (i : nat) :
  event_column self a = Some col -> 1 <= limit_fwd self ->
  (reached_fwd (Z.to_nat (limit_fwd self)) col i <-> after_event self a i).
Proof.
  intros Hcol Hf. unfold reached_fwd, after_event, event_at.
  rewrite Hcol. unfold limit_fwd in *.
  split; intros [j [H1 H2]]; exists j; (split; [assumption || lia|]);
    assumption || lia.
Qed.

(** The mask at a slot of the panel, for either flag, in terms of the events
    of the asset. *)
Lemma mask_at_events (self : EventStudy) (excl : bool) (m : Frame bool)
  (a : label) (i : nat) :
  mark_event_windows self excl = Ok m ->
  In a (assets self) -> (i < len (data self))%nat ->
  (mask_at m a i = true <->
   (before_event self a i \/ after_event self a i) /\
   (excl = true ->
    ~ (before_event self a i /\ after_event self a i /\
       event_at self a i = false))).
Proof.
  intros Hm Ha Hi.
  destruct (event_column_assets self a Ha) as [col Hcol].
  destruct (event_column_shape self a col Hcol) as [_ Hlen].
  destruct (mark_event_windows_limits _ _ _ Hm) as [Hb Hf].
  rewrite (mask_at_spec self excl m a col i Hm Hcol) by lia.
  rewrite (reached_back_before self a col i Hcol Hb).
  rewrite (reached_fwd_after self a col i Hcol Hf).
  unfold event_at. rewrite Hcol.
  destruct (nth i col None); simpl; intuition congruence.
Qed.

(** Whether an event is within reach of a slot is decided by the fills. *)
Lemma windows_decidable (self : EventStudy) (excl : bool) (m : Frame bool)
  (a : label) (i : nat) :
  mark_event_windows self excl = Ok m ->
  In a (assets self) -> (i < len (data self))%nat ->
  (before_event self a i \/ ~ before_event self a i) /\
  (after_event self a i \/ ~ after_event self a i).
Proof.
  intros Hm Ha Hi.
  destruct (event_column_assets self a Ha) as [col Hcol].
  destruct (event_column_shape self a col Hcol) as [_ Hlen].
  destruct (mark_event_windows_limits _ _ _ Hm) as [Hb Hf].
  rewrite <- (reached_back_before self a col i Hcol Hb).
  rewrite <- (reached_fwd_after self a col i Hcol Hf).
  rewrite <- (bfill_column_is_some _ col i) by lia.
  rewrite <- (ffill_column_is_some _ col i) by lia.
  split.
  - destruct (is_some (nth i (bfill_column _ col) None)); auto.
  - destruct (is_some (nth i (ffill_column _ col) None)); auto.
Qed.

(** X1.  Without ambiguity exclusion a slot of the panel is marked exactly
    when the asset has an event at most [-start] rows after it or at most
    [end - event_date_index] rows before it. *)
Theorem raw_mask_is_union_of_windows (self : EventStudy) (m : Frame bool)
  (a : label) (i : nat) :
  mark_event_windows self false = Ok m ->
  In a (assets self) -> (i < len (data self))%nat ->
  (mask_at m a i = true <-> before_event self a i \/ after_event self a i).
Proof.
  intros Hm Ha Hi. rewrite (mask_at_events self false m a i Hm Ha Hi).
  intuition discriminate.
Qed.

Lemma raw_mask_is_union_of_windows_witness :
  mask_at (mkFrame days10
             [("X"%string, [false; false; true; true; true; true; true;
                            false; false; false])]) "X"%string 3 = true <->
  before_event study10 "X"%string 3 \/ after_event study10 "X"%string 3.
Proof.
  apply (raw_mask_is_union_of_windows study10); [reflexivity| |vm_compute; lia].
  simpl. now left.
Defined.

(** X2.  Ambiguity exclusion only removes slots, and the slots it removes
    are exactly those that are not events and lie both within [-start] rows
    before an event and within [end - event_date_index] rows after one. *)
Theorem exclusion_removes_ambiguous_only (self : EventStudy)
  (m_excl m_raw : Frame bool) (a : label) (i : nat) :
  mark_event_windows self true = Ok m_excl ->
  mark_event_windows self false = Ok m_raw ->
  In a (assets self) -> (i < len (data self))%nat ->
  (mask_at m_excl a i = true -> mask_at m_raw a i = true) /\
  (mask_at m_raw a i = true /\ mask_at m_excl a i = false <->
   before_event self a i /\ after_event self a i /\
   event_at self a i = false).
Proof.
  intros H1 H2 Ha Hi.
  pose proof (mask_at_events self true m_excl a i H1 Ha Hi) as He.
  pose proof (mask_at_events self false m_raw a i H2 Ha Hi) as Hr.
  destruct (windows_decidable self true m_excl a i H1 Ha Hi) as [Hdb Hdf].
  destruct (event_at self a i);
    destruct (mask_at m_excl a i), (mask_at m_raw a i);
    intuition (try discriminate; try congruence).
Qed.

Lemma exclusion_removes_ambiguous_only_witness :
  exists m_excl m_raw,
    mark_event_windows study36 true = Ok m_excl /\
    mark_event_windows study36 false = Ok m_raw /\
    (mask_at m_raw "X"%string 3 = true /\
     mask_at m_excl "X"%string 3 = false <->
     before_event study36 "X"%string 3 /\ after_event study36 "X"%string 3 /\
     event_at study36 "X"%string 3 = false).
Proof.
  eexists. eexists. split; [reflexivity|]. split; [reflexivity|].
  apply (exclusion_removes_ambiguous_only study36);
    [reflexivity | reflexivity | simpl; now left | vm_compute; lia].
Defined.

(** X3.  A window with [start >= 0] or [end - event_date_index <= 0] is
    rejected: on a panel with at least one slot that is not an event,
    [mark_event_windows] raises the limit error for either flag. *)
Theorem mark_event_windows_rejects_window (self : EventStudy) (excl : bool) :
  has_free_slot self ->
  0 <= fst (window self) \/ snd (window self) - event_date_index self <= 0 ->
  mark_event_windows self excl = Raise (ValueError limit_msg).
Proof.
  intros _ H. apply mark_event_windows_raise.
  unfold limit_back, limit_fwd. lia.
Qed.

Lemma mark_event_windows_rejects_window_witness :
  mark_event_windows study10_start0 false = Raise (ValueError limit_msg).
Proof.
  apply (mark_event_windows_rejects_window study10_start0 false).
  - exists "X"%string, O. split; [now left|]. split; [vm_compute; lia|reflexivity].
  - left. simpl. lia.
Defined.

(** ** The constructor *)

Lemma get_column_names {C} (a : label) (cols : list (label * list C)) :
  In a (map fst cols) -> exists col, get_column a cols = Some col.
Proof.
  induction cols as [|[c x] cols IH]; simpl; [tauto|].
  intros H. destruct (String.eqb_spec a c) as [->|Hne]; [eauto|].
  destruct H as [H|H]; [congruence|now apply IH].
Qed.

Lemma get_loc_nth (t : timestamp) (idx : list timestamp) (i : nat) :
  get_loc t idx = Some i -> nth i idx 0 = t /\ (i < length idx)%nat.
Proof.
  revert i. induction idx as [|x idx IH]; intros i; simpl; [discriminate|].
  destruct (Z.eqb_spec t x) as [->|Hne].
  - intros H. inversion H. simpl. split; [reflexivity|lia].
  - destruct (get_loc t idx) as [j|]; simpl; [|discriminate].
    intros H. inversion H. destruct (IH j eq_refl). simpl. split; [auto|lia].
Qed.

(** A timestamp at which some column has a value survives
    [dropna(how="all")]. *)
Lemma at_label_event_ts (f : DataFrame) (a : label) (t : timestamp) :
  is_some (at_label f a t) = true -> In t (index (dropna_all f)).
Proof.
  unfold at_label, cell_at.
  destruct (get_column a (columns f)) as [col|] eqn:Hc; [|discriminate].
  destruct (get_loc t (index f)) as [i|] eqn:Hl; [|discriminate].
  intros H. destruct (get_loc_nth _ _ _ Hl) as [Hn Hi].
  unfold dropna_all, take_rows, rows_with_value. simpl.
  apply in_map_iff. exists i. split; [exact Hn|].
  apply filter_In. split; [apply in_seq; unfold len; lia|].
  unfold row_has_value. apply existsb_exists.
  exists (a, col). split; [now apply get_column_In|exact H].
Qed.

Lemma at_label_series (n n' a : label) (s : Series) (t : timestamp) :
  is_some (at_label (to_frame n s) a t) = true ->
  is_some (at_label (to_frame n' s) n' t) = true.
Proof.
  unfold at_label, cell_at, to_frame. simpl.
  rewrite String.eqb_refl. now destruct (String.eqb a n).
Qed.

Lemma at_label_broadcast (keys : list label) (n' a : label) (s : Series)
  (t : timestamp) :
  is_some (at_label (mkFrame (sindex s) (map (fun k => (k, svalues s)) keys))
             a t) = true ->
  is_some (at_label (to_frame n' s) n' t) = true.
Proof.
  unfold at_label, cell_at, to_frame. simpl.
  rewrite String.eqb_refl.
  rewrite (get_column_tabulate (fun _ => svalues s)).
  now destruct (mem_label a keys).
Qed.

(** What a successful construction leaves in the engine. *)
Lemma init_frames (d e : pandas_obj) (w : Z * Z) (edi : Z) (s : EventStudy) :
  init d e w edi = Ok s ->
  exists ev,
    s = mkEventStudy (snd (align_inner ev (data_frame d)))
          (fst (align_inner ev (data_frame d))) w edi /\
    index ev = obj_index e /\
    (forall a t, is_some (at_label ev a t) = true ->
                 In t (event_timestamps e)) /\
    (forall t, In t (event_timestamps e) -> In t (obj_index d)).
Proof.
  unfold init.
  destruct (obj_len d <? _)%nat eqn:E; [discriminate|].
  assert (Hcal : forall t, In t (event_timestamps e) -> In t (obj_index d)).
  { intros t Ht. destruct (in_dec Z.eq_dec t (obj_index d)) as [?|Hn];
      [assumption|].
    assert (Hlong : (length (obj_index d) <?
                     length (index_union (obj_index d) (event_timestamps e)))%nat
                    = true)
      by (apply index_union_longer; eauto).
    unfold obj_len in E. congruence. }
  clear E. intros H.
  destruct d as [d|d], e as [e|e]; cbn [rbind fst snd] in H.
  - exists (to_frame (sname d) e).
    cbn [data_frame].
    destruct (align_inner _ _) as [ev1 dat1]. inversion H.
    cbn [fst snd index obj_index to_frame]. repeat split; auto.
    intros a t Ht. cbn [event_timestamps].
    eapply at_label_event_ts, at_label_series, Ht.
  - exists e.
    cbn [data_frame].
    destruct (align_inner _ _) as [ev1 dat1]. inversion H.
    cbn [fst snd index obj_index to_frame]. repeat split; auto.
    intros a t Ht. cbn [event_timestamps]. eapply at_label_event_ts, Ht.
  - unfold broadcast_series in H.
    destruct (names d) as [|k keys] eqn:Ek; cbn [rbind fst snd] in H;
      [discriminate|].
    exists (mkFrame (sindex e) (map (fun k => (k, svalues e)) (k :: keys))).
    cbn [data_frame].
    destruct (align_inner _ _) as [ev1 dat1]. inversion H.
    cbn [fst snd index obj_index]. repeat split; auto.
    intros a t Ht. cbn [event_timestamps].
    eapply at_label_event_ts, at_label_broadcast, Ht.
  - exists e.
    cbn [data_frame].
    destruct (align_inner _ _) as [ev1 dat1]. inversion H.
    cbn [fst snd index obj_index to_frame]. repeat split; auto.
    intros a t Ht. cbn [event_timestamps]. eapply at_label_event_ts, Ht.
Qed.

Lemma at_label_align_inner (ev dat : DataFrame) (a : label) (t : timestamp) :
  is_some (at_label (fst (align_inner ev dat)) a t) = true ->
  is_some (at_label ev a t) = true.
Proof.
  unfold align_inner, at_label, cell_at. simpl.
  rewrite get_column_tabulate.
  destruct (mem_label a _); [|discriminate].
  destruct (get_column a (columns ev)) as [col|]; [auto|].
  destruct (get_loc t (index ev)) as [i|]; [|discriminate].
  now destruct i.
Qed.

(** X4.  In an engine returned by the constructor every event lies on the
    calendar of the panel: no event is lost when the markers are put on the
    calendar. *)
Theorem init_events_on_calendar (d e : pandas_obj) (w : Z * Z) (edi : Z)
  (s : EventStudy) (a : label) (t : timestamp) :
  init d e w edi = Ok s ->
  has_event s a t = true ->
  In t (index (data s)).
Proof.
  intros Hinit Hev.
  destruct (init_frames d e w edi s Hinit) as [ev [Hs [_ [Hts Hcal]]]].
  subst s. unfold has_event in Hev. simpl in *.
  apply at_label_align_inner, Hts, Hcal in Hev.
  unfold align_inner. simpl. now destruct d.
Qed.

Lemma init_events_on_calendar_witness : In 5 (index (data study10)).
Proof.
  apply (init_events_on_calendar (PFrame panel10) (PFrame event5) (-2, 2) 0
           study10 "X"%string 5); reflexivity.
Defined.

(** X5.  The constructor only narrows columns: the engine has the same
    columns in [data] and [events], each of them a column of the panel it
    was given, with the cells it had there; the rows of both inputs, the
    window and [event_date_index] are kept. *)
Theorem init_narrows_columns (d e : pandas_obj) (w : Z * Z) (edi : Z)
  (s : EventStudy) :
  init d e w edi = Ok s ->
  names (events s) = names (data s) /\
  index (data s) = obj_index d /\
  index (events s) = obj_index e /\
  window s = w /\ event_date_index s = edi /\
  forall a, In a (assets s) ->
            In a (names (data_frame d)) /\
            get_column a (columns (data s))
            = get_column a (columns (data_frame d)).
Proof.
  intros Hinit.
  destruct (init_frames d e w edi s Hinit) as [ev [Hs [Hidx _]]].
  subst s. unfold assets, names, align_inner. simpl.
  set (common := filter (fun c => mem_label c (map fst (columns (data_frame d))))
                   (map fst (columns ev))).
  rewrite !map_map. simpl.
  split; [reflexivity|]. split; [now destruct d|].
  split; [exact Hidx|]. split; [reflexivity|]. split; [reflexivity|].
  intros a Ha. rewrite map_id in Ha.
  rewrite get_column_tabulate.
  pose proof Ha as Hmem. apply mem_label_In in Hmem. rewrite Hmem.
  apply filter_In in Ha. destruct Ha as [_ Ha].
  apply mem_label_In in Ha. split; [exact Ha|].
  destruct (get_column_names a (columns (data_frame d)) Ha) as [col ->].
  reflexivity.
Qed.

Lemma init_narrows_columns_witness :
  names (events study10) = names (data study10) /\
  index (data study10) = obj_index (PFrame panel10) /\
  index (events study10) = obj_index (PFrame event5) /\
  window study10 = (-2, 2) /\ event_date_index study10 = 0 /\
  forall a, In a (assets study10) ->
            In a (names (data_frame (PFrame panel10))) /\
            get_column a (columns (data study10))
            = get_column a (columns (data_frame (PFrame panel10))).
Proof.
  apply (init_narrows_columns (PFrame panel10) (PFrame event5)).
  reflexivity.
Defined.

Lemma names_tabulate {C} (idx : list timestamp) (G : label -> list C)
  (l : list label) :
  names (mkFrame idx (map (fun c => (c, G c)) l)) = l.
Proof. unfold names. simpl. rewrite map_map. simpl. apply map_id. Qed.

(** X6.  A series of events given with a multi-column panel is applied to
    every column: each asset of the panel is an asset of the engine and has
    an event exactly at the timestamps where the series has a value. *)
Theorem init_broadcasts_series (d : DataFrame) (e : Series) (w : Z * Z)
  (edi : Z) (s : EventStudy) :
  init (PFrame d) (PSeries e) w edi = Ok s ->
  forall a, In a (names d) ->
            In a (assets s) /\
            forall t, has_event s a t
                      = is_some (at_label (to_frame (sname e) e) (sname e) t).
Proof.
  intros Hinit a Ha. unfold init in Hinit.
  destruct (obj_len (PFrame d) <? _)%nat; [discriminate|].
  unfold broadcast_series in Hinit.
  destruct (names d) as [|k keys] eqn:Ek; cbn [rbind fst snd] in Hinit;
    [discriminate|].
  rewrite <- Ek in *. clear Ek k keys.
  unfold align_inner in Hinit. inversion Hinit as [Hs]. clear Hinit Hs s.
  unfold assets, has_event, at_label, cell_at, to_frame.
  cbn [data events index columns fst snd names].
  rewrite !names_tabulate.
  set (common := filter (fun c => mem_label c (names d)) (names d)).
  assert (Hmem : mem_label a common = true).
  { apply mem_label_In, filter_In. split; [exact Ha|].
    now apply mem_label_In. }
  split; [now apply mem_label_In|].
  intros t. rewrite get_column_tabulate, Hmem.
  rewrite (get_column_tabulate (fun _ => svalues e)).
  apply mem_label_In in Ha. rewrite Ha.
  cbn [get_column]. rewrite String.eqb_refl. reflexivity.
Qed.

Lemma init_broadcasts_series_witness :
  In "X"%string (assets study10) /\
  forall t, has_event study10 "X"%string t
            = is_some (at_label (to_frame "X"%string
                                   (mkSeries "X"%string [5]
                                      [Some (Q2Qc_of_Z 1)])) "X"%string t).
Proof.
  apply (init_broadcasts_series panel10
           (mkSeries "X"%string [5] [Some (Q2Qc_of_Z 1)]) (-2, 2) 0 study10).
  - reflexivity.
  - simpl. now left.
Defined.

(** ** Sorted distinct labels *)

Section SortUniqFacts.

Context {A : Type} (leb eqb : A -> A -> bool).
Hypothesis eqb_eq : forall x y, eqb x y = true <-> x = y.
Hypothesis leb_total : forall x y, leb x y = true \/ leb y x = true.
Hypothesis leb_trans :
  forall x y z, leb x y = true -> leb y z = true -> leb x z = true.
Hypothesis leb_antisym :
  forall x y, leb x y = true -> leb y x = true -> x = y.

Lemma insert_uniq_In (x y : A) (l : list A) :
  In y (insert_uniq leb eqb x l) <-> y = x \/ In y l.
Proof.
  induction l as [|z l IH]; simpl; [intuition|].
  destruct (eqb x z) eqn:E.
  - apply eqb_eq in E. subst. simpl. intuition.
  - destruct (leb x z); simpl; [intuition|]. rewrite IH. intuition.
Qed.

Lemma sort_uniq_In (y : A) (l : list A) :
  In y (sort_uniq leb eqb l) <-> In y l.
Proof.
  induction l as [|x l IH]; simpl; [tauto|].
  rewrite insert_uniq_In, IH. intuition.
Qed.

Lemma insert_uniq_sorted (x : A) (l : list A) :
  StronglySorted (fun u v => leb u v = true /\ u <> v) l ->
  StronglySorted (fun u v => leb u v = true /\ u <> v)
    (insert_uniq leb eqb x l).
Proof.
  induction l as [|z l IH]; intros Hs; simpl.
  - repeat constructor.
  - destruct (eqb x z) eqn:E; [exact Hs|].
    assert (Hne : x <> z).
    { intros ->. assert (eqb z z = true) by now apply eqb_eq. congruence. }
    inversion Hs as [|? ? Hs' Hall]; subst.
    destruct (leb x z) eqn:L.
    + constructor; [exact Hs|]. constructor; [now split|].
      revert Hall. apply Forall_impl. intros u [Hzu Hnzu]. split.
      * now apply (leb_trans x z u).
      * intros ->. apply Hne. now apply leb_antisym.
    + assert (Lzx : leb z x = true).
      { destruct (leb_total x z); [congruence|assumption]. }
      constructor; [apply IH, Hs'|].
      apply Forall_forall. intros y Hy. apply insert_uniq_In in Hy.
      destruct Hy as [->|Hy].
      * split; [exact Lzx|congruence].
      * rewrite Forall_forall in Hall. now apply Hall.
Qed.

Lemma sort_uniq_sorted (l : list A) :
  StronglySorted (fun u v => leb u v = true /\ u <> v) (sort_uniq leb eqb l).
Proof.
  induction l as [|x l IH]; simpl; [constructor|].
  now apply insert_uniq_sorted.
Qed.

Lemma sort_uniq_NoDup (l : list A) : NoDup (sort_uniq leb eqb l).
Proof.
  induction (sort_uniq_sorted l) as [|x tl _ IH Hall];
    constructor; [|exact IH].
  intros Hin. rewrite Forall_forall in Hall.
  destruct (Hall x Hin) as [_ Hne]. now apply Hne.
Qed.

End SortUniqFacts.

Lemma ascii_compare_refl (c : Ascii.ascii) : Ascii.compare c c = Eq.
Proof. unfold Ascii.compare. apply N.compare_refl. Qed.

Lemma ascii_compare_lt_trans (a b c : Ascii.ascii) :
  Ascii.compare a b = Lt -> Ascii.compare b c = Lt -> Ascii.compare a c = Lt.
Proof.
  unfold Ascii.compare. rewrite !N.compare_lt_iff. apply N.lt_trans.
Qed.

Lemma string_compare_refl (s : string) : String.compare s s = Eq.
Proof.
  induction s as [|c s IH]; simpl; [reflexivity|].
  now rewrite ascii_compare_refl.
Qed.

Lemma string_compare_lt_trans (s1 : string) :
  forall s2 s3,
    String.compare s1 s2 = Lt -> String.compare s2 s3 = Lt ->
    String.compare s1 s3 = Lt.
Proof.
  induction s1 as [|c1 s1 IH]; intros [|c2 s2] [|c3 s3]; simpl;
    try discriminate; auto.
  destruct (Ascii.compare c1 c2) eqn:E12; try discriminate;
    destruct (Ascii.compare c2 c3) eqn:E23; try discriminate; intros H1 H2.
  - apply Ascii.compare_eq_iff in E12, E23. subst.
    rewrite ascii_compare_refl. now apply (IH s2).
  - apply Ascii.compare_eq_iff in E12. subst. now rewrite E23.
  - apply Ascii.compare_eq_iff in E23. subst. now rewrite E12.
  - now rewrite (ascii_compare_lt_trans _ _ _ E12 E23).
Qed.

Lemma string_leb_trans (x y z : string) :
  String.leb x y = true -> String.leb y z = true -> String.leb x z = true.
Proof.
  unfold String.leb.
  destruct (String.compare x y) eqn:E1; try discriminate;
    destruct (String.compare y z) eqn:E2; try discriminate; intros _ _.
  - apply String.compare_eq_iff in E1, E2. subst.
    now rewrite string_compare_refl.
  - apply String.compare_eq_iff in E1. subst. now rewrite E2.
  - apply String.compare_eq_iff in E2. subst. now rewrite E1.
  - now rewrite (string_compare_lt_trans _ _ _ E1 E2).
Qed.

Lemma level0_NoDup (df : EventPanel) : NoDup (level0 df).
Proof.
  apply sort_uniq_NoDup.
  - apply String.eqb_eq.
  - apply String.leb_total.
  - apply string_leb_trans.
  - apply String.leb_antisym.
Qed.

Lemma level0_In (df : EventPanel) (a : label) :
  In a (level0 df) <-> In a (map (fun c => fst (fst c)) (pcolumns df)).
Proof. apply sort_uniq_In, String.eqb_eq. Qed.

Lemma key_eqb_eq (k1 k2 : key) : key_eqb k1 k2 = true <-> k1 = k2.
Proof.
  destruct k1 as [a1 t1], k2 as [a2 t2]. unfold key_eqb. cbn [fst snd].
  rewrite andb_true_iff, String.eqb_eq, Z.eqb_eq.
  split; [intros [-> ->]; reflexivity | intros H; inversion H; auto].
Qed.

Lemma key_leb_total (k1 k2 : key) :
  key_leb k1 k2 = true \/ key_leb k2 k1 = true.
Proof.
  destruct k1 as [a1 t1], k2 as [a2 t2]. unfold key_leb. cbn [fst snd].
  rewrite (String.compare_antisym a2 a1).
  destruct (String.compare a1 a2); cbn [CompOpp]; auto.
  rewrite !Z.leb_le. lia.
Qed.

Lemma key_leb_trans (k1 k2 k3 : key) :
  key_leb k1 k2 = true -> key_leb k2 k3 = true -> key_leb k1 k3 = true.
Proof.
  destruct k1 as [a1 t1], k2 as [a2 t2], k3 as [a3 t3].
  unfold key_leb. cbn [fst snd].
  destruct (String.compare a1 a2) eqn:E1; try discriminate;
    destruct (String.compare a2 a3) eqn:E2; try discriminate.
  - apply String.compare_eq_iff in E1, E2. subst.
    rewrite string_compare_refl, !Z.leb_le. lia.
  - apply String.compare_eq_iff in E1. subst. now rewrite E2.
  - apply String.compare_eq_iff in E2. subst. now rewrite E1.
  - now rewrite (string_compare_lt_trans _ _ _ E1 E2).
Qed.

Lemma key_leb_antisym (k1 k2 : key) :
  key_leb k1 k2 = true -> key_leb k2 k1 = true -> k1 = k2.
Proof.
  destruct k1 as [a1 t1], k2 as [a2 t2]. unfold key_leb. cbn [fst snd].
  rewrite (String.compare_antisym a2 a1).
  destruct (String.compare a1 a2) eqn:E; cbn [CompOpp]; try discriminate.
  apply String.compare_eq_iff in E. subst.
  rewrite !Z.leb_le. intros H1 H2. f_equal. lia.
Qed.

(** ** The pivot *)

Lemma rbind_ok {A B} (c : result A) (k : A -> result B) (b : B) :
  rbind c k = Ok b -> exists a, c = Ok a /\ k a = Ok b.
Proof. destruct c; simpl; try discriminate. eauto. Qed.

(** A fill with limit 1 takes the value of the neighbouring row. *)
Lemma pad_one_shift {A} (l : list (option A)) :
  forall last cnt,
    pad 1 last cnt l = shift_fill (if (cnt <? 1)%nat then last else None) l.
Proof.
  induction l as [|[v|] l IH]; intros last cnt; simpl; [reflexivity| |].
  - now rewrite IH.
  - destruct (cnt <? 1)%nat eqn:E; simpl; rewrite IH.
    + reflexivity.
    + now rewrite E.
Qed.

Lemma shift_fill_length {A} (l : list (option A)) :
  forall prev, length (shift_fill prev l) = length l.
Proof. induction l; intros prev; simpl; auto. Qed.

Lemma shift_fill_nth {A} (l : list (option A)) :
  forall prev i,
    (i < length l)%nat ->
    nth i (shift_fill prev l) None
    = fill_from (nth i l None)
        (match i with O => prev | S i' => nth i' l None end).
Proof.
  induction l as [|x l IH]; intros prev i Hi; simpl in Hi; [lia|].
  destruct i as [|i]; [reflexivity|].
  simpl. rewrite IH by lia. destruct i; reflexivity.
Qed.

Lemma ffill_one_nth {A} (l : list (option A)) (i : nat) :
  (i < length l)%nat ->
  nth i (ffill_column 1 l) None
  = fill_from (nth i l None)
      (match i with O => None | S i' => nth i' l None end).
Proof.
  intros Hi. unfold ffill_column. rewrite pad_one_shift. simpl.
  now apply shift_fill_nth.
Qed.

Lemma bfill_one_nth {A} (l : list (option A)) (i : nat) :
  (i < length l)%nat ->
  nth i (bfill_column 1 l) None = fill_from (nth i l None) (nth (S i) l None).
Proof.
  intros Hi. unfold bfill_column.
  rewrite rev_nth by (rewrite pad_length, length_rev; exact Hi).
  rewrite pad_length, length_rev.
  fold (ffill_column 1 (rev l)).
  rewrite ffill_one_nth by (rewrite length_rev; lia).
  rewrite rev_nth by lia.
  replace (length l - S (length l - S i))%nat with i by lia.
  destruct (length l - S i)%nat as [|k] eqn:E.
  - rewrite (nth_overflow l) with (n := S i) by lia. reflexivity.
  - rewrite rev_nth by lia.
    replace (length l - S k)%nat with (S i) by lia. reflexivity.
Qed.

Lemma zip_with_length_min {C D E} (h : C -> D -> E) (l1 : list C)
  (l2 : list D) :
  length (zip_with h l1 l2) = Nat.min (length l1) (length l2).
Proof. unfold zip_with. now rewrite length_map, length_combine. Qed.

Lemma nth_map_option {A B} (f : A -> B) (l : list (option A)) (i : nat) :
  nth i (map (option_map f) l) None = option_map f (nth i l None).
Proof. exact (map_nth (option_map f) l None i). Qed.

Section Anchors.

Variable self : EventStudy.
Variable a : label.

Lemma anchored_back (D : list (option timestamp)) (P : list (option Z)) :
  anchored self a D P ->
  anchored self a (dates_step true false D) (periods_step true false P).
Proof.
  intros [Hlen Hinv]. unfold dates_step, periods_step. split.
  - rewrite bfill_column_length, zip_with_length_min, bfill_column_length,
      length_map. lia.
  - intros i.
    destruct (Nat.lt_ge_cases i (length D)) as [Hi|Hi].
    + rewrite bfill_one_nth by exact Hi.
      rewrite (nth_zip_with _ _ _ None None)
        by (rewrite ?bfill_column_length, ?length_map; lia).
      rewrite bfill_one_nth by (rewrite length_map; lia).
      rewrite !nth_map_option.
      pose proof (Hinv i) as H0. pose proof (Hinv (S i)) as H1.
      destruct (nth i D None), (nth i P None); cbn [fill_from option_map]; try contradiction;
        [exact H0|].
      destruct (nth (S i) D None), (nth (S i) P None); cbn [fill_from option_map];
        try contradiction; [|exact I].
      destruct H1 as [j [Hj [Hd [He Hp]]]]. exists j.
      repeat split; auto; lia.
    + rewrite !nth_overflow;
        rewrite ?bfill_column_length, ?zip_with_length_min,
          ?bfill_column_length, ?length_map; try lia; exact I.
Qed.

Lemma anchored_fwd (D : list (option timestamp)) (P : list (option Z)) :
  anchored self a D P ->
  anchored self a (dates_step false true D) (periods_step false true P).
Proof.
  intros [Hlen Hinv]. unfold dates_step, periods_step. split.
  - rewrite ffill_column_length, zip_with_length_min, ffill_column_length,
      length_map. lia.
  - intros i.
    destruct (Nat.lt_ge_cases i (length D)) as [Hi|Hi].
    + rewrite ffill_one_nth by exact Hi.
      rewrite (nth_zip_with _ _ _ None None)
        by (rewrite ?ffill_column_length, ?length_map; lia).
      rewrite ffill_one_nth by (rewrite length_map; lia).
      rewrite nth_map_option.
      pose proof (Hinv i) as H0.
      destruct (nth i D None), (nth i P None); cbn [fill_from option_map]; try contradiction;
        [exact H0|].
      destruct i as [|i]; [exact I|].
      rewrite nth_map_option.
      pose proof (Hinv i) as H1.
      destruct (nth i D None), (nth i P None); cbn [fill_from option_map];
        try contradiction; [|exact I].
      destruct H1 as [j [Hj [Hd [He Hp]]]]. exists j.
      repeat split; auto; lia.
    + rewrite !nth_overflow;
        rewrite ?ffill_column_length, ?zip_with_length_min,
          ?ffill_column_length, ?length_map; try lia; exact I.
Qed.

Lemma anchored_step (back fwd : bool) (D : list (option timestamp))
  (P : list (option Z)) :
  anchored self a D P ->
  anchored self a (dates_step back fwd D) (periods_step back fwd P).
Proof.
  intros H. destruct back, fwd.
  - apply (anchored_fwd _ _ (anchored_back _ _ H)).
  - now apply anchored_back.
  - now apply anchored_fwd.
  - exact H.
Qed.

Lemma anchored_start : anchored self a (dates0 self a) (periods0 self a).
Proof.
  unfold dates0, periods0. split; [now rewrite !length_map|].
  intros i. destruct (Nat.lt_ge_cases i (len (data self))) as [Hi|Hi].
  - rewrite (nth_indep _ None (if has_event self a 0 then Some 0 else None))
      by (rewrite length_map; exact Hi).
    rewrite (nth_indep _ None
               (if has_event self a 0 then Some (event_date_index self)
                else None))
      by (rewrite length_map; exact Hi).
    rewrite (map_nth (fun t => if has_event self a t then Some t else None)).
    rewrite (map_nth (fun t => if has_event self a t
                               then Some (event_date_index self) else None)).
    destruct (has_event self a (nth i (index (data self)) 0)) eqn:E;
      [|exact I].
    exists i. repeat split; auto; lia.
  - rewrite !nth_overflow by (rewrite length_map; exact Hi). exact I.
Qed.

Lemma anchored_where (D : list (option timestamp)) (P : list (option Z))
  (M : list bool) :
  anchored self a D P ->
  anchored self a (zip_with keep_if D M) (zip_with keep_if P M).
Proof.
  intros [Hlen Hinv]. split.
  - rewrite !zip_with_length_min. lia.
  - intros i.
    destruct (Nat.lt_ge_cases i (Nat.min (length D) (length M))) as [Hi|Hi].
    + rewrite !(nth_zip_with _ _ _ None false) by lia.
      specialize (Hinv i). unfold keep_if.
      destruct (nth i M false); [exact Hinv|exact I].
    + rewrite !nth_overflow by (rewrite zip_with_length_min; lia). exact I.
Qed.

End Anchors.

Lemma tab_ext {C} (self : EventStudy) (X Y : label -> list C) :
  (forall a, X a = Y a) -> tab self X = tab self Y.
Proof.
  intros H. unfold tab. f_equal. apply map_ext. intros c. now rewrite H.
Qed.

Lemma tab_map_columns {C D} (self : EventStudy) (F : list C -> list D)
  (X : label -> list C) :
  map_columns F (tab self X) = tab self (fun a => F (X a)).
Proof. unfold map_columns, tab. simpl. now rewrite map_map. Qed.

Lemma tab_zip {C D E} (self : EventStudy) (h : C -> D -> E)
  (X : label -> list C) (Y : label -> list D) :
  zip_cells h (tab self X) (tab self Y)
  = tab self (fun a => zip_with h (X a) (Y a)).
Proof.
  unfold zip_cells, tab. simpl. f_equal.
  rewrite combine_map_same, map_map. reflexivity.
Qed.

Lemma zip_with_map {X C D E} (h : C -> D -> E) (f : X -> C) (g : X -> D)
  (l : list X) :
  zip_with h (map f l) (map g l) = map (fun x => h (f x) (g x)) l.
Proof. unfold zip_with. now rewrite combine_map_same, map_map. Qed.

Lemma events_reidx_tab (self : EventStudy) :
  events_reidx self
  = tab self (fun a => map (fun t => if has_event self a t
                                     then Some true else None)
                         (index (data self))).
Proof.
  rewrite events_reidx_has_event. unfold tab, assets, names.
  now rewrite map_map.
Qed.

Lemma dates_df_tab (self : EventStudy) (dates : Frame (option timestamp)) :
  dates_df (data self) = Ok dates ->
  dates = tab self (fun _ => map Some (index (data self))).
Proof.
  unfold dates_df, tab.
  destruct (columns (data self)) as [|c cols];
    destruct (index (data self)) as [|t idx]; try discriminate;
    intros H; now inversion H.
Qed.

Lemma cell_at_notnull (f : DataFrame) (a : label) (t : timestamp) :
  cell_at false (notnull f) a t = is_some (at_label f a t).
Proof.
  unfold notnull, map_cells, at_label, cell_at.
  rewrite get_column_map_columns. simpl.
  destruct (get_column a (columns f)) as [col|]; [|reflexivity]. simpl.
  destruct (get_loc t (index f)); [|reflexivity].
  apply nth_map_is_some.
Qed.

Lemma evt_dates_start (self : EventStudy) :
  where_ (tab self (fun _ => map Some (index (data self))))
    (align_cond (notnull (events self))
       (tab self (fun _ => map Some (index (data self)))))
  = tab self (dates0 self).
Proof.
  unfold where_, align_cond.
  change (mkFrame (index (tab self (fun _ => map Some (index (data self)))))
            (map (fun c => (fst c,
                            map (fun t => cell_at false (notnull (events self))
                                            (fst c) t)
                              (index (tab self
                                        (fun _ => map Some
                                                    (index (data self)))))))
               (columns (tab self (fun _ => map Some (index (data self)))))))
    with (mkFrame (index (data self))
            (map (fun c => (fst c,
                            map (fun t => cell_at false (notnull (events self))
                                            (fst c) t)
                              (index (data self))))
               (map (fun c => (fst c, map Some (index (data self))))
                  (columns (data self))))).
  rewrite map_map. cbn [fst].
  change (mkFrame (index (data self))
            (map (fun c => (fst c,
                            map (fun t => cell_at false (notnull (events self))
                                            (fst c) t)
                              (index (data self))))
               (columns (data self))))
    with (tab self (fun a => map (fun t => cell_at false
                                             (notnull (events self)) a t)
                               (index (data self)))).
  rewrite tab_zip. apply tab_ext. intros a.
  rewrite zip_with_map. unfold dates0. apply map_ext. intros t.
  now rewrite cell_at_notnull.
Qed.

Lemma periods_start (self : EventStudy) :
  reindex_like
    (map_cells (fun o : option value =>
                  if is_some o then Some (event_date_index self) else None)
       (events self))
    (tab self (fun _ => map Some (index (data self))))
  = tab self (periods0 self).
Proof.
  unfold reindex_like, tab. cbn [index columns]. f_equal.
  rewrite map_map. cbn [fst]. apply map_ext. intros c. f_equal.
  unfold periods0. apply map_ext. intros t.
  unfold has_event, at_label, cell_at, map_cells.
  rewrite get_column_map_columns. cbn [index map_columns].
  destruct (get_column (fst c) (columns (events self))) as [col|];
    [|reflexivity]. simpl.
  destruct (get_loc t (index (events self))); [|reflexivity].
  exact (map_nth (fun o : option value =>
                    if is_some o then Some (event_date_index self) else None)
           col None n).
Qed.

Lemma fill_one_ok {A} (f : Frame (option A)) :
  bfill 1 f = Ok (map_columns (bfill_column 1) f) /\
  ffill 1 f = Ok (map_columns (ffill_column 1) f).
Proof. split; reflexivity. Qed.

Lemma fillna_frame_columns {A} (F : list (option A) -> list (option A))
  (f : Frame (option A)) :
  fillna_frame f (map_columns F f)
  = map_columns (fun c => zip_with fill_from c (F c)) f.
Proof.
  unfold fillna_frame. rewrite (map_columns_id f) at 1.
  now rewrite zip_cells_map_columns.
Qed.

Ltac step_fill :=
  first [ rewrite (proj1 (fill_one_ok _)) | rewrite (proj2 (fill_one_ok _)) ];
  cbn [rbind g_periods g_evt_dates count_bef count_aft].

(** One pass of the loop, column by column. *)
Lemma grow_step_columns (w_s w_e : Z) (g : growth) :
  grow_step w_s w_e g
  = Ok (mkGrowth
          (map_columns (periods_step (w_s <=? count_bef g)
                          (count_aft g <=? w_e)) (g_periods g))
          (map_columns (dates_step (w_s <=? count_bef g)
                          (count_aft g <=? w_e)) (g_evt_dates g))
          (if w_s <=? count_bef g then count_bef g - 1 else count_bef g)
          (if count_aft g <=? w_e then count_aft g + 1 else count_aft g)).
Proof.
  destruct g as [P D cb ca].
  unfold grow_step, shift_periods, map_cells.
  cbn [g_periods g_evt_dates count_bef count_aft].
  destruct (w_s <=? cb);
    repeat step_fill;
    cbn [rbind g_periods g_evt_dates count_bef count_aft];
    destruct (ca <=? w_e);
    repeat step_fill;
    cbn [rbind g_periods g_evt_dates count_bef count_aft];
    rewrite ?map_columns_compose, ?fillna_frame_columns,
      ?map_columns_compose;
    unfold periods_step, dates_step;
    rewrite <- ?(map_columns_id P), <- ?(map_columns_id D); reflexivity.
Qed.

(** The whole loop, column by column: it returns, and keeps anchors and
    offsets in agreement with the calendar. *)
Lemma grow_columns (self : EventStudy) (w_s w_e : Z) (n : nat) :
  forall g,
  exists FD FP cb ca,
    grow n w_s w_e g
    = Ok (mkGrowth (map_columns FP (g_periods g))
            (map_columns FD (g_evt_dates g)) cb ca) /\
    forall a D P, anchored self a D P -> anchored self a (FD D) (FP P).
Proof.
  induction n as [|n IH]; intros g.
  - exists (fun D => D), (fun P => P), (count_bef g), (count_aft g).
    split; [|auto]. destruct g as [P D cb ca]. simpl.
    now rewrite <- !map_columns_id.
  - cbn [grow]. rewrite grow_step_columns. cbn [rbind].
    destruct (IH (mkGrowth
                    (map_columns (periods_step (w_s <=? count_bef g)
                                    (count_aft g <=? w_e)) (g_periods g))
                    (map_columns (dates_step (w_s <=? count_bef g)
                                    (count_aft g <=? w_e)) (g_evt_dates g))
                    (if w_s <=? count_bef g then count_bef g - 1
                     else count_bef g)
                    (if count_aft g <=? w_e then count_aft g + 1
                     else count_aft g)))
      as [FD [FP [cb [ca [Hg Hanch]]]]].
    cbn [g_periods g_evt_dates] in Hg. rewrite !map_columns_compose in Hg.
    eexists. eexists. exists cb, ca. split; [exact Hg|].
    intros a D P H. cbv beta. now apply Hanch, anchored_step.
Qed.

Lemma zip3_map_same {X A B} (f : X -> A) (g : X -> B) (l : list X) :
  zip3 (map f l) (map g l) l = map (fun x => (f x, g x, x)) l.
Proof. induction l; simpl; congruence. Qed.

Lemma long_table_tab (self : EventStudy)
  (X : label -> list (option timestamp)) (Y : label -> list (option Z)) :
  long_table (tab self X) (tab self Y) (data self)
  = flat_map (fun c => column_entries (fst c) (X (fst c)) (Y (fst c)) (snd c))
      (columns (data self)).
Proof.
  unfold long_table, tab. cbn [columns].
  rewrite zip3_map_same.
  induction (columns (data self)) as [|c cols IH]; simpl; [reflexivity|].
  now rewrite IH.
Qed.

(** What [pivot] reshapes: the slots that carry an anchor and an offset
    after the growth and the masking, asset by asset. *)
Lemma pivot_long_table (self : EventStudy) (t : EventPanel) :
  pivot self = Ok t ->
  exists FD FP M t0,
    (forall a D P, anchored self a D P -> anchored self a (FD D) (FP P)) /\
    unstack
      (flat_map
         (fun c => column_entries (fst c)
                     (zip_with keep_if (FD (dates0 self (fst c))) (M (fst c)))
                     (zip_with keep_if (FP (periods0 self (fst c)))
                        (M (fst c)))
                     (snd c))
         (columns (data self))) = Ok t0 /\
    t = loc_rows (fst (window self)) (snd (window self)) t0.
Proof.
  unfold pivot. destruct (window self) as [w_s w_e] eqn:Hw. intros H.
  apply rbind_ok in H. destruct H as [dates [Hd H]].
  apply dates_df_tab in Hd. subst dates.
  rewrite evt_dates_start, periods_start in H.
  destruct (grow_columns self w_s w_e (Z.to_nat (max_abs_window (w_s, w_e)))
              (mkGrowth (tab self (periods0 self)) (tab self (dates0 self))
                 (-1) (if event_date_index self =? 1 then 1 else 0)))
    as [FD [FP [cb [ca [Hg Hanch]]]]].
  rewrite Hg in H. cbn [rbind g_periods g_evt_dates] in H.
  apply rbind_ok in H. destruct H as [evt_w [Hm H]].
  apply rbind_ok in H. destruct H as [t0 [Hu H]].
  inversion H as [Ht]. clear H.
  destruct (mark_event_windows_limits _ _ _ Hm) as [Hb Hf].
  rewrite (mark_event_windows_ok self true Hb Hf) in Hm.
  inversion Hm as [Hw']. clear Hm. subst evt_w.
  rewrite events_reidx_tab, !tab_map_columns in Hu.
  unfold where_ in Hu. rewrite !tab_zip, long_table_tab in Hu.
  exists FD, FP,
    (fun a => mark_column (Z.to_nat (limit_back self))
                (Z.to_nat (limit_fwd self)) true
                (map (fun t => if has_event self a t then Some true else None)
                   (index (data self)))), t0.
  split; [exact Hanch|]. split; [exact Hu|]. reflexivity.
Qed.

Lemma column_entries_In (c : label) (e : entry) :
  forall (D : list (option timestamp)) (P : list (option Z))
         (V : list (option value)),
    In e (column_entries c D P V) ->
    e_asset e = c /\
    exists i, nth i D None = Some (e_evt_dt e) /\
              nth i P None = Some (e_period e) /\
              nth i V None = e_val e /\ (i < length V)%nat.
Proof.
  unfold column_entries.
  induction D as [|d D IH]; intros [|p P] [|v V] H; simpl in H;
    try contradiction.
  apply in_app_or in H. destruct H as [H|H].
  - destruct d as [d|]; [|contradiction].
    destruct p as [p|]; [|contradiction].
    destruct H as [<-|[]]. split; [reflexivity|].
    exists O. simpl. repeat split; auto. lia.
  - destruct (IH P V H) as [Ha [i [H1 [H2 [H3 H4]]]]]. split; [exact Ha|].
    exists (S i). simpl. repeat split; auto. lia.
Qed.

Lemma unstack_ok (es : list entry) (t0 : EventPanel) :
  unstack es = Ok t0 ->
  t0 = mkEventPanel (sort_uniq Z.leb Z.eqb (map e_period es))
         (map (fun k => (k, map (table_cell es k)
                              (sort_uniq Z.leb Z.eqb (map e_period es))))
            (sort_uniq key_leb key_eqb (map entry_key es))).
Proof.
  unfold unstack.
  destruct es as [|e1 [|e2 es]]; try discriminate.
  - intros H. now inversion H.
  - destruct (has_dup same_cell (e1 :: e2 :: es)); [discriminate|].
    intros H. now inversion H.
Qed.

Lemma sel_map {X Y} (g : X -> Y) (f : X -> bool) (l : list X) :
  map fst (filter (fun x => snd x) (combine (map g l) (map f l)))
  = map g (filter f l).
Proof.
  induction l as [|x l IH]; simpl; [reflexivity|].
  destruct (f x); simpl; now rewrite IH.
Qed.

(** The table [pivot] returns, in terms of the long table. *)
Lemma loc_rows_unstack (w_s w_e : Z) (es : list entry) (t0 : EventPanel) :
  unstack es = Ok t0 ->
  loc_rows w_s w_e t0
  = mkEventPanel
      (filter (fun p => (w_s <=? p) && (p <=? w_e))
         (sort_uniq Z.leb Z.eqb (map e_period es)))
      (map (fun k => (k, map (table_cell es k)
                           (filter (fun p => (w_s <=? p) && (p <=? w_e))
                              (sort_uniq Z.leb Z.eqb (map e_period es)))))
         (sort_uniq key_leb key_eqb (map entry_key es))).
Proof.
  intros H. apply unstack_ok in H. subst t0. unfold loc_rows.
  cbn [offsets pcolumns]. f_equal.
  - rewrite <- (map_id (sort_uniq Z.leb Z.eqb (map e_period es))) at 1.
    rewrite sel_map. apply map_id.
  - rewrite map_map. apply map_ext. intros k. cbn [fst snd].
    now rewrite sel_map.
Qed.

(** Every row of the long table is a slot of the panel, anchored at an event
    of its asset, with the offset of the slot from that event. *)
Lemma pivot_entry (self : EventStudy)
  (FD : list (option timestamp) -> list (option timestamp))
  (FP : list (option Z) -> list (option Z)) (M : label -> list bool)
  (e : entry) :
  (forall a D P, anchored self a D P -> anchored self a (FD D) (FP P)) ->
  In e (flat_map
          (fun c => column_entries (fst c)
                      (zip_with keep_if (FD (dates0 self (fst c)))
                         (M (fst c)))
                      (zip_with keep_if (FP (periods0 self (fst c)))
                         (M (fst c)))
                      (snd c))
          (columns (data self))) ->
  exists c i j,
    In c (columns (data self)) /\ e_asset e = fst c /\
    (i < length (snd c))%nat /\ nth i (snd c) None = e_val e /\
    (j < len (data self))%nat /\
    nth j (index (data self)) 0 = e_evt_dt e /\
    has_event self (e_asset e) (e_evt_dt e) = true /\
    e_period e = Z.of_nat i - Z.of_nat j + event_date_index self.
Proof.
  intros Hanch Hin. apply in_flat_map in Hin. destruct Hin as [c [Hc He]].
  apply column_entries_In in He.
  destruct He as [Ha [i [HD [HP [HV Hi]]]]].
  pose proof (anchored_where self (fst c) _ _ (M (fst c))
                (Hanch _ _ _ (anchored_start self (fst c)))) as [_ Hinv].
  specialize (Hinv i). rewrite HD, HP in Hinv.
  destruct Hinv as [j [Hj [Hd [Hev Hp]]]].
  exists c, i, j. rewrite Ha. repeat split; auto.
Qed.

Lemma StronglySorted_impl {A} (R R' : A -> A -> Prop) (l : list A) :
  (forall x y, R x y -> R' x y) ->
  StronglySorted R l -> StronglySorted R' l.
Proof.
  intros H Hs. induction Hs as [|x l _ IH Hall]; constructor; [exact IH|].
  revert Hall. apply Forall_impl. apply H.
Qed.

Lemma StronglySorted_filter {A} (R : A -> A -> Prop) (f : A -> bool)
  (l : list A) :
  StronglySorted R l -> StronglySorted R (filter f l).
Proof.
  intros Hs. induction Hs as [|x l _ IH Hall]; simpl; [constructor|].
  destruct (f x); [|exact IH]. constructor; [exact IH|].
  rewrite Forall_forall in *. intros y Hy. apply filter_In in Hy.
  now apply Hall.
Qed.

Lemma offsets_sorted (l : list Z) :
  StronglySorted Z.lt (sort_uniq Z.leb Z.eqb l).
Proof.
  apply (StronglySorted_impl (fun u v => (u <=? v) = true /\ u <> v)).
  - intros x y [Hle Hne]. apply Z.leb_le in Hle. lia.
  - apply sort_uniq_sorted.
    + apply Z.eqb_eq.
    + intros x y. rewrite !Z.leb_le. lia.
    + intros x y z. rewrite !Z.leb_le. lia.
    + intros x y. rewrite !Z.leb_le. lia.
Qed.

(** X7.  The table [pivot] returns has its offsets in increasing order and
    within the closed range of the window, its columns in increasing order
    of (asset, event timestamp) without repetition, and one cell per offset
    in every column. *)
Theorem pivot_table_shape (self : EventStudy) (t : EventPanel) :
  pivot self = Ok t ->
  StronglySorted Z.lt (offsets t) /\
  Forall (fun p => fst (window self) <= p <= snd (window self)) (offsets t) /\
  StronglySorted (fun k1 k2 => key_leb k1 k2 = true /\ k1 <> k2)
    (map fst (pcolumns t)) /\
  NoDup (map fst (pcolumns t)) /\
  Forall (fun c => length (snd c) = length (offsets t)) (pcolumns t).
Proof.
  intros H. apply pivot_long_table in H.
  destruct H as [FD [FP [M [t0 [_ [Hu Ht]]]]]].
  rewrite (loc_rows_unstack _ _ _ _ Hu) in Ht. subst t.
  cbn [offsets pcolumns]. rewrite map_map. cbn [fst]. rewrite map_id.
  split; [apply StronglySorted_filter, offsets_sorted|].
  split.
  { apply Forall_forall. intros p Hp. apply filter_In in Hp.
    destruct Hp as [_ Hp]. apply andb_true_iff in Hp.
    rewrite !Z.leb_le in Hp. exact Hp. }
  split.
  { apply sort_uniq_sorted.
    - apply key_eqb_eq.
    - apply key_leb_total.
    - apply key_leb_trans.
    - apply key_leb_antisym. }
  split.
  { apply sort_uniq_NoDup.
    - apply key_eqb_eq.
    - apply key_leb_total.
    - apply key_leb_trans.
    - apply key_leb_antisym. }
  rewrite Forall_map. apply Forall_forall. intros k _. cbn [snd].
  now rewrite length_map.
Qed.

Lemma pivot_table_shape_witness :
  StronglySorted Z.lt (offsets table10) /\
  Forall (fun p => fst (window study10) <= p <= snd (window study10))
    (offsets table10) /\
  StronglySorted (fun k1 k2 => key_leb k1 k2 = true /\ k1 <> k2)
    (map fst (pcolumns table10)) /\
  NoDup (map fst (pcolumns table10)) /\
  Forall (fun c => length (snd c) = length (offsets table10))
    (pcolumns table10).
Proof.
  apply (pivot_table_shape study10 table10). vm_compute. reflexivity.
Defined.

Lemma sort_uniq_key_In (k : key) (l : list key) :
  In k (sort_uniq key_leb key_eqb l) -> In k l.
Proof. apply sort_uniq_In, key_eqb_eq. Qed.

(** X8.  Every column of the table [pivot] returns is keyed by an asset of
    the panel and the timestamp of one of its events, a timestamp of the
    calendar. *)
Theorem pivot_columns_are_events (self : EventStudy) (t : EventPanel)
  (k : key) :
  pivot self = Ok t ->
  In k (map fst (pcolumns t)) ->
  In (fst k) (assets self) /\
  has_event self (fst k) (snd k) = true /\
  In (snd k) (index (data self)).
Proof.
  intros H Hk. apply pivot_long_table in H.
  destruct H as [FD [FP [M [t0 [Hanch [Hu Ht]]]]]].
  rewrite (loc_rows_unstack _ _ _ _ Hu) in Ht. subst t.
  cbn [pcolumns] in Hk. rewrite map_map in Hk. cbn [fst] in Hk.
  rewrite map_id in Hk. apply sort_uniq_key_In in Hk.
  apply in_map_iff in Hk. destruct Hk as [e [<- He]].
  destruct (pivot_entry self FD FP M e Hanch He)
    as [c [i [j [Hc [Ha [_ [_ [Hj [Hd [Hev _]]]]]]]]]].
  unfold entry_key. cbn [fst snd]. split; [|split; [exact Hev|]].
  - rewrite Ha. unfold assets, names. now apply in_map.
  - rewrite <- Hd. apply nth_In. exact Hj.
Qed.

Lemma pivot_columns_are_events_witness :
  In "X"%string (assets study10) /\
  has_event study10 "X"%string 5 = true /\
  In 5 (index (data study10)).
Proof.
  apply (pivot_columns_are_events study10 table10 ("X"%string, 5)).
  - vm_compute. reflexivity.
  - now left.
Defined.

(** X9.  A value in the table [pivot] returns, at offset [p] of the column
    keyed by asset [a] and event timestamp [d], is the value the panel
    holds for [a] at the row [p - event_date_index] rows from a row of
    [d]. *)
Theorem pivot_cell_is_panel_value (self : EventStudy) (t : EventPanel)
  (k : key) (col : list (option value)) (q : nat) (p : Z) (v : value) :
  pivot self = Ok t ->
  In (k, col) (pcolumns t) ->
  nth_error (offsets t) q = Some p ->
  nth q col None = Some v ->
  exists c i j,
    In c (columns (data self)) /\ fst c = fst k /\
    nth i (snd c) None = Some v /\
    (j < len (data self))%nat /\
    nth j (index (data self)) 0 = snd k /\
    Z.of_nat i = Z.of_nat j + p - event_date_index self.
Proof.
  intros H Hk Hq Hv. apply pivot_long_table in H.
  destruct H as [FD [FP [M [t0 [Hanch [Hu Ht]]]]]].
  rewrite (loc_rows_unstack _ _ _ _ Hu) in Ht. subst t.
  cbn [offsets pcolumns] in Hk, Hq.
  apply in_map_iff in Hk. destruct Hk as [k' [Hk _]].
  inversion Hk; subst k' col. clear Hk.
  rewrite (nth_error_nth _ _ None (map_nth_error _ _ _ Hq)) in Hv.
  unfold table_cell in Hv.
  destruct (find _ _) as [e|] eqn:Hf; [|discriminate].
  apply find_some in Hf. destruct Hf as [He Hkey].
  apply andb_true_iff in Hkey. destruct Hkey as [Hkey Hp].
  apply key_eqb_eq in Hkey. apply Z.eqb_eq in Hp.
  destruct (pivot_entry self FD FP M e Hanch He)
    as [c [i [j [Hc [Ha [_ [Hval [Hj [Hd [_ Hper]]]]]]]]]].
  exists c, i, j. rewrite <- Hkey. unfold entry_key. cbn [fst snd].
  repeat split; auto; try congruence. lia.
Qed.

Lemma pivot_cell_is_panel_value_witness :
  exists c i j,
    In c (columns (data study10)) /\ fst c = "X"%string /\
    nth i (snd c) None = Some (Q2Qc_of_Z 3) /\
    (j < len (data study10))%nat /\
    nth j (index (data study10)) 0 = 5 /\
    Z.of_nat i = Z.of_nat j + -2 - event_date_index study10.
Proof.
  apply (pivot_cell_is_panel_value study10 table10 ("X"%string, 5)
           (map (fun v => Some (Q2Qc_of_Z v)) [3; 4; 5; 6; 7]) 0 (-2)
           (Q2Qc_of_Z 3)).
  - vm_compute. reflexivity.
  - now left.
  - reflexivity.
  - reflexivity.
Defined.

(** X10.  [pivot] does not accept a window that [mark_event_windows]
    rejects: with [start >= 0] or [end - event_date_index <= 0], on a panel
    with at least one slot that is not an event, it raises the limit
    error. *)
Theorem pivot_rejects_window (self : EventStudy) :
  has_free_slot self ->
  0 <= fst (window self) \/ snd (window self) - event_date_index self <= 0 ->
  pivot self = Raise (ValueError limit_msg).
Proof.
  intros [a [i [Ha _]]] Hw. unfold pivot.
  destruct (window self) as [w_s w_e] eqn:Ew.
  assert (Hd : dates_df (data self)
               = Ok (tab self (fun _ => map Some (index (data self))))).
  { unfold dates_df, tab. unfold assets, names in Ha.
    destruct (columns (data self)); [contradiction|reflexivity]. }
  rewrite Hd. cbn [rbind].
  rewrite evt_dates_start, periods_start.
  destruct (grow_columns self w_s w_e (Z.to_nat (max_abs_window (w_s, w_e)))
              (mkGrowth (tab self (periods0 self)) (tab self (dates0 self))
                 (-1) (if event_date_index self =? 1 then 1 else 0)))
    as [FD [FP [cb [ca [Hg _]]]]].
  rewrite Hg. cbn [rbind].
  rewrite mark_event_windows_raise; [reflexivity|].
  unfold limit_back, limit_fwd. rewrite Ew. simpl in Hw. simpl. lia.
Qed.

Lemma pivot_rejects_window_witness :
  pivot study10_start0 = Raise (ValueError limit_msg).
Proof.
  apply (pivot_rejects_window study10_start0).
  - exists "X"%string, O. split; [now left|].
    split; [vm_compute; lia|reflexivity].
  - left. simpl. lia.
Defined.

(** ** The event-weighted mean, continued *)

Lemma Qc_of_nat_nonzero (n : nat) : (0 < n)%nat -> Qc_of_nat n <> 0%Qc.
Proof.
  intros Hn H. unfold Qc_of_nat in H.
  change 0%Qc with (Q2Qc 0) in H. apply Q2Qc_eq_iff in H.
  unfold Qeq in H. simpl in H. lia.
Qed.

Lemma nansum_none (l : list (option value)) :
  count_notnull l = O -> nansum l = 0%Qc.
Proof.
  induction l as [|[v|] l IH]; simpl; auto; discriminate.
Qed.

(** The mean of a group times its count is the sum of the group. *)
Lemma nanmean_times_count (l : list (option value)) :
  match nanmean l with
  | Some m => (m * Qc_of_nat (count_notnull l))%Qc
  | None => 0%Qc
  end = nansum l.
Proof.
  unfold nanmean. destruct (count_notnull l) as [|n] eqn:E.
  - symmetry. now apply nansum_none.
  - unfold value. field. apply Qc_of_nat_nonzero. lia.
Qed.

Lemma sum_indicator (n : label) (x : value) (L : list label) :
  NoDup L -> In n L ->
  fold_right Qcplus 0%Qc
    (map (fun a => if String.eqb n a then x else 0%Qc) L) = x.
Proof.
  unfold value in *.
  induction L as [|a L IH]; intros Hnd Hin; [contradiction|].
  inversion Hnd as [|? ? Hna HL]; subst. simpl.
  destruct (String.eqb_spec n a) as [->|Hne].
  - assert (Hz : fold_right Qcplus 0%Qc
                   (map (fun b => if String.eqb a b then x else 0%Qc) L)
                 = 0%Qc).
    { clear IH Hin Hnd HL. induction L as [|b L IH]; [reflexivity|].
      simpl. destruct (String.eqb_spec a b) as [->|_].
      - exfalso. apply Hna. now left.
      - rewrite IH; [ring|]. intros H. apply Hna. now right. }
    rewrite Hz. ring.
  - destruct Hin as [Heq|Hin]; [congruence|].
    rewrite (IH HL Hin). ring.
Qed.

Lemma count_indicator (n : label) (x : nat) (L : list label) :
  NoDup L -> In n L ->
  list_sum (map (fun a => if String.eqb n a then x else O) L) = x.
Proof.
  induction L as [|a L IH]; intros Hnd Hin; [contradiction|].
  inversion Hnd as [|? ? Hna HL]; subst. simpl.
  destruct (String.eqb_spec n a) as [->|Hne].
  - assert (Hz : list_sum (map (fun b => if String.eqb a b then x else O) L)
                 = O).
    { clear IH Hin Hnd HL. induction L as [|b L IH]; [reflexivity|].
      simpl. destruct (String.eqb_spec a b) as [->|_].
      - exfalso. apply Hna. now left.
      - apply IH. intros H. apply Hna. now right. }
    lia.
  - destruct Hin as [Heq|Hin]; [congruence|].
    rewrite (IH HL Hin). lia.
Qed.

Lemma fold_plus_map (f g : label -> value) (L : list label) :
  fold_right Qcplus 0%Qc (map (fun a => f a + g a)%Qc L)
  = (fold_right Qcplus 0%Qc (map f L)
     + fold_right Qcplus 0%Qc (map g L))%Qc.
Proof.
  unfold value in *. induction L as [|a L IH]; simpl; [ring|].
  rewrite IH. ring.
Qed.

Lemma list_sum_plus_map (f g : label -> nat) (L : list label) :
  list_sum (map (fun a => f a + g a)%nat L)
  = (list_sum (map f L) + list_sum (map g L))%nat.
Proof. induction L as [|a L IH]; simpl; lia. Qed.

(** The groups of the assets partition the columns: sums and counts over
    the groups add up to those over the whole row. *)
Lemma groups_partition (i : nat)
  (cols : list (key * list (option value))) (L : list label) :
  NoDup L ->
  (forall c, In c cols -> In (fst (fst c)) L) ->
  fold_right Qcplus 0%Qc
    (map (fun a => nansum (map (fun c => nth i (snd c) None)
                             (filter (fun c => String.eqb (fst (fst c)) a)
                                cols))) L)
  = nansum (map (fun c => nth i (snd c) None) cols) /\
  list_sum
    (map (fun a => count_notnull (map (fun c => nth i (snd c) None)
                                    (filter (fun c => String.eqb (fst (fst c)) a)
                                       cols))) L)
  = count_notnull (map (fun c => nth i (snd c) None) cols).
Proof.
  unfold key, label in *.
  intros Hnd. induction cols as [|c cols IH]; intros Hin.
  - simpl. split.
    + clear. induction L as [|a L IH]; simpl; [reflexivity|].
      rewrite IH. unfold value. ring.
    + clear. induction L as [|a L IH]; simpl; auto.
  - destruct IH as [IHs IHc]; [intros c' Hc'; apply Hin; now right|].
    assert (Hc : In (fst (fst c)) L) by (apply Hin; now left).
    split.
    + rewrite (map_ext _
                 (fun a => ((if String.eqb (fst (fst c)) a
                             then match nth i (snd c) None with
                                  | Some v => v
                                  | None => 0
                                  end
                             else 0)
                            + nansum (map (fun c => nth i (snd c) None)
                                        (filter
                                           (fun c => String.eqb (fst (fst c)) a)
                                           cols)))%Qc)).
      * rewrite fold_plus_map. unfold key, label in *.
        rewrite IHs, (sum_indicator _ _ L Hnd Hc).
        simpl. destruct (nth i (snd c) None);
          [reflexivity | apply Qcplus_0_l].
      * intros a. simpl. destruct (String.eqb (fst (fst c)) a); simpl.
        -- destruct (nth i (snd c) None);
             [reflexivity | symmetry; apply Qcplus_0_l].
        -- symmetry. apply Qcplus_0_l.
    + rewrite (map_ext _
                 (fun a => ((if String.eqb (fst (fst c)) a
                             then match nth i (snd c) None with
                                  | Some _ => 1
                                  | None => 0
                                  end
                             else 0)
                            + count_notnull
                                (map (fun c => nth i (snd c) None)
                                   (filter
                                      (fun c => String.eqb (fst (fst c)) a)
                                      cols)))%nat)).
      * rewrite list_sum_plus_map. unfold key, label in *.
        rewrite IHc, (count_indicator _ _ L Hnd Hc).
        simpl. now destruct (nth i (snd c) None).
      * intros a. simpl. destruct (String.eqb (fst (fst c)) a); simpl.
        -- now destruct (nth i (snd c) None).
        -- reflexivity.
Qed.

Lemma total_count_row (df : EventPanel) (i : nat) :
  total_count df i = count_notnull (row_cells df i).
Proof.
  unfold total_count, group_row, row_cells.
  apply (groups_partition i (pcolumns df) (level0 df)).
  - apply level0_NoDup.
  - intros c Hc. apply level0_In.
    now apply (in_map (fun c => fst (fst c))).
Qed.

(** X11.  At an offset where some cell has a value, the event-weighted mean
    is the plain mean of all the values of the row, over every asset and
    event: weighting the asset means by the asset counts undoes the
    grouping. *)
Theorem event_weighted_mean_is_pooled_mean (df : EventPanel) (i : nat) :
  (0 < count_notnull (row_cells df i))%nat ->
  weighted_mean_row df i
  = (nansum (row_cells df i)
     / Qc_of_nat (count_notnull (row_cells df i)))%Qc.
Proof.
  intros _. rewrite weighted_mean_row_spec. unfold spec_weighted_mean.
  rewrite total_count_row. f_equal.
  rewrite (map_ext _ (fun a => nansum (group_row df a i)))
    by (intros a; apply nanmean_times_count).
  unfold group_row, row_cells.
  apply (groups_partition i (pcolumns df) (level0 df)).
  - apply level0_NoDup.
  - intros c Hc. apply level0_In.
    now apply (in_map (fun c => fst (fst c))).
Qed.

Lemma event_weighted_mean_is_pooled_mean_witness :
  weighted_mean_row two_assets 0
  = (nansum (row_cells two_assets 0)
     / Qc_of_nat (count_notnull (row_cells two_assets 0)))%Qc.
Proof.
  apply (event_weighted_mean_is_pooled_mean two_assets 0).
  vm_compute. lia.
Defined.

Lemma list_sum_zero (l : list nat) :
  list_sum l = O -> Forall (fun n => n = O) l.
Proof.
  induction l as [|n l IH]; simpl; intros H; constructor; [lia|].
  apply IH. lia.
Qed.

(** X12.  The result has one entry per offset, in the order of the offsets,
    and at an offset where no asset has a value the entry is 0, not a
    missing value. *)
Theorem event_weighted_mean_empty_row (df : EventPanel) :
  map fst (event_weighted_mean df) = offsets df /\
  forall i t, nth_error (offsets df) i = Some t ->
              total_count df i = O ->
              nth_error (event_weighted_mean df) i = Some (t, 0%Qc).
Proof.
  split.
  - unfold event_weighted_mean. rewrite map_map. simpl.
    generalize 0%nat. induction (offsets df) as [|p l IH]; intros s; simpl;
      [reflexivity|]. now rewrite IH.
  - intros i t Ht Hz. unfold event_weighted_mean.
    rewrite nth_error_map.
    rewrite (nth_error_combine_seq (offsets df) 0 i t Ht). simpl.
    do 2 f_equal. unfold weighted_mean_row.
    unfold total_count in Hz. apply list_sum_zero in Hz.
    rewrite Forall_map in Hz. rewrite Forall_forall in Hz.
    induction (level0 df) as [|a L IH]; [reflexivity|].
    simpl. unfold nanmean at 1. rewrite (Hz a) by now left. simpl.
    apply IH. intros b Hb. apply Hz. now right.
Qed.

Lemma event_weighted_mean_empty_row_witness :
  nth_error (event_weighted_mean two_assets_gap) 1 = Some (1, 0%Qc).
Proof.
  apply (proj2 (event_weighted_mean_empty_row two_assets_gap) 1%nat 1);
    reflexivity.
Defined.

(** ** Bootstrapping, continued *)

Lemma boot_from_cases (self : EventStudy) :
  (exists pool, boot_from self = Ok pool) \/
  boot_from self = Raise (ValueError limit_msg).
Proof.
  unfold boot_from.
  destruct (Z.lt_ge_cases (limit_back self) 1) as [Hb|Hb];
    [right; rewrite mark_event_windows_raise by (now left); reflexivity|].
  destruct (Z.lt_ge_cases (limit_fwd self) 1) as [Hf|Hf];
    [right; rewrite mark_event_windows_raise by (now right); reflexivity|].
  left. rewrite (mark_event_windows_ok self false) by lia.
  cbn [rbind]. eauto.
Qed.

Lemma ceil_div_negative (a b : Z) : 0 <= a -> b < 0 -> ceil_div a b <= 0.
Proof.
  intros Ha Hb. unfold ceil_div.
  replace b with (- (- b)) by lia. rewrite Z.div_opp_opp by lia.
  assert (0 <= a / - b) by (apply Z.div_pos; lia). lia.
Qed.

(** X13.  A block size that is not positive never yields an engine: 0
    raises the division error before anything is drawn (as does the default
    block size on an empty panel), and a negative one raises a
    [ValueError]. *)
Theorem bootstrap_block_not_positive (fuel : nat) (self : EventStudy)
  (block_size : option Z) (r : rng) :
  block_size_of self block_size <= 0 ->
  exists e,
    bootstrap_wo_events fuel self block_size r = Raise e /\
    (block_size_of self block_size = 0 -> e = ZeroDivisionError) /\
    (block_size_of self block_size < 0 -> is_ValueError e = true) /\
    (block_size = None -> len (data self) = O -> e = ZeroDivisionError).
Proof.
  intros Hle. unfold bootstrap_wo_events.
  destruct (Z.eqb_spec (block_size_of self block_size) 0) as [H0|H0].
  - exists ZeroDivisionError. repeat split; auto. lia.
  - assert (Hneg : block_size_of self block_size < 0) by lia.
    assert (Hdefault : block_size = None -> len (data self) = O -> False).
    { intros -> Hlen. unfold block_size_of in H0. rewrite Hlen in H0.
      apply H0. reflexivity. }
    destruct (boot_from_cases self) as [[pool Hpool]|Hraise].
    + rewrite Hpool. unfold mbind at 1. unfold lift at 1.
      unfold mbind at 1. unfold choice.
      destruct (Z.leb_spec (Z.of_nat (len pool) - block_size_of self block_size)
                  0) as [?|_]; [lia|].
      cbn [andb].
      pose proof (ceil_div_negative (Z.of_nat (len (data self)))
                    (block_size_of self block_size) ltac:(lia) Hneg) as Hc.
      set (size := ceil_div (Z.of_nat (len (data self)))
                     (block_size_of self block_size) * 2) in *.
      destruct (Z.ltb_spec size 0) as [Hs|Hs].
      * exists (ValueError negative_dim_msg).
        split; [reflexivity|]. split; [lia|]. split; [reflexivity|].
        intros H1 H2. destruct (Hdefault H1 H2).
      * assert (Hz : size = 0) by (unfold size in *; lia).
        rewrite Hz. cbn [Z.to_nat]. rewrite randints_zero.
        exists (ValueError no_objects_msg).
        split; [reflexivity|]. split; [lia|]. split; [reflexivity|].
        intros H1 H2. destruct (Hdefault H1 H2).
    + rewrite Hraise. exists (ValueError limit_msg).
      split; [reflexivity|]. split; [lia|]. split; [reflexivity|].
      intros H1 H2. destruct (Hdefault H1 H2).
Qed.

Lemma bootstrap_block_not_positive_witness :
  exists e,
    bootstrap_wo_events 5 study10 (Some (-3)) tape0 = Raise e /\
    (block_size_of study10 (Some (-3)) = 0 -> e = ZeroDivisionError) /\
    (block_size_of study10 (Some (-3)) < 0 -> is_ValueError e = true) /\
    (Some (-3) = None -> len (data study10) = O -> e = ZeroDivisionError).
Proof.
  apply (bootstrap_block_not_positive 5 study10 (Some (-3)) tape0).
  simpl. lia.
Defined.

Lemma mbind_raise {A B} (c : M A) (k : A -> M B) (r : rng) (e : exn) :
  mbind c k r = Raise e ->
  c r = Raise e \/ exists a r1, c r = Ok (a, r1) /\ k a r1 = Raise e.
Proof.
  unfold mbind. destruct (c r) as [[a r1]| |]; try discriminate.
  - intros H. right. exists a, r1. split; [reflexivity|exact H].
  - intros H. left. inversion H. reflexivity.
Qed.

Lemma lift_raise {A} (c : result A) (r : rng) (e : exn) :
  lift c r = Raise e -> c = Raise e.
Proof.
  unfold lift. destruct c; try discriminate.
  intros H. inversion H. reflexivity.
Qed.

Lemma len_append_rows (a b : DataFrame) :
  len (append_rows a b) = (len a + len b)%nat.
Proof. unfold len, append_rows. simpl. now rewrite length_map, length_seq. Qed.

Lemma range_indexed_append (a b : DataFrame) :
  range_indexed (append_rows a b).
Proof.
  unfold range_indexed. rewrite len_append_rows. reflexivity.
Qed.

Lemma fold_append_range (tl : list DataFrame) :
  forall f0, range_indexed f0 -> range_indexed (fold_left append_rows tl f0).
Proof.
  induction tl as [|g tl IH]; intros f0 Hf0; simpl; [exact Hf0|].
  apply IH, range_indexed_append.
Qed.

Lemma concat_rows_range (frames : list DataFrame) (booted : DataFrame) :
  concat_rows frames = Ok booted -> range_indexed booted.
Proof.
  destruct frames as [|f tl]; simpl; [discriminate|].
  intros H. inversion H as [Hb]. apply fold_append_range.
  unfold range_indexed, len. simpl. now rewrite length_map, length_seq.
Qed.

Lemma top_up_range (dat pool : DataFrame) (bs : Z) (fuel : nat) :
  forall booted0 r booted r',
    range_indexed booted0 ->
    top_up fuel dat pool bs booted0 r = Ok (booted, r') ->
    range_indexed booted.
Proof.
  induction fuel as [|fuel IH]; intros booted0 r booted r' Hr H; simpl in H.
  - destruct (short_of booted0 dat); [discriminate|].
    inversion H; subst. exact Hr.
  - destruct (short_of booted0 dat).
    + apply mbind_ok in H. destruct H as [p [r1 [_ H]]].
      apply IH in H; [exact H|apply range_indexed_append].
    + inversion H; subst. exact Hr.
Qed.

Lemma choice_no_replace_range (pop size : nat) (r r' : rng) (ps : list nat) :
  choice_no_replace pop size r = Ok (ps, r') ->
  Forall (fun x => (x < pop)%nat) ps.
Proof.
  unfold choice_no_replace.
  destruct ((pop =? 0)%nat && negb (size =? 0)%nat); [discriminate|].
  destruct (Nat.ltb_spec pop size) as [Hlt|Hge]; [discriminate|].
  intros H. apply draw_distinct_ok in H;
    [|apply seq_NoDup|now rewrite length_seq].
  destruct H as [_ [_ Hincl]]. apply Forall_forall. intros x Hx.
  apply Hincl, in_seq in Hx. lia.
Qed.

Lemma draw_events_range (n : nat) (n_events : list (label * nat)) :
  forall r r' drawn,
    draw_events n n_events r = Ok (drawn, r') ->
    Forall (fun d => Forall (fun x => (x < n)%nat) (snd d)) drawn.
Proof.
  induction n_events as [|[c v] tl IH]; intros r r' drawn H; simpl in H.
  - inversion H. constructor.
  - apply mbind_ok in H. destruct H as [ps [r1 [Hps H]]].
    apply mbind_ok in H. destruct H as [rest [r2 [Hrest H]]].
    inversion H; subst. constructor.
    + simpl. now apply choice_no_replace_range in Hps.
    + exact (IH _ _ _ Hrest).
Qed.

Lemma index_dropna_all (f : DataFrame) (t : timestamp) :
  In t (index (dropna_all f)) -> In t (index f).
Proof.
  unfold dropna_all, take_rows, rows_with_value. simpl.
  intros H. apply in_map_iff in H. destruct H as [p [<- Hp]].
  apply filter_In in Hp. destruct Hp as [Hp _]. apply in_seq in Hp.
  apply nth_In. unfold len in Hp. lia.
Qed.

(** The synthetic events lie on the calendar of the synthetic panel. *)
Lemma synthetic_events_aligned (booted ev' : DataFrame)
  (drawn : list (label * list nat)) (t : timestamp) :
  range_indexed booted ->
  Forall (fun d => Forall (fun x => (x < len booted)%nat) (snd d)) drawn ->
  concat_events drawn = Ok ev' ->
  In t (event_timestamps (PFrame ev')) -> In t (index booted).
Proof.
  intros Hr Hd Hc Ht. cbn [event_timestamps] in Ht.
  apply index_dropna_all in Ht.
  assert (Hidx : index ev'
                 = map Z.of_nat
                     (sort_uniq Nat.leb Nat.eqb (flat_map snd drawn))).
  { unfold concat_events in Hc. destruct drawn; [discriminate|].
    now inversion Hc. }
  rewrite Hidx in Ht.
  apply in_map_iff in Ht. destruct Ht as [x [<- Hx]].
  apply sort_uniq_nat_In, in_flat_map in Hx. destruct Hx as [d [Hdin Hxd]].
  rewrite Forall_forall in Hd. specialize (Hd d Hdin).
  rewrite Forall_forall in Hd. specialize (Hd x Hxd).
  rewrite Hr. apply in_map, in_seq. lia.
Qed.

Lemma init_frames_aligned (dat ev : DataFrame) (w : Z * Z) (edi : Z) :
  (forall t, In t (event_timestamps (PFrame ev)) -> In t (index dat)) ->
  exists s, init (PFrame dat) (PFrame ev) w edi = Ok s.
Proof.
  intros H. unfold init.
  destruct (obj_len (PFrame dat) <? _)%nat eqn:E.
  - apply index_union_longer in E. destruct E as [t [Ht Hn]].
    exfalso. apply Hn. cbn [obj_index]. now apply H.
  - cbn [rbind fst snd]. destruct (align_inner ev dat). eauto.
Qed.

Lemma top_up_raise (dat pool : DataFrame) (bs : Z) (fuel : nat) :
  forall booted0 r e,
    top_up fuel dat pool bs booted0 r = Raise e ->
    e = ValueError empty_choice_msg.
Proof.
  induction fuel as [|fuel IH]; intros booted0 r e H; simpl in H.
  - destruct (short_of booted0 dat); discriminate.
  - destruct (short_of booted0 dat); [|discriminate].
    apply mbind_raise in H. destruct H as [H|[p [r1 [_ H]]]].
    + unfold choice1 in H. destruct (_ <=? 0); [|discriminate].
      now inversion H.
    + now apply IH in H.
Qed.

Lemma randints_ok (n size : nat) (r : rng) :
  exists xs r', randints n size r = Ok (xs, r').
Proof.
  revert r. induction size as [|size IH]; intros r; simpl.
  - eexists. eexists. reflexivity.
  - unfold mbind at 1. unfold randint at 1.
    destruct (IH (mkRng (tape r) (S (cursor r)))) as [xs [r' H]].
    unfold mbind at 1. rewrite H. eexists. eexists. reflexivity.
Qed.

Lemma choice_raise (pop size : Z) (r : rng) (e : exn) :
  choice pop size r = Raise e ->
  e = ValueError empty_choice_msg \/ e = ValueError negative_dim_msg.
Proof.
  unfold choice. destruct ((pop <=? 0) && negb (size =? 0)).
  - intros H. inversion H. now left.
  - destruct (size <? 0).
    + intros H. inversion H. now right.
    + destruct (randints_ok (Z.to_nat pop) (Z.to_nat size) r) as [xs [r' H]].
      rewrite H. discriminate.
Qed.

Lemma draw_distinct_total (size : nat) :
  forall pool r, exists xs r', draw_distinct size pool r = Ok (xs, r').
Proof.
  induction size as [|size IH]; intros pool r; simpl.
  - eexists. eexists. reflexivity.
  - unfold mbind at 1. unfold randint at 1.
    destruct (IH (remove_nth (tape r (cursor r) mod length pool) pool)
                (mkRng (tape r) (S (cursor r)))) as [xs [r' H]].
    unfold mbind at 1. rewrite H. eexists. eexists. reflexivity.
Qed.

Lemma draw_events_raise (n : nat) (n_events : list (label * nat)) :
  forall r e,
    draw_events n n_events r = Raise e ->
    e = ValueError empty_choice_msg \/ e = ValueError larger_sample_msg.
Proof.
  induction n_events as [|[c v] tl IH]; intros r e H; simpl in H;
    [discriminate|].
  apply mbind_raise in H. destruct H as [H|[ps [r1 [_ H]]]].
  - unfold choice_no_replace in H.
    destruct ((n =? 0)%nat && negb (v =? 0)%nat);
      [inversion H; now left|].
    destruct (n <? v)%nat; [inversion H; now right|].
    destruct (draw_distinct_total v (seq 0 n) r) as [xs [r' H']].
    rewrite H' in H. discriminate.
  - apply mbind_raise in H. destruct H as [H|[rest [r2 [_ H]]]].
    + now apply IH in H.
    + discriminate.
Qed.

(** X14.  [bootstrap_wo_events] never fails with the alignment error of the
    constructor: the synthetic events are drawn among the rows of the
    synthetic panel. *)
Theorem bootstrap_never_misaligned (fuel : nat) (self : EventStudy)
  (block_size : option Z) (r : rng) :
  bootstrap_wo_events fuel self block_size r
  <> Raise (ValueError misaligned_msg).
Proof.
  unfold bootstrap_wo_events.
  destruct (block_size_of self block_size =? 0); [discriminate|].
  intros H.
  apply mbind_raise in H. destruct H as [H|[pool [r1 [_ H]]]].
  { apply lift_raise in H.
    destruct (boot_from_cases self) as [[p Hp]|Hr];
      [congruence | rewrite Hr in H; discriminate]. }
  apply mbind_raise in H. destruct H as [H|[rnd [r2 [_ H]]]].
  { apply choice_raise in H. destruct H; discriminate. }
  apply mbind_raise in H. destruct H as [H|[booted0 [r3 [Hcat H]]]].
  { apply lift_raise in H.
    destruct (map _ rnd); simpl in H; discriminate. }
  apply lift_ok in Hcat. destruct Hcat as [Hcat _].
  apply mbind_raise in H. destruct H as [H|[booted [r4 [Htop H]]]].
  { apply top_up_raise in H. discriminate. }
  apply mbind_raise in H. destruct H as [H|[drawn [r5 [Hdraw H]]]].
  { apply draw_events_raise in H. destruct H; discriminate. }
  apply mbind_raise in H. destruct H as [H|[ev' [r6 [Hev H]]]].
  { apply lift_raise in H. destruct drawn; simpl in H; discriminate. }
  apply lift_ok in Hev. destruct Hev as [Hev _].
  apply lift_raise in H.
  apply top_up_range in Htop; [|now apply concat_rows_range in Hcat].
  apply draw_events_range in Hdraw.
  destruct (init_frames_aligned booted ev' (window self)
              (event_date_index self)) as [s Hs].
  - intros t. now apply (synthetic_events_aligned booted ev' drawn).
  - congruence.
Qed.

(** The steps of a successful run of [bootstrap_wo_events]. *)
Lemma bootstrap_ok_steps (fuel : nat) (self : EventStudy)
  (block_size : option Z) (r r' : rng) (e' : EventStudy) :
  bootstrap_wo_events fuel self block_size r = Ok (e', r') ->
  exists pool rnd r1 r2 booted0 booted r3 r4 drawn r5 ev',
    block_size_of self block_size <> 0 /\
    boot_from self = Ok pool /\
    choice (Z.of_nat (len pool) - block_size_of self block_size)
      (ceil_div (Z.of_nat (len (data self)))
         (block_size_of self block_size) * 2) r1 = Ok (rnd, r2) /\
    concat_rows (map (fun p => iloc_block p (block_size_of self block_size)
                                 pool) rnd) = Ok booted0 /\
    top_up fuel (data self) pool (block_size_of self block_size) booted0 r3
    = Ok (booted, r4) /\
    draw_events (len booted) (count (events self)) r4 = Ok (drawn, r5) /\
    concat_events drawn = Ok ev' /\
    init (PFrame booted) (PFrame ev') (window self) (event_date_index self)
    = Ok e'.
Proof.
  unfold bootstrap_wo_events.
  destruct (Z.eqb_spec (block_size_of self block_size) 0) as [H0|H0];
    [discriminate|].
  intros H.
  apply mbind_ok in H. destruct H as [pool [r1 [Hpool H]]].
  apply lift_ok in Hpool. destruct Hpool as [Hpool ->].
  apply mbind_ok in H. destruct H as [rnd [r2 [Hrnd H]]].
  apply mbind_ok in H. destruct H as [booted0 [r3 [Hcat H]]].
  apply lift_ok in Hcat. destruct Hcat as [Hcat ->].
  apply mbind_ok in H. destruct H as [booted [r4 [Htop H]]].
  apply mbind_ok in H. destruct H as [drawn [r5 [Hdraw H]]].
  apply mbind_ok in H. destruct H as [ev' [r6 [Hev H]]].
  apply lift_ok in Hev. destruct Hev as [Hev ->].
  apply lift_ok in H. destruct H as [Hinit _].
  exists pool, rnd, r, r2, booted0, booted, r2, r4, drawn, r5, ev'.
  repeat split; assumption.
Qed.

(** X15.  The engine [bootstrap_wo_events] returns has its rows numbered
    from 0, the window and [event_date_index] of the original engine, and
    the columns of the original events that are assets of the original
    panel, in both its panel and its events. *)
Theorem bootstrap_engine_shape (fuel : nat) (self : EventStudy)
  (block_size : option Z) (r r' : rng) (e' : EventStudy) :
  bootstrap_wo_events fuel self block_size r = Ok (e', r') ->
  range_indexed (data e') /\
  window e' = window self /\
  event_date_index e' = event_date_index self /\
  assets e' = filter (fun c => mem_label c (assets self))
                (names (events self)) /\
  names (events e') = assets e'.
Proof.
  intros H. apply bootstrap_ok_steps in H.
  destruct H as [pool [rnd [r1 [r2 [booted0 [booted [r3 [r4 [drawn [r5 [ev'
    [H0 [Hpool [Hrnd [Hcat [Htop [Hdraw [Hev Hinit]]]]]]]]]]]]]]]]]].
  pose proof (top_up_range _ _ _ _ _ _ _ _ (concat_rows_range _ _ Hcat) Htop)
    as Hrange.
  apply top_up_ok in Htop. destruct Htop as [_ Hnb].
  assert (Hbooted : names booted = names (data self)).
  { rewrite Hnb, (names_concat_rows _ pool _ Hcat).
    - now apply names_boot_from.
    - intros g Hg. apply in_map_iff in Hg. destruct Hg as [p [<- _]].
      unfold iloc_block. apply names_take_rows. }
  apply draw_events_ok in Hdraw.
  destruct (count_of_concat_events (events self) ev' drawn ""%string
              Hdraw Hev) as [_ Hn'].
  destruct (init_frames _ _ _ _ _ Hinit) as [ev [Hs _]].
  destruct (init_frames_ok _ _ _ _ _ Hinit) as [Hd He].
  split; [|split; [|split; [|split]]].
  - unfold range_indexed, len in *. rewrite Hd. unfold align_inner.
    cbn [snd index]. exact Hrange.
  - now rewrite Hs.
  - now rewrite Hs.
  - unfold assets. rewrite Hd. unfold align_inner. cbn [snd].
    rewrite names_tabulate, Hn', Hbooted. reflexivity.
  - unfold assets. rewrite Hd, He. unfold align_inner. cbn [fst snd].
    now rewrite !names_tabulate.
Qed.

Lemma bootstrap_engine_shape_witness :
  exists e' r',
    bootstrap_wo_events 5 study10 (Some 2) tape0 = Ok (e', r') /\
    range_indexed (data e') /\
    window e' = window study10 /\
    event_date_index e' = event_date_index study10 /\
    assets e' = filter (fun c => mem_label c (assets study10))
                  (names (events study10)) /\
    names (events e') = assets e'.
Proof.
  destruct (bootstrap_wo_events 5 study10 (Some 2) tape0)
    as [[e' r']| |] eqn:E;
    [| vm_compute in E; discriminate | vm_compute in E; discriminate].
  exists e', r'. split; [reflexivity|].
  apply (bootstrap_engine_shape 5 study10 (Some 2) tape0 r' e' E).
Defined.

Lemma randints_range (n size : nat) :
  forall r xs r',
    (0 < n)%nat ->
    randints n size r = Ok (xs, r') ->
    length xs = size /\ Forall (fun x => (x < n)%nat) xs.
Proof.
  induction size as [|size IH]; intros r xs r' Hn H; simpl in H.
  - inversion H. split; [reflexivity|constructor].
  - apply mbind_ok in H. destruct H as [x [r1 [Hx H]]].
    apply mbind_ok in H. destruct H as [ys [r2 [Hys H]]].
    inversion H; subst. apply randint_ok in Hx; [|exact Hn].
    destruct (IH _ _ _ Hn Hys) as [Hl Hall]. split.
    + simpl. now rewrite Hl.
    + now constructor.
Qed.

Lemma len_take_rows {A} (ps : list nat) (f : Frame (option A)) :
  len (take_rows ps f) = length ps.
Proof. unfold len, take_rows. simpl. apply length_map. Qed.

Lemma filter_seq_below (n p k : nat) :
  (p + k <= n)%nat -> filter (fun i => (i <? n)%nat) (seq p k) = seq p k.
Proof.
  revert p. induction k as [|k IH]; intros p H; simpl; [reflexivity|].
  destruct (Nat.ltb_spec p n); [|lia]. rewrite IH by lia. reflexivity.
Qed.

(** A block cut inside the pool has exactly [block_size] rows. *)
Lemma len_iloc_block (p : nat) (bs : Z) (f : DataFrame) :
  (Z.of_nat p < Z.of_nat (len f) - bs) ->
  len (iloc_block p bs f) = Z.to_nat bs.
Proof.
  intros H. unfold iloc_block. rewrite len_take_rows.
  destruct (Z.to_nat bs) as [|k] eqn:E; [reflexivity|].
  rewrite filter_seq_below by lia. apply length_seq.
Qed.

Lemma len_fold_append (k : nat) (tl : list DataFrame) :
  Forall (fun g => len g = k) tl ->
  forall f0, len (fold_left append_rows tl f0) = (len f0 + length tl * k)%nat.
Proof.
  induction 1 as [|g tl Hg _ IH]; intros f0; simpl; [lia|].
  rewrite IH, len_append_rows, Hg. lia.
Qed.

Lemma top_up_len (dat pool : DataFrame) (bs : Z) (fuel : nat) :
  forall booted0 r booted r',
    top_up fuel dat pool bs booted0 r = Ok (booted, r') ->
    exists m, len booted = (len booted0 + m * Z.to_nat bs)%nat.
Proof.
  induction fuel as [|fuel IH]; intros booted0 r booted r' H; simpl in H.
  - destruct (short_of booted0 dat); [discriminate|].
    inversion H; subst. exists O. lia.
  - destruct (short_of booted0 dat).
    + apply mbind_ok in H. destruct H as [p [r1 [Hp H]]].
      apply IH in H. destruct H as [m Hm].
      unfold choice1 in Hp.
      destruct (Z.leb_spec (Z.of_nat (len pool) - bs) 0) as [?|Hpop];
        [discriminate|].
      apply randint_ok in Hp; [|lia].
      rewrite len_append_rows, len_iloc_block in Hm by lia.
      exists (S m). lia.
    + inversion H; subst. exists O. lia.
Qed.

Lemma ceil_div_times (a b : Z) : 0 < b -> a <= ceil_div a b * b.
Proof.
  intros Hb. unfold ceil_div.
  pose proof (Z.mul_div_le (- a) b Hb). lia.
Qed.

(** X16.  The panel [bootstrap_wo_events] returns is made of whole blocks:
    its length is a multiple of the (positive) block size, with at least
    [2 * ceil(len(data) / block_size)] blocks, so it is at least twice as
    long as the original panel. *)
Theorem bootstrap_panel_length (fuel : nat) (self : EventStudy)
  (block_size : option Z) (r r' : rng) (e' : EventStudy) :
  bootstrap_wo_events fuel self block_size r = Ok (e', r') ->
  0 < block_size_of self block_size /\
  (exists k,
      Z.of_nat (len (data e')) = k * block_size_of self block_size /\
      2 * ceil_div (Z.of_nat (len (data self)))
            (block_size_of self block_size) <= k) /\
  (2 * len (data self) <= len (data e'))%nat.
Proof.
  intros H. apply bootstrap_ok_steps in H.
  destruct H as [pool [rnd [r1 [r2 [booted0 [booted [r3 [r4 [drawn [r5 [ev'
    [H0 [Hpool [Hrnd [Hcat [Htop [Hdraw [Hev Hinit]]]]]]]]]]]]]]]]]].
  set (bs := block_size_of self block_size) in *.
  set (n_blocks := ceil_div (Z.of_nat (len (data self))) bs) in *.
  destruct (init_frames_ok _ _ _ _ _ Hinit) as [Hd _].
  assert (Hlen : len (data e') = len booted).
  { rewrite Hd. reflexivity. }
  unfold choice in Hrnd.
  destruct ((Z.of_nat (len pool) - bs <=? 0) && negb (n_blocks * 2 =? 0))
    eqn:Echk; [discriminate|].
  destruct (Z.ltb_spec (n_blocks * 2) 0) as [?|Hsize]; [discriminate|].
  assert (Hne : rnd <> []).
  { intros ->. simpl in Hcat. discriminate. }
  assert (Hpos : 0 < n_blocks * 2).
  { destruct (Z.eq_dec (n_blocks * 2) 0) as [Hz|Hz]; [|lia].
    rewrite Hz in Hrnd. simpl in Hrnd. inversion Hrnd. congruence. }
  assert (Hpop : 0 < Z.of_nat (len pool) - bs).
  { destruct (Z.leb_spec (Z.of_nat (len pool) - bs) 0) as [?|?]; [|lia].
    destruct (Z.eqb_spec (n_blocks * 2) 0); [lia|discriminate]. }
  assert (Hbs : 0 < bs).
  { destruct (Z.lt_ge_cases 0 bs) as [?|Hneg]; [assumption|].
    pose proof (ceil_div_negative (Z.of_nat (len (data self))) bs
                  ltac:(lia) ltac:(lia)).
    unfold n_blocks in Hpos. lia. }
  apply randints_range in Hrnd; [|lia]. destruct Hrnd as [Hl Hall].
  assert (Hblocks : Forall (fun g => len g = Z.to_nat bs)
                      (map (fun p => iloc_block p bs pool) rnd)).
  { rewrite Forall_map. revert Hall. apply Forall_impl. intros p Hp.
    apply len_iloc_block. lia. }
  assert (Hb0 : len booted0 = (length rnd * Z.to_nat bs)%nat).
  { destruct rnd as [|p rnd]; [congruence|].
    simpl in Hcat. inversion Hcat as [Hb]. clear Hcat Hb.
    inversion Hblocks as [|? ? Hp Htl]; subst.
    rewrite (len_fold_append (Z.to_nat bs) _ Htl).
    unfold len at 1. cbn [index]. rewrite length_map, length_seq, Hp.
    rewrite length_map. simpl. lia. }
  apply top_up_len in Htop. destruct Htop as [m Hm].
  pose proof (ceil_div_times (Z.of_nat (len (data self))) bs Hbs) as Hceil.
  fold n_blocks in Hceil.
  split; [exact Hbs|]. split.
  - exists (Z.of_nat (length rnd + m)). split; [|lia].
    rewrite Hlen, Hm, Hb0. nia.
  - rewrite Hlen, Hm, Hb0, Hl. nia.
Qed.

Lemma bootstrap_panel_length_witness :
  exists e' r',
    bootstrap_wo_events 5 study10 (Some 2) tape0 = Ok (e', r') /\
    0 < block_size_of study10 (Some 2) /\
    (exists k,
        Z.of_nat (len (data e')) = k * block_size_of study10 (Some 2) /\
        2 * ceil_div (Z.of_nat (len (data study10)))
              (block_size_of study10 (Some 2)) <= k) /\
    (2 * len (data study10) <= len (data e'))%nat.
Proof.
  destruct (bootstrap_wo_events 5 study10 (Some 2) tape0)
    as [[e' r']| |] eqn:E;
    [| vm_compute in E; discriminate | vm_compute in E; discriminate].
  exists e', r'. split; [reflexivity|].
  apply (bootstrap_panel_length 5 study10 (Some 2) tape0 r' e' E).
Defined.

Lemma get_column_named {C D} (G : label * list C -> list D) (a : label)
  (cols : list (label * list C)) (col' : list D) :
  get_column a (map (fun c => (fst c, G c)) cols) = Some col' ->
  exists col, get_column a cols = Some col /\ col' = G (a, col).
Proof.
  induction cols as [|[c x] cols IH]; simpl; [discriminate|].
  destruct (String.eqb_spec a c) as [->|Hne].
  - intros H. inversion H. eauto.
  - exact IH.
Qed.

Lemma In_some_nth {A} (v : A) (l : list (option A)) (p : nat) :
  nth p l None = Some v -> In (Some v) l.
Proof.
  intros H. rewrite <- H. apply nth_In.
  destruct (Nat.lt_ge_cases p (length l)) as [?|Hge]; [assumption|].
  rewrite nth_overflow in H by exact Hge. discriminate.
Qed.

Lemma drawn_from_take_rows (ps : list nat) (pool : DataFrame) :
  drawn_from pool (take_rows ps pool).
Proof.
  intros a col v Hcol Hin. unfold take_rows in Hcol. cbn [columns] in Hcol.
  apply (get_column_named (fun c => map (fun p => nth p (snd c) None) ps))
    in Hcol.
  destruct Hcol as [pcol [Hp ->]]. exists pcol. split; [exact Hp|].
  cbn [snd] in Hin. apply in_map_iff in Hin. destruct Hin as [p [Hp' _]].
  now apply In_some_nth in Hp'.
Qed.

Lemma drawn_from_append (pool x b : DataFrame) :
  drawn_from pool x -> drawn_from pool b ->
  drawn_from pool (append_rows x b).
Proof.
  intros Hx Hb a col v Hcol Hin. unfold append_rows in Hcol.
  cbn [columns] in Hcol.
  apply (get_column_named
           (fun c => snd c ++ match get_column (fst c) (columns b) with
                              | Some col => col
                              | None => map (fun _ => None) (index b)
                              end)) in Hcol.
  destruct Hcol as [xcol [Hxc ->]]. cbn [fst snd] in Hin.
  apply in_app_or in Hin. destruct Hin as [Hin|Hin].
  - exact (Hx a xcol v Hxc Hin).
  - destruct (get_column a (columns b)) as [bcol|] eqn:Eb.
    + exact (Hb a bcol v Eb Hin).
    + apply in_map_iff in Hin. destruct Hin as [t [Ht _]]. discriminate.
Qed.

Lemma drawn_from_fold (pool : DataFrame) (tl : list DataFrame) :
  Forall (drawn_from pool) tl ->
  forall f0, drawn_from pool f0 ->
             drawn_from pool (fold_left append_rows tl f0).
Proof.
  induction 1 as [|g tl Hg _ IH]; intros f0 Hf0; simpl; [exact Hf0|].
  apply IH. now apply drawn_from_append.
Qed.

Lemma drawn_from_concat (pool : DataFrame) (frames : list DataFrame)
  (booted : DataFrame) :
  Forall (drawn_from pool) frames ->
  concat_rows frames = Ok booted -> drawn_from pool booted.
Proof.
  intros Hall H. destruct frames as [|f tl]; simpl in H; [discriminate|].
  inversion H as [Hb]. clear H Hb.
  inversion Hall as [|? ? Hf Htl]; subst.
  apply drawn_from_fold; [exact Htl|exact Hf].
Qed.

Lemma drawn_from_top_up (dat pool : DataFrame) (bs : Z) (fuel : nat) :
  forall booted0 r booted r',
    drawn_from pool booted0 ->
    top_up fuel dat pool bs booted0 r = Ok (booted, r') ->
    drawn_from pool booted.
Proof.
  induction fuel as [|fuel IH]; intros booted0 r booted r' H0 H; simpl in H.
  - destruct (short_of booted0 dat); [discriminate|].
    inversion H; subst. exact H0.
  - destruct (short_of booted0 dat).
    + apply mbind_ok in H. destruct H as [p [r1 [_ H]]].
      apply IH in H; [exact H|].
      apply drawn_from_append; [exact H0|].
      unfold iloc_block. apply drawn_from_take_rows.
    + inversion H; subst. exact H0.
Qed.

(** The event-free pool holds values of the panel at slots outside every
    window of the raw mask. *)
Lemma pool_outside_windows (self : EventStudy) (pool : DataFrame) :
  boot_from self = Ok pool ->
  exists w,
    mark_event_windows self false = Ok w /\
    forall a pcol v,
      get_column a (columns pool) = Some pcol -> In (Some v) pcol ->
      exists dcol i,
        get_column a (columns (data self)) = Some dcol /\
        nth i dcol None = Some v /\ mask_at w a i = false.
Proof.
  unfold boot_from.
  destruct (mark_event_windows self false) as [w| |] eqn:Hw;
    try discriminate.
  cbn [rbind]. intros H. inversion H as [Hpool]. clear H.
  exists w. split; [reflexivity|].
  destruct (mark_event_windows_limits _ _ _ Hw) as [Hb Hf].
  rewrite (mark_event_windows_ok self false Hb Hf) in Hw.
  inversion Hw as [Hw']. clear Hw.
  rewrite events_reidx_tab, tab_map_columns.
  set (Mk := fun a => mark_column (Z.to_nat (limit_back self))
                        (Z.to_nat (limit_fwd self)) false
                        (map (fun t => if has_event self a t
                                       then Some true else None)
                           (index (data self)))).
  intros a pcol v Hp Hin.
  destruct (drawn_from_take_rows
              (rows_with_value
                 (where_ (data self) (frame_not (tab self Mk))))
              (where_ (data self) (frame_not (tab self Mk)))
              a pcol v Hp Hin) as [wcol [Hwc Hinw]].
  unfold where_, frame_not, map_cells in Hwc.
  rewrite tab_map_columns in Hwc. unfold zip_cells, tab in Hwc.
  cbn [columns] in Hwc.
  rewrite <- (map_id (columns (data self))) in Hwc at 1.
  rewrite combine_map_same, map_map in Hwc. cbn [fst snd] in Hwc.
  apply (get_column_named
           (fun c => zip_with (fun x (b : bool) => if b then x else None)
                       (snd c) (map negb (Mk (fst c))))) in Hwc.
  destruct Hwc as [dcol [Hd ->]]. cbn [fst snd] in Hinw.
  apply In_nth with (d := None) in Hinw. destruct Hinw as [i [Hi Hv]].
  rewrite zip_with_length_min, length_map in Hi.
  rewrite (nth_zip_with _ _ _ None false) in Hv
    by (rewrite ?length_map; lia).
  exists dcol, i. split; [exact Hd|].
  change false with (negb true) in Hv at 1. rewrite map_nth in Hv.
  unfold mask_at, tab. cbn [columns].
  assert (Hm : get_column a (map (fun c => (fst c, Mk (fst c)))
                               (columns (data self))) = Some (Mk a)).
  { clear -Hd. induction (columns (data self)) as [|[c x] cols IH];
      simpl in *; [discriminate|].
    destruct (String.eqb_spec a c) as [->|Hne]; [reflexivity|auto]. }
  rewrite Hm. rewrite (nth_indep _ false true) by lia.
  destruct (nth i (Mk a) true); simpl in Hv; [discriminate|].
  split; [exact Hv|reflexivity].
Qed.

(** X17.  Every value of the panel [bootstrap_wo_events] returns is a value
    the original panel holds for the same asset at a slot that the mask
    without ambiguity exclusion leaves unmarked: nothing is resampled from
    inside an event window. *)
Theorem bootstrap_values_outside_windows (fuel : nat) (self : EventStudy)
  (block_size : option Z) (r r' : rng) (e' : EventStudy) :
  bootstrap_wo_events fuel self block_size r = Ok (e', r') ->
  exists w,
    mark_event_windows self false = Ok w /\
    forall a col v,
      get_column a (columns (data e')) = Some col -> In (Some v) col ->
      exists dcol i,
        get_column a (columns (data self)) = Some dcol /\
        nth i dcol None = Some v /\ mask_at w a i = false.
Proof.
  intros H. apply bootstrap_ok_steps in H.
  destruct H as [pool [rnd [r1 [r2 [booted0 [booted [r3 [r4 [drawn [r5 [ev'
    [H0 [Hpool [Hrnd [Hcat [Htop [Hdraw [Hev Hinit]]]]]]]]]]]]]]]]]].
  destruct (pool_outside_windows self pool Hpool) as [w [Hw Hout]].
  exists w. split; [exact Hw|].
  assert (Hbooted : drawn_from pool booted).
  { apply (drawn_from_top_up _ _ _ _ _ _ _ _ (drawn_from_concat pool _ _
             ltac:(rewrite Forall_map; apply Forall_forall; intros p _;
                   unfold iloc_block; apply drawn_from_take_rows) Hcat)
             Htop). }
  destruct (init_frames_ok _ _ _ _ _ Hinit) as [Hd _].
  intros a col v Hcol Hin. rewrite Hd in Hcol.
  unfold align_inner in Hcol. cbn [snd columns] in Hcol.
  rewrite get_column_tabulate in Hcol.
  destruct (mem_label a _); [|discriminate].
  inversion Hcol as [Hc]. clear Hcol.
  destruct (get_column a (columns booted)) as [bcol|] eqn:Eb;
    [|subst col; contradiction].
  subst col.
  destruct (Hbooted a bcol v Eb Hin) as [pcol [Hp Hinp]].
  exact (Hout a pcol v Hp Hinp).
Qed.

Lemma bootstrap_values_outside_windows_witness :
  exists e' r',
    bootstrap_wo_events 5 study10 (Some 2) tape0 = Ok (e', r') /\
    exists w,
      mark_event_windows study10 false = Ok w /\
      forall a col v,
        get_column a (columns (data e')) = Some col -> In (Some v) col ->
        exists dcol i,
          get_column a (columns (data study10)) = Some dcol /\
          nth i dcol None = Some v /\ mask_at w a i = false.
Proof.
  destruct (bootstrap_wo_events 5 study10 (Some 2) tape0)
    as [[e' r']| |] eqn:E;
    [| vm_compute in E; discriminate | vm_compute in E; discriminate].
  exists e', r'. split; [reflexivity|].
  apply (bootstrap_values_outside_windows 5 study10 (Some 2) tape0 r' e' E).
Defined.

Lemma count_notnull_zero {A} (l : list (option A)) (v : A) :
  count_notnull l = O -> ~ In (Some v) l.
Proof.
  induction l as [|[x|] l IH]; simpl; [tauto|discriminate|].
  intros H [Hd|Hin]; [discriminate|now apply IH].
Qed.

Lemma count_notnull_pos {A} (l : list (option A)) :
  (0 < count_notnull l)%nat -> exists v, In (Some v) l.
Proof.
  induction l as [|[x|] l IH]; simpl; [lia| |].
  - intros _. exists x. now left.
  - intros H. destruct (IH H) as [v Hv]. exists v. now right.
Qed.

(** X18.  When an asset has values in the panel but none in the event-free
    pool (all of them lie inside event windows), [bootstrap_wo_events]
    returns no engine, whatever the block size, the draws and the number of
    passes the loop is allowed: the loop cannot reach the count it waits
    for. *)
Theorem bootstrap_starved_asset (fuel : nat) (self : EventStudy)
  (block_size : option Z) (r r' : rng) (e' : EventStudy) (pool : DataFrame)
  (a : label) :
  boot_from self = Ok pool ->
  In a (assets self) ->
  count_of pool a = O ->
  (0 < count_of (data self) a)%nat ->
  bootstrap_wo_events fuel self block_size r <> Ok (e', r').
Proof.
  intros Hpool Ha Hzero Hpos H. apply bootstrap_ok_steps in H.
  destruct H as [pool' [rnd [r1 [r2 [booted0 [booted [r3 [r4 [drawn [r5 [ev'
    [H0 [Hpool' [Hrnd [Hcat [Htop [Hdraw [Hev Hinit]]]]]]]]]]]]]]]]]].
  assert (pool' = pool) by congruence. subst pool'.
  assert (Hbooted : drawn_from pool booted).
  { apply (drawn_from_top_up _ _ _ _ _ _ _ _ (drawn_from_concat pool _ _
             ltac:(rewrite Forall_map; apply Forall_forall; intros p _;
                   unfold iloc_block; apply drawn_from_take_rows) Hcat)
             Htop). }
  apply top_up_ok in Htop. destruct Htop as [Hshort _].
  pose proof (short_of_false booted (data self) a Hshort Ha) as Hle.
  unfold count_of in Hle at 2.
  destruct (get_column a (columns booted)) as [bcol|] eqn:Eb; [|lia].
  destruct (count_notnull_pos bcol ltac:(lia)) as [v Hv].
  destruct (Hbooted a bcol v Eb Hv) as [pcol [Hp Hin]].
  unfold count_of in Hzero. rewrite Hp in Hzero.
  exact (count_notnull_zero pcol v Hzero Hin).
Qed.

Lemma bootstrap_starved_asset_witness :
  ~ exists e' r', bootstrap_wo_events 5 study5 (Some 1) tape0 = Ok (e', r').
Proof.
  intros [e' [r' H]]. revert H.
  apply (bootstrap_starved_asset 5 study5 (Some 1) tape0 r' e'
           (dropna_all (where_ (data study5)
                          (frame_not
                             (mkFrame [3; 4; 5; 6; 7]
                                [("X"%string,
                                  [true; true; true; true; true])]))))
           "X"%string).
  - reflexivity.
  - now left.
  - reflexivity.
  - vm_compute. lia.
Defined.

(** X19.  Without events nothing is marked: when no asset has an event on
    the calendar, every mask [mark_event_windows] returns is false at every
    slot of the panel. *)
Theorem no_event_no_window (self : EventStudy) (excl : bool)
  (m : Frame bool) (a : label) (i : nat) :
  (forall b j, event_at self b j = false) ->
  mark_event_windows self excl = Ok m ->
  In a (assets self) -> (i < len (data self))%nat ->
  mask_at m a i = false.
Proof.
  intros Hnone Hm Ha Hi. apply not_true_is_false. intros Ht.
  apply (mask_at_events self excl m a i Hm Ha Hi) in Ht.
  destruct Ht as [[[j [Hj _]]|[j [Hj _]]] _];
    rewrite Hnone in Hj; discriminate.
Qed.

Lemma no_event_no_window_witness :
  mask_at (mkFrame days10
             [("X"%string, [false; false; false; false; false; false; false;
                            false; false; false])]) "X"%string 4 = false.
Proof.
  apply (no_event_no_window study_quiet true).
  - intros b j. unfold event_at, event_column. simpl.
    destruct (String.eqb b "X"); [|reflexivity].
    do 10 (destruct j as [|j]; [reflexivity|]). now destruct j.
  - reflexivity.
  - now left.
  - vm_compute. lia.
Defined.
